(** * Checkout pay: duplicate-order suppression and card submission

    A shallow embedding of the order-creation guards
    ([useCheckoutContainerOrder], [usePaymentWrapper], [useOrderOperations]),
    of the card validators ([validateCardForm], [maskCardNumber]) and of the
    card submission pipeline ([processCardPayment], [handleCardFormSubmit]),
    with the other operations of these hooks, the product list
    ([useProductOperations]) and the slugs ([slugUtils]). *)

From Stdlib Require Import ZArith NArith List String Ascii Bool Lia.
From stdpp Require Import gmap strings list fin_maps pretty.

Local Open Scope N_scope.

(** ** JavaScript strings

    A JavaScript string is a sequence of UTF-16 code units; [length] counts
    code units and the regular expressions of the source (none has the [u]
    flag) work on code units. *)

Abbreviation jsstring := (list N).

(** A literal: one code unit per character of an ASCII text. *)
Definition js (s : string) : jsstring :=
  map N_of_ascii (list_ascii_of_string s).

(** The class [\d]: the ten ASCII digits. *)
Definition isDigit (c : N) : bool := (48 <=? c) && (c <=? 57).
Arguments isDigit : simpl never.

(** The class [\s], which is also what [trim] and [parseInt] skip:
    WhiteSpace and LineTerminator of ECMAScript. *)
Definition isWhiteSpace (c : N) : bool :=
  match c with
  | 9 | 10 | 11 | 12 | 13 | 32 | 160 | 5760
  | 8232 | 8233 | 8239 | 8287 | 12288 | 65279 => true
  | _ => (8192 <=? c) && (c <=? 8202)
  end.

(** [s.replace(/\s+/g, '')]: every maximal run of white space is removed,
    which leaves the code units that are not white space. *)
Definition removeWhiteSpace (s : jsstring) : jsstring :=
  filter (fun c => isWhiteSpace c = false) s.

(** [s.replace(/\D/g, '')]: every code unit that is not a digit is removed. *)
Definition removeNonDigits (s : jsstring) : jsstring :=
  filter (fun c => isDigit c = true) s.

Fixpoint trimStart (s : jsstring) : jsstring :=
  match s with
  | c :: rest => if isWhiteSpace c then trimStart rest else s
  | [] => []
  end.

(** [s.trim()]. *)
Definition trim (s : jsstring) : jsstring :=
  rev (trimStart (rev (trimStart s))).

(** Truthiness of a string: the empty string is the only falsy one. *)
Definition truthy (s : jsstring) : bool :=
  match s with [] => false | _ => true end.

(** The longest prefix of decimal digits, read as a number. *)
Fixpoint digitsPrefix (s : jsstring) : list N :=
  match s with
  | c :: rest => if isDigit c then (c - 48) :: digitsPrefix rest else []
  | [] => []
  end.

Definition digitsValue (ds : list N) : Z :=
  fold_left (fun acc d => (10 * acc + Z.of_N d)%Z) ds 0%Z.

(** [parseInt(s, 10)]: leading white space is skipped, one sign is read,
    then the longest prefix of digits; [None] stands for [NaN]. The number is
    kept as an integer: the source only compares it with 1 and 12, and
    rounding to a double does not move an integer across those bounds. *)
Definition parseInt (s : jsstring) : option Z :=
  let s := trimStart s in
  let '(sign, s) :=
    match s with
    | 45 :: rest => ((-1)%Z, rest)
    | 43 :: rest => (1%Z, rest)
    | _ => (1%Z, s)
    end in
  match digitsPrefix s with
  | [] => None
  | ds => Some (sign * digitsValue ds)%Z
  end.

(** [a || b] where [a] may be [undefined] or empty. *)
Definition orString (a : option string) (b : string) : string :=
  match a with
  | Some s => if decide (s = ""%string) then b else s
  | None => b
  end.
Arguments orString : simpl never.

(** The truthy value of an optional string, if it has one. *)
Definition truthyText (a : option string) : option string :=
  match a with
  | Some s => if decide (s = ""%string) then None else Some s
  | None => None
  end.

(** The code unit at position [i] is a digit. *)
Definition digitAt (s : jsstring) (i : nat) : bool :=
  match s !! i with Some c => isDigit c | None => false end.

Definition countDigits (s : jsstring) : nat :=
  length (List.filter isDigit s).

Module CardValidation.

(** The keys of [CardValidationErrors]. *)
Inductive CardField := CardName | CardNumber | ExpiryMonth | ExpiryYear | Cvv.

#[global] Instance CardField_eq_dec : EqDecision CardField.
Proof. solve_decision. Defined.

(** A [CardValidationErrors] object: its own keys in insertion order, as
    [Object.keys] and [Object.values] enumerate them. *)
Abbreviation CardValidationErrors := (list (CardField * string)).

(** [errors.k = v]: a present key keeps its place, a new key goes last. *)
Fixpoint setKey (errors : CardValidationErrors) (k : CardField) (v : string)
  : CardValidationErrors :=
  match errors with
  | [] => [(k, v)]
  | (k', v') :: rest =>
      if decide (k' = k) then (k, v) :: rest else (k', v') :: setKey rest k v
  end.

Definition Object_values (errors : CardValidationErrors) : list string :=
  map snd errors.

Definition validateCardForm
  (cardName cardNumber expiryMonth expiryYear cvv : jsstring)
  : option CardValidationErrors :=
  let errors : CardValidationErrors := [] in
  let cleanCardNumber := removeWhiteSpace cardNumber in
  let errors :=
    if negb (truthy (trim cardName))
    then setKey errors CardName "Nome no cartão é obrigatório"
    else errors in
  let errors :=
    if N.of_nat (length cleanCardNumber) <? 16
    then setKey errors CardNumber "Número do cartão inválido"
    else errors in
  let errors :=
    if negb (truthy expiryMonth)
    then setKey errors ExpiryMonth "Mês de validade é obrigatório"
    else
      match parseInt expiryMonth with
      | None => setKey errors ExpiryMonth "Mês inválido (1-12)"
      | Some month =>
          if ((month <? 1) || (month >? 12))%Z
          then setKey errors ExpiryMonth "Mês inválido (1-12)"
          else errors
      end in
  let errors :=
    if negb (truthy expiryYear)
    then setKey errors ExpiryYear "Ano de validade é obrigatório"
    else if negb (N.of_nat (length expiryYear) =? 2)
    then setKey errors ExpiryYear "Ano inválido (AA)"
    else errors in
  let errors :=
    if negb (truthy cvv) || negb (N.of_nat (length cvv) =? 3)
    then setKey errors Cvv "CVV inválido"
    else if decide (cvv = js "000")
    then setKey errors Cvv "CVV inválido (não pode ser 000)"
    else errors in
  if (0 <? length errors)%nat then Some errors else None.

(** The five checks of [validateCardForm], one per field. *)
Definition cardNameFails (cardName : jsstring) : bool :=
  negb (truthy (trim cardName)).

Definition cardNumberFails (cardNumber : jsstring) : bool :=
  N.of_nat (length (removeWhiteSpace cardNumber)) <? 16.

Definition expiryMonthFails (expiryMonth : jsstring) : bool :=
  negb (truthy expiryMonth)
  || match parseInt expiryMonth with
     | None => true
     | Some month => ((month <? 1) || (month >? 12))%Z
     end.

Definition expiryYearFails (expiryYear : jsstring) : bool :=
  negb (truthy expiryYear) || negb (N.of_nat (length expiryYear) =? 2).

Definition cvvFails (cvv : jsstring) : bool :=
  negb (truthy cvv) || negb (N.of_nat (length cvv) =? 3)
  || bool_decide (cvv = js "000").

Definition fieldFails (k : CardField)
  (cardName cardNumber expiryMonth expiryYear cvv : jsstring) : bool :=
  match k with
  | CardName => cardNameFails cardName
  | CardNumber => cardNumberFails cardNumber
  | ExpiryMonth => expiryMonthFails expiryMonth
  | ExpiryYear => expiryYearFails expiryYear
  | Cvv => cvvFails cvv
  end.

(** The place of a field in the order of the five checks. *)
Definition fieldOrder (k : CardField) : nat :=
  match k with
  | CardName => 0
  | CardNumber => 1
  | ExpiryMonth => 2
  | ExpiryYear => 3
  | Cvv => 4
  end.

(** The first failing field in the order name, number, month, year, CVV. *)
Definition firstFailing
  (cardName cardNumber expiryMonth expiryYear cvv : jsstring)
  : option CardField :=
  if cardNameFails cardName then Some CardName
  else if cardNumberFails cardNumber then Some CardNumber
  else if expiryMonthFails expiryMonth then Some ExpiryMonth
  else if expiryYearFails expiryYear then Some ExpiryYear
  else if cvvFails cvv then Some Cvv
  else None.

(** The messages that [validateCardForm] has for each field. *)
Definition messageOf (k : CardField) (message : string) : Prop :=
  match k with
  | CardName => message = "Nome no cartão é obrigatório"%string
  | CardNumber => message = "Número do cartão inválido"%string
  | ExpiryMonth =>
      message = "Mês de validade é obrigatório"%string
      ∨ message = "Mês inválido (1-12)"%string
  | ExpiryYear =>
      message = "Ano de validade é obrigatório"%string
      ∨ message = "Ano inválido (AA)"%string
  | Cvv =>
      message = "CVV inválido"%string
      ∨ message = "CVV inválido (não pode ser 000)"%string
  end.

(** The errors that each check adds. *)
Definition errorsOf (k : CardField)
  (cardName cardNumber expiryMonth expiryYear cvv : jsstring)
  : CardValidationErrors :=
  match k with
  | CardName =>
      if cardNameFails cardName
      then [(CardName, "Nome no cartão é obrigatório"%string)] else []
  | CardNumber =>
      if cardNumberFails cardNumber
      then [(CardNumber, "Número do cartão inválido"%string)] else []
  | ExpiryMonth =>
      if negb (truthy expiryMonth)
      then [(ExpiryMonth, "Mês de validade é obrigatório"%string)]
      else if expiryMonthFails expiryMonth
      then [(ExpiryMonth, "Mês inválido (1-12)"%string)] else []
  | ExpiryYear =>
      if negb (truthy expiryYear)
      then [(ExpiryYear, "Ano de validade é obrigatório"%string)]
      else if expiryYearFails expiryYear
      then [(ExpiryYear, "Ano inválido (AA)"%string)] else []
  | Cvv =>
      if negb (truthy cvv) || negb (N.of_nat (length cvv) =? 3)
      then [(Cvv, "CVV inválido"%string)]
      else if cvvFails cvv
      then [(Cvv, "CVV inválido (não pode ser 000)"%string)] else []
  end.

(** The acceptance rule in the words of the specification: a name that is
    not empty, a card number of 16 to 19 digits once white space is
    stripped, a month that parses to 1..12, a year of two characters, a CVV
    of three digits other than "000". *)
Definition specAccepts
  (cardName cardNumber expiryMonth expiryYear cvv : jsstring) : bool :=
  truthy cardName
  && (forallb isDigit (removeWhiteSpace cardNumber)
      && (16 <=? N.of_nat (length (removeWhiteSpace cardNumber)))
      && (N.of_nat (length (removeWhiteSpace cardNumber)) <=? 19))
  && match parseInt expiryMonth with
     | Some month => ((1 <=? month) && (month <=? 12))%Z
     | None => false
     end
  && (N.of_nat (length expiryYear) =? 2)
  && ((N.of_nat (length cvv) =? 3) && forallb isDigit cvv
      && negb (bool_decide (cvv = js "000"))).

(** [cardNumber.replace(/\d(?=\d{4})/g, '*')]: the look-ahead reads the four
    code units that follow in the subject and consumes none of them, so every
    position is tried in turn against the unchanged subject. *)
Definition followedByFourDigits (rest : jsstring) : bool :=
  match rest with
  | a :: b :: c :: d :: _ => isDigit a && isDigit b && isDigit c && isDigit d
  | _ => false
  end.

Fixpoint maskCardNumber (cardNumber : jsstring) : jsstring :=
  match cardNumber with
  | [] => []
  | c :: rest =>
      (if isDigit c && followedByFourDigits rest then 42 else c)
        :: maskCardNumber rest
  end.

(** The digits at the start of a text. *)
Fixpoint digitRun (s : jsstring) : jsstring :=
  match s with
  | c :: rest => if isDigit c then c :: digitRun rest else []
  | [] => []
  end.

(** [v.match(/\d{4,16}/g)], of which only the first match is used: at the
    first position where four digits or more begin, the digits there, sixteen
    at most. *)
Fixpoint firstDigitRun (v : jsstring) : option jsstring :=
  match v with
  | [] => None
  | _ :: rest =>
      let run := take 16 (digitRun v) in
      if (4 <=? length run)%nat then Some run else firstDigitRun rest
  end.

(** The loop over [match.substring(i, i + 4)] in steps of four. *)
Fixpoint groupsOfFour (s : jsstring) : list jsstring :=
  match s with
  | [] => []
  | a :: b :: c :: d :: rest => [a; b; c; d] :: groupsOfFour rest
  | _ => [s]
  end.

(** [parts.join(sep)]. *)
Fixpoint join (sep : jsstring) (parts : list jsstring) : jsstring :=
  match parts with
  | [] => []
  | [part] => part
  | part :: parts => part ++ sep ++ join sep parts
  end.

Definition formatCardNumber (value : jsstring) : jsstring :=
  let v := removeNonDigits (removeWhiteSpace value) in
  let matches := firstDigitRun v in
  let match_ := default [] matches in
  let parts := groupsOfFour match_ in
  if (0 <? length parts)%nat then join [32] parts else value.

End CardValidation.

(** ** The card submission pipeline ([cardProcessor], [CheckoutForm]) *)

Module CardProcessor.
Import CardValidation.

(** Modelled from the spec: [CardFormData] is declared with the card form,
    which lies outside the modules embedded here; it carries the five card
    fields that [validateCardForm] reads. *)
Record CardFormData := {
  cardName : jsstring;
  cardNumber : jsstring;
  expiryMonth : jsstring;
  expiryYear : jsstring;
  cvv : jsstring
}.

(** [validateCardForm] on the fields of a card. *)
Definition validateCardFields (cardData : CardFormData)
  : option CardValidationErrors :=
  validateCardForm (cardName cardData) (cardNumber cardData)
    (expiryMonth cardData) (expiryYear cardData) (cvv cardData).

(** The gateway settings. A flag may be missing ([None] is [undefined]), and
    the settings themselves may be missing where they are read with [?.]. *)
Record Settings := {
  manualCardProcessing : option bool;
  isEnabled : option bool;
  manualCardStatus : option string;
  allowCreditCard : option bool;
  allowPix : option bool;
  sandboxMode : option bool
}.

(** Truthiness of an optional flag. *)
Definition flag (b : option bool) : bool :=
  match b with Some true => true | _ => false end.

(** [settings?.f]. *)
Definition optField (settings : option Settings) (f : Settings -> option bool)
  : option bool :=
  match settings with Some s => f s | None => None end.

(** What the component shows: the three pieces of state of
    [useCardPaymentStatus] that the setters write. *)
Record UI := {
  error : string;
  isSubmitting : bool;
  paymentStatus : option string
}.

(** How a call of a collaborator ends: its promise is fulfilled, its promise
    is rejected, or the call itself throws before any promise is returned. *)
Inductive completion :=
| Fulfilled
| Rejected (reason : string)
| ThrewSync (reason : string).

(** How an [async] function of the sources ends. *)
Inductive settled :=
| Resolved
| RejectedWith (reason : string).

(** The calls that the pipeline makes on its collaborators, oldest first. *)
Inductive Call :=
| CallProcessManual (cardData : CardFormData) (brand : string)
| CallProcessAutomatic (cardData : CardFormData) (brand : string)
    (settings : option Settings) (isSandbox : bool)
| CallToast (title description : string).

Record World := {
  ui : UI;
  calls : list Call
}.

Definition setError (msg : string) (w : World) : World :=
  {| ui := {| error := msg;
              isSubmitting := isSubmitting (ui w);
              paymentStatus := paymentStatus (ui w) |};
     calls := calls w |}.

Definition setIsSubmitting (b : bool) (w : World) : World :=
  {| ui := {| error := error (ui w);
              isSubmitting := b;
              paymentStatus := paymentStatus (ui w) |};
     calls := calls w |}.

Definition record (c : Call) (w : World) : World :=
  {| ui := ui w; calls := calls w ++ [c] |}.

Definition withUI (u : UI) (w : World) : World :=
  {| ui := u; calls := calls w |}.

Section Pipeline.

(** The collaborators, all outside the modules embedded here. The two
    processors receive the setters, so they are given the state of the
    component and return it as they leave it once their promise has settled. *)

(** [validateCardData] (module [./validators]) returns the errors of the card,
    or nothing. *)
Variable validateCardData : CardFormData -> option CardValidationErrors.

(** Modelled from the spec: brand detection is a prefix-pattern match in which
    an unknown pattern maps to the brand "unknown" and is not an error. *)
Variable detectCardBrand : jsstring -> string.
Variable processManual : CardFormData -> string -> UI -> completion * UI.
Variable processAutomatic :
  CardFormData -> string -> option Settings -> bool -> UI -> completion * UI.

(** The [catch] block of [processCardPayment]. [toast] tells whether the
    caller passed a toast function: the block shows its toast only then. *)
Definition processCardPayment_catch (toast : bool) (w : World)
  : settled * World :=
  let w := setError "Erro ao processar pagamento. Por favor, tente novamente." w in
  let w :=
    if toast
    then record (CallToast "Erro no processamento"
      "Houve um problema ao processar o pagamento. Por favor, tente novamente.") w
    else w in
  (Resolved, setIsSubmitting false w).

(** [return f(...)] inside the [try] of an [async] function: a throw of the
    call is caught, a rejection of the promise it returns is not (it is not
    awaited there) and becomes the rejection of the function. *)
Definition returnCall (toast : bool) (r : completion * UI) (w : World)
  : settled * World :=
  match r with
  | (Fulfilled, u) => (Resolved, withUI u w)
  | (Rejected e, u) => (RejectedWith e, withUI u w)
  | (ThrewSync _, u) => processCardPayment_catch toast (withUI u w)
  end.

Definition processCardPayment (cardData : CardFormData)
  (settings : option Settings) (isSandbox : bool) (toast : bool) (w : World)
  : settled * World :=
  match validateCardData cardData with
  | Some validationErrors =>
      let firstError := head (Object_values validationErrors) in
      (Resolved, setError (orString firstError "Verifique os dados do cartão") w)
  | None =>
      let w := setError "" w in
      let w := setIsSubmitting true w in
      let brand := detectCardBrand (cardNumber cardData) in
      if flag (optField settings manualCardProcessing)
         || negb (flag (optField settings isEnabled))
      then
        let w := record (CallProcessManual cardData brand) w in
        returnCall toast (processManual cardData brand (ui w)) w
      else
        let w := record (CallProcessAutomatic cardData brand settings isSandbox) w in
        returnCall toast
          (processAutomatic cardData brand settings isSandbox (ui w)) w
  end.

(** The settings that [CheckoutForm] passes when the context has none. *)
Definition defaultSettings : Settings :=
  {| manualCardProcessing := Some false;
     isEnabled := None;
     manualCardStatus := Some "ANALYSIS"%string;
     allowCreditCard := Some true;
     allowPix := Some true;
     sandboxMode := Some true |}.

Definition handleCardFormSubmit (settings : option Settings) (isSandbox : bool)
  (cardData : CardFormData) (w : World) : World :=
  let w := setIsSubmitting true w in
  match processCardPayment cardData
          (Some (default defaultSettings settings)) isSandbox true w with
  | (Resolved, w) => w
  | (RejectedWith _, w) =>
      let w := setError "Falha ao processar o pagamento. Por favor, tente novamente." w in
      let w := setIsSubmitting false w in
      record (CallToast "Erro no processamento"
        "Ocorreu um erro ao processar seu pagamento. Tente novamente.") w
  end.

End Pipeline.

(** Stand-ins for the collaborators, to run the pipeline on examples: a
    brand detection that knows no brand, and processors that end the
    submission at once. *)
Definition unknownBrand (cardNumber : jsstring) : string := "unknown".

Definition endSubmission (u : UI) : UI :=
  {| error := error u; isSubmitting := false; paymentStatus := paymentStatus u |}.

Definition manualStandIn (cardData : CardFormData) (brand : string) (u : UI)
  : completion * UI :=
  (Fulfilled, endSubmission u).

Definition automaticStandIn (cardData : CardFormData) (brand : string)
  (settings : option Settings) (isSandbox : bool) (u : UI) : completion * UI :=
  (Fulfilled, endSubmission u).

(** Processors that fail: one whose promise is rejected, one that throws. *)
Definition manualRejects (cardData : CardFormData) (brand : string) (u : UI)
  : completion * UI :=
  (Rejected "manual review failed", u).

Definition automaticThrows (cardData : CardFormData) (brand : string)
  (settings : option Settings) (isSandbox : bool) (u : UI) : completion * UI :=
  (ThrewSync "gateway unreachable", u).

Definition idle : World :=
  {| ui := {| error := ""; isSubmitting := false; paymentStatus := None |};
     calls := [] |}.

(** Cards and settings for the examples. *)
Definition validCard : CardFormData :=
  {| cardName := js "ANA SILVA"; cardNumber := js "4111 1111 1111 1111";
     expiryMonth := js "12"; expiryYear := js "30"; cvv := js "123" |}.

Definition cardWithoutName : CardFormData :=
  {| cardName := js ""; cardNumber := js "4111 1111 1111 1111";
     expiryMonth := js "12"; expiryYear := js "30"; cvv := js "123" |}.

Definition automaticSettings : Settings :=
  {| manualCardProcessing := Some false;
     isEnabled := Some true;
     manualCardStatus := None;
     allowCreditCard := Some true;
     allowPix := Some true;
     sandboxMode := Some false |}.

(** The settings send the submission to manual review:
    [manualCardProcessing] is true, or [isEnabled] is false or missing. *)
Definition manualRoute (settings : option Settings) : Prop :=
  optField settings manualCardProcessing = Some true
  ∨ optField settings isEnabled ≠ Some true.

(** How often each processor was called. *)
Definition isManualCall (c : Call) : bool :=
  match c with CallProcessManual _ _ => true | _ => false end.

Definition isAutomaticCall (c : Call) : bool :=
  match c with CallProcessAutomatic _ _ _ _ => true | _ => false end.

Definition manualCalls (w : World) : nat :=
  length (List.filter isManualCall (calls w)).

Definition automaticCalls (w : World) : nat :=
  length (List.filter isAutomaticCall (calls w)).

(** How often the pipeline itself showed a toast. *)
Definition isToastCall (c : Call) : bool :=
  match c with CallToast _ _ => true | _ => false end.

Definition toastCalls (w : World) : nat :=
  length (List.filter isToastCall (calls w)).


End CardProcessor.

(** ** Asynchronous calls

    The hooks below run on one thread. A call of an [async] function runs
    without interruption up to its first [await] of an outside collaborator;
    it goes on when that collaborator settles, and the timers it set in its
    [finally] block run later still. Each hook is therefore a transition
    system: calls, settlements of awaited collaborators, the passing of time
    and the firing of due timers are its events. A timer runs no earlier than
    its delay, possibly later. Closures read the React state of the render
    that made them, so the value they see is an argument of the call. *)

(** The status of an order at creation. *)
Inductive Status := pending | confirmed.

(** Modelled from the spec: [Order] is declared in [types/order], which is
    outside the modules embedded here; these are the fields that the hooks
    read. *)
Record Order := {
  id : string;
  paymentStatus : string;
  paymentMethod : string
}.

#[global] Instance Order_eq_dec : EqDecision Order.
Proof. solve_decision. Defined.

#[global] Instance Status_eq_dec : EqDecision Status.
Proof. solve_decision. Defined.

(** An order for the examples. *)
Definition paidOrder : Order :=
  {| id := "ord_1"; paymentStatus := "PAID"; paymentMethod := "CREDIT_CARD" |}.

(** The element at position [k] taken out of a list. *)
Definition removeAt {A} (k : nat) (l : list A) : list A :=
  take k l ++ drop (S k) l.

(** ** Order operations ([useOrderOperations]) *)

Module OrderOps.

Record CreateOrderInput := {
  paymentId : option string;
  productId : string;
  productName : string
}.

#[global] Instance CreateOrderInput_eq_dec : EqDecision CreateOrderInput.
Proof. solve_decision. Defined.

(** An order request for the examples. *)
Definition requestFor (pid : string) : CreateOrderInput :=
  {| paymentId := Some pid; productId := "prod_1"; productName := "Curso" |}.

(** One mounted [useOrderOperations]: the state [pendingOrder], the ref
    [processingRef] and the list [orders] that [setOrders] writes. *)
Record Instance := {
  pendingOrder : bool;
  processingRef : option string;
  orders : list Order
}.

Definition mounted : Instance :=
  {| pendingOrder := false; processingRef := None; orders := [] |}.

(** A call of [addOrder] that awaits the store. *)
Record Task := {
  taskCall : nat;
  taskInstance : nat;
  taskInput : CreateOrderInput
}.

(** What can be observed of a run, oldest first. *)
Inductive Obs :=
| Threw (call : nat) (message : string)
| StoreCreateOrder (call : nat) (orderData : CreateOrderInput)
| Returned (call : nat) (order : Order)
| Toast (title description : string).

#[global] Instance Obs_eq_dec : EqDecision Obs.
Proof. solve_decision. Defined.

Record State := {
  now : N;
  pendingOrderIds : gset string;
  instances : gmap nat Instance;
  timers : list (N * nat);
  awaiting : list Task;
  nextCall : nat;
  trace : list Obs
}.

Definition initial : State :=
  {| now := 0; pendingOrderIds := ∅; instances := ∅; timers := [];
     awaiting := []; nextCall := 0; trace := [] |}.

Definition instance (o : nat) (st : State) : Instance :=
  default mounted (instances st !! o).

Definition setInstance (o : nat) (i : Instance) (st : State) : State :=
  {| now := now st; pendingOrderIds := pendingOrderIds st;
     instances := <[o := i]> (instances st); timers := timers st;
     awaiting := awaiting st; nextCall := nextCall st; trace := trace st |}.

Definition observe (obs : list Obs) (st : State) : State :=
  {| now := now st; pendingOrderIds := pendingOrderIds st;
     instances := instances st; timers := timers st;
     awaiting := awaiting st; nextCall := nextCall st;
     trace := trace st ++ obs |}.

Definition setTimers (ts : list (N * nat)) (st : State) : State :=
  {| now := now st; pendingOrderIds := pendingOrderIds st;
     instances := instances st; timers := ts;
     awaiting := awaiting st; nextCall := nextCall st; trace := trace st |}.

Definition setAwaiting (ts : list Task) (st : State) : State :=
  {| now := now st; pendingOrderIds := pendingOrderIds st;
     instances := instances st; timers := timers st;
     awaiting := ts; nextCall := nextCall st; trace := trace st |}.

(** [catch] and [finally] of [addOrder]: the toast, the error thrown again,
    and the clean-up timer of one second. *)
Definition addOrder_fails (call o : nat) (message : string) (st : State)
  : State :=
  let st := observe [Toast "Erro" "Falha ao adicionar pedido";
                     Threw call message] st in
  setTimers (timers st ++ [(now st + 1000, o)]) st.

(** The state once a call of [addOrder] has thrown before the store. *)
Definition refused (o : nat) (message : string) (st : State) : State :=
  addOrder_fails (nextCall st) o message
    {| now := now st; pendingOrderIds := pendingOrderIds st;
       instances := instances st; timers := timers st;
       awaiting := awaiting st; nextCall := S (nextCall st);
       trace := trace st |}.

(** [addOrder] up to its [await] of the store. [seenPendingOrder] is the
    state [pendingOrder] as the closure sees it. *)
Definition addOrder (o : nat) (seenPendingOrder : bool)
  (orderData : CreateOrderInput) (st : State) : State :=
  let call := nextCall st in
  let st :=
    {| now := now st; pendingOrderIds := pendingOrderIds st;
       instances := instances st; timers := timers st;
       awaiting := awaiting st; nextCall := S call; trace := trace st |} in
  if seenPendingOrder
  then addOrder_fails call o "Já existe um pedido em processamento" st
  else
    let paymentId :=
      orString (paymentId orderData) ("order_" +:+ pretty (now st)) in
    if decide (paymentId ∈ pendingOrderIds st)
    then addOrder_fails call o
           ("Pedido com ID de pagamento " +:+ paymentId
              +:+ " já está em processamento") st
    else if decide (processingRef (instance o st) = Some paymentId)
    then addOrder_fails call o
           ("Pedido já está em processamento (" +:+ paymentId +:+ ")") st
    else
      let st :=
        setInstance o
          {| pendingOrder := true;
             processingRef := Some paymentId;
             orders := orders (instance o st) |} st in
      let st :=
        {| now := now st; pendingOrderIds := {[paymentId]} ∪ pendingOrderIds st;
           instances := instances st; timers := timers st;
           awaiting := awaiting st; nextCall := nextCall st;
           trace := trace st |} in
      let st := observe [StoreCreateOrder call orderData] st in
      setAwaiting
        (awaiting st ++
           [{| taskCall := call; taskInstance := o; taskInput := orderData |}])
        st.

(** The store settles the request of the task at position [k]: with the new
    order, or with an error. *)
Definition storeSettles (k : nat) (result : Order + string) (st : State)
  : State :=
  match awaiting st !! k with
  | None => st
  | Some task =>
      let o := taskInstance task in
      let st := setAwaiting (removeAt k (awaiting st)) st in
      match result with
      | inl newOrder =>
          let i := instance o st in
          let st :=
            setInstance o
              {| pendingOrder := pendingOrder i;
                 processingRef := processingRef i;
                 orders := newOrder :: orders i |} st in
          let st := observe [Toast "Sucesso" "Pedido adicionado com sucesso";
                             Returned (taskCall task) newOrder] st in
          setTimers (timers st ++ [(now st + 1000, o)]) st
      | inr message => addOrder_fails (taskCall task) o message st
      end
  end.

(** The timer at position [k] runs, once its delay has passed. The global set
    is left as it is: the source keeps the payment id there on purpose. *)
Definition fire (k : nat) (st : State) : State :=
  match timers st !! k with
  | Some (deadline, o) =>
      if deadline <=? now st
      then
        let st := setTimers (removeAt k (timers st)) st in
        setInstance o
          {| pendingOrder := false;
             processingRef := None;
             orders := orders (instance o st) |} st
      else st
  | None => st
  end.

Definition tick (dt : N) (st : State) : State :=
  {| now := now st + dt; pendingOrderIds := pendingOrderIds st;
     instances := instances st; timers := timers st;
     awaiting := awaiting st; nextCall := nextCall st; trace := trace st |}.

Inductive Event :=
| CallAddOrder (o : nat) (seenPendingOrder : bool) (orderData : CreateOrderInput)
| StoreSettles (k : nat) (result : Order + string)
| Tick (dt : N)
| Fire (k : nat).

Definition step (st : State) (ev : Event) : State :=
  match ev with
  | CallAddOrder o seen orderData => addOrder o seen orderData st
  | StoreSettles k result => storeSettles k result st
  | Tick dt => tick dt st
  | Fire k => fire k st
  end.

Definition run (st : State) (evs : list Event) : State :=
  fold_left step evs st.

(** The requests that reached the store for a payment id. *)
Definition isStoreRequestFor (pid : string) (obs : Obs) : bool :=
  match obs with
  | StoreCreateOrder _ orderData =>
      bool_decide (paymentId orderData = Some pid)
  | _ => false
  end.

Definition storeRequests (pid : string) (st : State) : nat :=
  length (List.filter (isStoreRequestFor pid) (trace st)).

(** The errors with which [addOrder] turns a duplicate away. *)
Definition duplicateError (pid message : string) : Prop :=
  message = "Já existe um pedido em processamento"%string
  ∨ message = ("Pedido com ID de pagamento " +:+ pid
                 +:+ " já está em processamento")
  ∨ message = ("Pedido já está em processamento (" +:+ pid +:+ ")").

(** Every request that reached the store has its payment id registered. *)
Definition requestsRegistered (st : State) : Prop :=
  ∀ call orderData pid,
    StoreCreateOrder call orderData ∈ trace st →
    paymentId orderData = Some pid → pid ≠ ""%string →
    pid ∈ pendingOrderIds st.

(** [deleteOrder(id)] once [deleteOrderData] has settled: the orders with
    that id leave the list, or the error is shown and thrown again.
    [error] is the error of the store, if it failed. *)
Definition deleteOrder (o : nat) (orderId : string) (error : option string)
  (st : State) : State :=
  let call := nextCall st in
  let st :=
    {| now := now st; pendingOrderIds := pendingOrderIds st;
       instances := instances st; timers := timers st;
       awaiting := awaiting st; nextCall := S call; trace := trace st |} in
  match error with
  | None =>
      let i := instance o st in
      let st :=
        setInstance o
          {| pendingOrder := pendingOrder i;
             processingRef := processingRef i;
             orders :=
               List.filter (λ order, negb (bool_decide (id order = orderId)))
                 (orders i) |} st in
      observe [Toast "Sucesso" "Pedido removido com sucesso"] st
  | Some message =>
      observe [Toast "Erro" "Falha ao excluir o pedido"; Threw call message] st
  end.

(** [deleteAllOrdersByPaymentMethod(method)] once the store has settled. *)
Definition deleteAllOrdersByPaymentMethod (o : nat) (method : string)
  (error : option string) (st : State) : State :=
  let call := nextCall st in
  let st :=
    {| now := now st; pendingOrderIds := pendingOrderIds st;
       instances := instances st; timers := timers st;
       awaiting := awaiting st; nextCall := S call; trace := trace st |} in
  let label :=
    if bool_decide (method = "PIX"%string) then "PIX"%string
    else "Cartão"%string in
  match error with
  | None =>
      let i := instance o st in
      let st :=
        setInstance o
          {| pendingOrder := pendingOrder i;
             processingRef := processingRef i;
             orders :=
               List.filter
                 (λ order, negb (bool_decide (paymentMethod order = method)))
                 (orders i) |} st in
      observe [Toast "Sucesso"
                 ("Todos os pedidos via " +:+ label +:+ " foram removidos")] st
  | Some message =>
      observe [Toast "Erro" ("Falha ao excluir os pedidos via " +:+ label);
               Threw call message] st
  end.

(** [updateOrderStatus(id, status)] once [updateOrderStatusData] has settled:
    the list that it returns replaces the orders. *)
Definition updateOrderStatus (o : nat) (result : list Order + string)
  (st : State) : State :=
  let call := nextCall st in
  let st :=
    {| now := now st; pendingOrderIds := pendingOrderIds st;
       instances := instances st; timers := timers st;
       awaiting := awaiting st; nextCall := S call; trace := trace st |} in
  match result with
  | inl updatedOrders =>
      let i := instance o st in
      let st :=
        setInstance o
          {| pendingOrder := pendingOrder i;
             processingRef := processingRef i;
             orders := updatedOrders |} st in
      observe [Toast "Sucesso" "Status do pedido atualizado com sucesso"] st
  | inr message =>
      observe [Toast "Erro" "Falha ao atualizar status do pedido";
               Threw call message] st
  end.

(** [clearPendingOrderIds()]. *)
Definition clearPendingOrderIds (st : State) : State :=
  {| now := now st; pendingOrderIds := ∅;
     instances := instances st; timers := timers st;
     awaiting := awaiting st; nextCall := nextCall st; trace := trace st |}.

(** Every operation that [useOrderOperations] returns, with the events of
    [addOrder]. *)
Inductive Operation :=
| Protocol (ev : Event)
| DeleteOrder (o : nat) (orderId : string) (error : option string)
| DeleteAllOrdersByPaymentMethod (o : nat) (method : string)
    (error : option string)
| UpdateOrderStatus (o : nat) (result : list Order + string).

Definition perform (st : State) (op : Operation) : State :=
  match op with
  | Protocol ev => step st ev
  | DeleteOrder o orderId error => deleteOrder o orderId error st
  | DeleteAllOrdersByPaymentMethod o method error =>
      deleteAllOrdersByPaymentMethod o method error st
  | UpdateOrderStatus o result => updateOrderStatus o result st
  end.

Definition performAll (st : State) (ops : list Operation) : State :=
  fold_left perform ops st.

(** The store was asked at most once for the payment id, and the id is
    registered if it was asked. *)
Definition askedOnce (pid : string) (st : State) : Prop :=
  (storeRequests pid st ≤ 1)%nat
  ∧ ((0 < storeRequests pid st)%nat → pid ∈ pendingOrderIds st).

End OrderOps.

(** ** Products ([useProductOperations]) *)

Module ProductOps.

(** [Product] is declared in [types/product], which is outside the modules
    embedded here; the record has the fields that the hook reads, [id] and
    [slug] in its comparisons and [nome] in its toasts. *)
Record Product := {
  id : string;
  slug : string;
  nome : string
}.

#[global] Instance Product_eq_dec : EqDecision Product.
Proof. solve_decision. Defined.

Record Toast := {
  title : string;
  description : string;
  destructive : bool
}.

(** The list [products] that [setProducts] writes, and the toasts shown. The
    updates of [setProducts] are functions of the previous list, so each
    operation below acts on the list as it is when the API has settled. *)
Record State := {
  products : list Product;
  toasts : list Toast
}.

Definition setProducts (f : list Product → list Product) (st : State) : State :=
  {| products := f (products st); toasts := toasts st |}.

Definition toast (t : Toast) (st : State) : State :=
  {| products := products st; toasts := toasts st ++ [t] |}.

(** [addProduct(productData)] once [adicionarProdutoAPI] has settled, with a
    new product or with an error; [error] is the [message] of the error, if
    it has one. *)
Definition addProduct (result : Product + option string) (st : State) : State :=
  match result with
  | inl newProduct =>
      let st := setProducts (λ prevProducts, newProduct :: prevProducts) st in
      toast {| title := "Produto adicionado";
               description :=
                 "O produto " +:+ nome newProduct
                 +:+ " foi adicionado com sucesso.";
               destructive := false |} st
  | inr error =>
      toast {| title := "Erro ao adicionar produto";
               description :=
                 orString error "Ocorreu um erro ao adicionar o produto.";
               destructive := true |} st
  end.

(** [editProduct(id, productData)] once [editarProdutoAPI] has settled. *)
Definition editProduct (id_ : string) (result : Product + option string)
  (st : State) : State :=
  match result with
  | inl updatedProduct =>
      let st :=
        setProducts
          (λ prevProducts,
             map (λ product,
                    if bool_decide (id product = id_) then updatedProduct
                    else product) prevProducts) st in
      toast {| title := "Produto atualizado";
               description :=
                 "O produto " +:+ nome updatedProduct
                 +:+ " foi atualizado com sucesso.";
               destructive := false |} st
  | inr error =>
      toast {| title := "Erro ao atualizar produto";
               description :=
                 orString error "Ocorreu um erro ao atualizar o produto.";
               destructive := true |} st
  end.

(** [removeProduct(id)] once [removerProdutoAPI] has settled. *)
Definition removeProduct (id_ : string) (result : unit + option string)
  (st : State) : State :=
  match result with
  | inl _ =>
      let st :=
        setProducts
          (λ prevProducts,
             List.filter (λ product, negb (bool_decide (id product = id_)))
               prevProducts) st in
      toast {| title := "Produto removido";
               description := "O produto foi removido com sucesso.";
               destructive := false |} st
  | inr error =>
      toast {| title := "Erro ao remover produto";
               description :=
                 orString error "Ocorreu um erro ao remover o produto.";
               destructive := true |} st
  end.

(** [getProductById(id)] once [obterProdutoPorIdAPI] has settled: what it
    returns, and the state. *)
Definition getProductById (result : option Product + option string)
  (st : State) : option Product * State :=
  match result with
  | inl product => (product, st)
  | inr _ =>
      (None,
       toast {| title := "Erro ao buscar produto";
                description := "Ocorreu um erro ao buscar o produto por ID.";
                destructive := true |} st)
  end.

(** [getProductBySlug(slug)]: what it returns, and the slugs it asked the API
    for. [products_] and [isOffline] are the list and the flag of the render
    that made the closure; [obterProdutoPorSlugAPI] gives, for a slug, the
    product or nothing, or fails. *)
Definition getProductBySlug
  (obterProdutoPorSlugAPI : string → option Product + option string)
  (products_ : list Product) (isOffline : bool) (slug_ : string)
  : option Product * list string :=
  let localProduct :=
    match products_ with
    | [] => None
    | _ => List.find (λ p, bool_decide (slug p = slug_)) products_
    end in
  match localProduct with
  | Some localProduct => (Some localProduct, [])
  | None =>
      if isOffline then (None, [])
      else
        match obterProdutoPorSlugAPI slug_ with
        | inl product => (product, [slug_])
        | inr _ => (None, [slug_])
        end
  end.

(** An API for the examples that knows no product, and two products. *)
Definition emptyCatalogue (slug_ : string) : option Product + option string :=
  inl None.

Definition curso : Product :=
  {| id := "prod_1"; slug := "curso"; nome := "Curso" |}.

Definition ebook : Product :=
  {| id := "prod_2"; slug := "ebook"; nome := "E-book" |}.

End ProductOps.

(** ** Slugs ([slugUtils]) *)

Module SlugUtils.

(** The class [\w]: the ASCII letters, the digits and the underscore. *)
Definition isUpperCase (c : N) : bool := (65 <=? c) && (c <=? 90).

Definition isLowerCase (c : N) : bool := (97 <=? c) && (c <=? 122).

Definition isWordChar (c : N) : bool :=
  isDigit c || isUpperCase c || (c =? 95) || isLowerCase c.

(** The class [[\w-]]. *)
Definition isSlugChar (c : N) : bool := isWordChar c || (c =? 45).

(** The class [[\u0300-\u036f]], the combining marks. *)
Definition isCombiningMark (c : N) : bool := (768 <=? c) && (c <=? 879).

(** [s.replace(/\s+/g, '-')]: every maximal run of white space becomes one
    hyphen. [inRun] tells that the code unit before was white space. *)
Fixpoint replaceWhiteSpaceRuns (inRun : bool) (s : jsstring) : jsstring :=
  match s with
  | [] => []
  | c :: rest =>
      if isWhiteSpace c
      then if inRun then replaceWhiteSpaceRuns true rest
           else 45 :: replaceWhiteSpaceRuns true rest
      else c :: replaceWhiteSpaceRuns false rest
  end.

(** [s.replace(/[^\w-]+/g, '')]: the code units of the class stay. *)
Definition removeNonSlugChars (s : jsstring) : jsstring :=
  List.filter isSlugChar s.

Definition startsWithHyphen (s : jsstring) : bool :=
  match s with c :: _ => c =? 45 | [] => false end.

(** [s.replace(/--+/g, '-')]: every run of two hyphens or more becomes one
    hyphen, so a hyphen that another hyphen follows is dropped. *)
Fixpoint replaceHyphenRuns (s : jsstring) : jsstring :=
  match s with
  | [] => []
  | c :: rest =>
      if (c =? 45) && startsWithHyphen rest
      then replaceHyphenRuns rest
      else c :: replaceHyphenRuns rest
  end.

(** The text has two hyphens in a row. *)
Fixpoint hasDoubleHyphen (s : jsstring) : bool :=
  match s with
  | [] => false
  | c :: rest => ((c =? 45) && startsWithHyphen rest) || hasDoubleHyphen rest
  end.

(** [counter++] on a JavaScript number: integers are exact up to 2^53, where
    adding one gives the same number again. *)
Definition increment (counter : N) : N :=
  if counter <? 9007199254740992 then counter + 1 else counter.

(** The slugs that [generateSlug] tries, in order: the base slug, then the
    base slug with "-1", "-2" and so on. *)
Definition candidate (baseSlug : jsstring) (k : N) : jsstring :=
  if k =? 0 then baseSlug else baseSlug ++ js "-" ++ js (pretty k).

Section Slugify.

(** [normalize('NFD')] and [toLowerCase] follow the Unicode tables of the
    engine; they are taken as given. *)
Variable normalizeNFD : jsstring → jsstring.
Variable toLowerCase : jsstring → jsstring.

Definition slugify (text : jsstring) : jsstring :=
  let s := normalizeNFD text in
  let s := List.filter (λ c, negb (isCombiningMark c)) s in
  let s := toLowerCase s in
  let s := trim s in
  let s := replaceWhiteSpaceRuns false s in
  let s := removeNonSlugChars s in
  replaceHyphenRuns s.

(** The query of [generateSlug] on the table of products: whether it comes
    back with [data] for the slug. The table is taken not to change while
    the loop runs. *)
Variable slugExists : jsstring → bool.

(** The loop of [generateSlug]; it ends when a query finds no product, and
    [fuel] bounds the number of queries. *)
Fixpoint generateSlug_loop (fuel : nat) (baseSlug slug : jsstring)
  (counter : N) : option jsstring :=
  match fuel with
  | O => None
  | S fuel =>
      if negb (slugExists slug) then Some slug
      else generateSlug_loop fuel baseSlug
             (baseSlug ++ js "-" ++ js (pretty counter)) (increment counter)
  end.

Definition generateSlug (fuel : nat) (name : jsstring) : option jsstring :=
  let baseSlug := slugify name in
  generateSlug_loop fuel baseSlug baseSlug 1.

End Slugify.

(** Stand-ins for the examples, right on ASCII texts: a normalisation that
    changes nothing, and a lower-casing of the letters A to Z. *)
Definition asciiNFD (s : jsstring) : jsstring := s.

Definition asciiLowerCase (s : jsstring) : jsstring :=
  map (λ c, if isUpperCase c then c + 32 else c) s.

(** A table for the examples, with two slugs. *)
Definition twoSlugs (slug : jsstring) : bool :=
  bool_decide (slug ∈ [js "curso"; js "curso-1"]).

End SlugUtils.

(** ** The payment wrapper ([usePaymentWrapper]) *)

Module PaymentWrapper.

(** One mounted [usePaymentWrapper]. *)
Record Instance := {
  isProcessingRef : bool;
  localProcessedPaymentIds : gset string
}.

Definition mounted : Instance :=
  {| isProcessingRef := false; localProcessedPaymentIds := ∅ |}.

(** A call of [handleOrderCreation] that awaits [createOrder]. *)
Record Task := {
  taskCall : nat;
  taskInstance : nat;
  taskPaymentId : string
}.

Inductive Obs :=
| Threw (call : nat) (message : string)
| CreateOrder (call : nat) (safePaymentId : string) (normalizedStatus : Status)
| Returned (call : nat) (order : Order).

#[global] Instance Obs_eq_dec : EqDecision Obs.
Proof. solve_decision. Defined.

Record State := {
  now : N;
  processedPaymentIds : gset string;
  instances : gmap nat Instance;
  timers : list (N * nat);
  awaiting : list Task;
  nextCall : nat;
  trace : list Obs
}.

Definition initial : State :=
  {| now := 0; processedPaymentIds := ∅; instances := ∅; timers := [];
     awaiting := []; nextCall := 0; trace := [] |}.

Definition instance (w : nat) (st : State) : Instance :=
  default mounted (instances st !! w).

Definition setInstance (w : nat) (i : Instance) (st : State) : State :=
  {| now := now st; processedPaymentIds := processedPaymentIds st;
     instances := <[w := i]> (instances st); timers := timers st;
     awaiting := awaiting st; nextCall := nextCall st; trace := trace st |}.

Definition observe (obs : list Obs) (st : State) : State :=
  {| now := now st; processedPaymentIds := processedPaymentIds st;
     instances := instances st; timers := timers st;
     awaiting := awaiting st; nextCall := nextCall st;
     trace := trace st ++ obs |}.

Definition setTimers (ts : list (N * nat)) (st : State) : State :=
  {| now := now st; processedPaymentIds := processedPaymentIds st;
     instances := instances st; timers := ts;
     awaiting := awaiting st; nextCall := nextCall st; trace := trace st |}.

Definition setAwaiting (ts : list Task) (st : State) : State :=
  {| now := now st; processedPaymentIds := processedPaymentIds st;
     instances := instances st; timers := timers st;
     awaiting := ts; nextCall := nextCall st; trace := trace st |}.

(** [status.toLowerCase() === 'confirmed' ? 'confirmed' : 'pending'] on the
    two values that the type of [status] has. *)
Definition normalize (status : Status) : Status :=
  match status with confirmed => confirmed | pending => pending end.

(** [handleOrderCreation] up to its [await] of [createOrder]. Both checks
    stand before the [try]: a call that they turn away sets no timer. *)
Definition handleOrderCreation (w : nat) (paymentId : string)
  (status : Status) (st : State) : State :=
  let call := nextCall st in
  let st :=
    {| now := now st; processedPaymentIds := processedPaymentIds st;
       instances := instances st; timers := timers st;
       awaiting := awaiting st; nextCall := S call; trace := trace st |} in
  let safePaymentId :=
    orString (Some paymentId) ("payment_" +:+ pretty (now st)) in
  if bool_decide (safePaymentId ∈ processedPaymentIds st)
     || bool_decide (safePaymentId ∈ localProcessedPaymentIds (instance w st))
  then observe [Threw call ("A payment with ID " +:+ safePaymentId
                              +:+ " is already being processed")] st
  else if isProcessingRef (instance w st)
  then observe [Threw call "Payment processing in progress, please wait"] st
  else
    let st :=
      setInstance w
        {| isProcessingRef := true;
           localProcessedPaymentIds :=
             {[safePaymentId]} ∪ localProcessedPaymentIds (instance w st) |}
        st in
    let st :=
      {| now := now st;
         processedPaymentIds := {[safePaymentId]} ∪ processedPaymentIds st;
         instances := instances st; timers := timers st;
         awaiting := awaiting st; nextCall := nextCall st;
         trace := trace st |} in
    let st := observe [CreateOrder call safePaymentId (normalize status)] st in
    setAwaiting
      (awaiting st ++
         [{| taskCall := call; taskInstance := w;
             taskPaymentId := safePaymentId |}])
      st.

(** [createOrder] settles for the task at position [k]. The [finally] block
    sets the timer of one second that lowers the flag. *)
Definition createOrderSettles (k : nat) (result : Order + string) (st : State)
  : State :=
  match awaiting st !! k with
  | None => st
  | Some task =>
      let st := setAwaiting (removeAt k (awaiting st)) st in
      let st :=
        match result with
        | inl order => observe [Returned (taskCall task) order] st
        | inr message => observe [Threw (taskCall task) message] st
        end in
      setTimers (timers st ++ [(now st + 1000, taskInstance task)]) st
  end.

(** The timer at position [k] runs: the flag is lowered, the payment ids
    stay in both sets. *)
Definition fire (k : nat) (st : State) : State :=
  match timers st !! k with
  | Some (deadline, w) =>
      if deadline <=? now st
      then
        let st := setTimers (removeAt k (timers st)) st in
        setInstance w
          {| isProcessingRef := false;
             localProcessedPaymentIds :=
               localProcessedPaymentIds (instance w st) |} st
      else st
  | None => st
  end.

Definition tick (dt : N) (st : State) : State :=
  {| now := now st + dt; processedPaymentIds := processedPaymentIds st;
     instances := instances st; timers := timers st;
     awaiting := awaiting st; nextCall := nextCall st; trace := trace st |}.

Inductive Event :=
| CallHandleOrderCreation (w : nat) (paymentId : string) (status : Status)
| CreateOrderSettles (k : nat) (result : Order + string)
| Tick (dt : N)
| Fire (k : nat).

Definition step (st : State) (ev : Event) : State :=
  match ev with
  | CallHandleOrderCreation w paymentId status =>
      handleOrderCreation w paymentId status st
  | CreateOrderSettles k result => createOrderSettles k result st
  | Tick dt => tick dt st
  | Fire k => fire k st
  end.

Definition run (st : State) (evs : list Event) : State :=
  fold_left step evs st.

(** The calls of instance [w] that await [createOrder], and its timers that
    have not run yet. *)
Definition tasksOf (w : nat) (st : State) : nat :=
  length (List.filter (λ t, bool_decide (taskInstance t = w)) (awaiting st)).

Definition timersOf (w : nat) (st : State) : nat :=
  length (List.filter (λ t : N * nat, bool_decide (t.2 = w)) (timers st)).

(** The errors that [handleOrderCreation] throws before its [try]. *)
Definition refusal (safePaymentId message : string) : Prop :=
  message = ("A payment with ID " +:+ safePaymentId
               +:+ " is already being processed")
  ∨ message = "Payment processing in progress, please wait"%string.

(** Every instance has at most one call or timer pending, and its flag is
    raised while it has one. *)
Definition singleFlight (st : State) : Prop :=
  ∀ w, (tasksOf w st + timersOf w st ≤ 1)%nat
       ∧ ((tasksOf w st + timersOf w st = 1)%nat →
          isProcessingRef (instance w st) = true).

(** A call of [handleOrderCreation] of instance [w] is in flight. *)
Definition inFlight (w : nat) (st : State) : Prop :=
  ∃ task, task ∈ awaiting st ∧ taskInstance task = w.

Definition isCreateOrder (obs : Obs) : bool :=
  match obs with CreateOrder _ _ _ => true | _ => false end.

(** How often [createOrder] was called. *)
Definition createOrderCalls (st : State) : nat :=
  length (List.filter isCreateOrder (trace st)).

Definition isCreateOrderFor (pid : string) (obs : Obs) : bool :=
  match obs with
  | CreateOrder _ safePaymentId _ => bool_decide (safePaymentId = pid)
  | _ => false
  end.

(** How often [createOrder] was called for a payment id. *)
Definition createOrderCallsFor (pid : string) (st : State) : nat :=
  length (List.filter (isCreateOrderFor pid) (trace st)).

(** Every payment id for which [createOrder] was called is registered. *)
Definition callsRegistered (st : State) : Prop :=
  ∀ call pid status,
    CreateOrder call pid status ∈ trace st → pid ∈ processedPaymentIds st.

(** [clearGlobalProcessedPayments()]: the global set is emptied. *)
Definition clearGlobalProcessedPayments (st : State) : State :=
  {| now := now st; processedPaymentIds := ∅;
     instances := instances st; timers := timers st;
     awaiting := awaiting st; nextCall := nextCall st; trace := trace st |}.

(** [clearProcessedPayments()] of instance [w]: the global set and the set
    of the instance are emptied. *)
Definition clearProcessedPayments (w : nat) (st : State) : State :=
  setInstance w
    {| isProcessingRef := isProcessingRef (instance w st);
       localProcessedPaymentIds := ∅ |}
    (clearGlobalProcessedPayments st).

End PaymentWrapper.

(** ** Order creation at checkout ([useCheckoutContainerOrder]) *)

Module FormState.
Record t := {
  fullName : jsstring;
  email : jsstring;
  cpf : jsstring;
  phone : jsstring;
  street : jsstring;
  number : jsstring;
  complement : jsstring;
  neighborhood : jsstring;
  city : jsstring;
  state : jsstring;
  cep : jsstring
}.
End FormState.

Module Address.
Record t := {
  street : jsstring;
  number : jsstring;
  complement : jsstring;
  neighborhood : jsstring;
  city : jsstring;
  state : jsstring;
  postalCode : jsstring
}.
End Address.

Module CustomerData.
Record t := {
  name : jsstring;
  email : jsstring;
  cpf : jsstring;
  phone : jsstring;
  address : option Address.t
}.
End CustomerData.

Module CheckoutOrder.

Definition prepareCustomerData (formState : FormState.t) : CustomerData.t :=
  {| CustomerData.name := FormState.fullName formState;
     CustomerData.email := FormState.email formState;
     CustomerData.cpf := FormState.cpf formState;
     CustomerData.phone := FormState.phone formState;
     CustomerData.address :=
       if truthy (FormState.street formState)
       then Some
         {| Address.street := FormState.street formState;
            Address.number := FormState.number formState;
            Address.complement := FormState.complement formState;
            Address.neighborhood := FormState.neighborhood formState;
            Address.city := FormState.city formState;
            Address.state := FormState.state formState;
            Address.postalCode := removeNonDigits (FormState.cep formState) |}
       else None |}.

(** Validators for the examples: one that accepts every customer, one that
    turns every customer away. *)
Definition acceptAll (customerData : CustomerData.t) : option string := None.

Definition rejectAll (customerData : CustomerData.t) : option string :=
  Some "Nome é obrigatório"%string.

(** A form for the examples. *)
Definition filledForm : FormState.t :=
  {| FormState.fullName := js "Ana Silva";
     FormState.email := js "ana@example.com";
     FormState.cpf := js "123.456.789-09";
     FormState.phone := js "(11) 99999-0000";
     FormState.street := js "Av. Paulista";
     FormState.number := js "1000";
     FormState.complement := js "";
     FormState.neighborhood := js "Bela Vista";
     FormState.city := js "Sao Paulo";
     FormState.state := js "SP";
     FormState.cep := js "01310-100" |}.

(** One mounted [useCheckoutContainerOrder]. *)
Record Instance := {
  isProcessing : bool;
  processingRef : bool;
  orderCreatedRef : option string
}.

Definition mounted : Instance :=
  {| isProcessing := false; processingRef := false; orderCreatedRef := None |}.

(** The timers: the clean-up of two seconds that the [finally] block of
    [createOrder] sets, and the safety timer of thirty seconds that the
    effect on [isProcessing] sets. *)
Inductive Timer :=
| CleanUp (h : nat) (paymentId : string)
| SafetyTimeout (h : nat).

#[global] Instance Timer_eq_dec : EqDecision Timer.
Proof. solve_decision. Defined.

(** A call of [createOrder] that awaits [createOrderService]. *)
Record Task := {
  taskCall : nat;
  taskInstance : nat;
  taskPaymentId : string
}.

Inductive Obs :=
| Threw (call : nat) (message : string)
| Toast (title description : string)
| CreateOrderService (call : nat) (customerData : CustomerData.t)
    (status : Status) (paymentId : string)
| HandlePayment (orderId : string) (status : Status) (paymentMethod : string)
| Returned (call : nat) (order : Order).

Record State := {
  now : N;
  globalPaymentsInProgress : gmap string bool;
  instances : gmap nat Instance;
  timers : list (N * Timer);
  awaiting : list Task;
  nextCall : nat;
  trace : list Obs
}.

Definition initial : State :=
  {| now := 0; globalPaymentsInProgress := ∅; instances := ∅; timers := [];
     awaiting := []; nextCall := 0; trace := [] |}.

Definition instance (h : nat) (st : State) : Instance :=
  default mounted (instances st !! h).

Definition setInstance (h : nat) (i : Instance) (st : State) : State :=
  {| now := now st; globalPaymentsInProgress := globalPaymentsInProgress st;
     instances := <[h := i]> (instances st); timers := timers st;
     awaiting := awaiting st; nextCall := nextCall st; trace := trace st |}.

Definition setGlobal (m : gmap string bool) (st : State) : State :=
  {| now := now st; globalPaymentsInProgress := m;
     instances := instances st; timers := timers st;
     awaiting := awaiting st; nextCall := nextCall st; trace := trace st |}.

Definition observe (obs : list Obs) (st : State) : State :=
  {| now := now st; globalPaymentsInProgress := globalPaymentsInProgress st;
     instances := instances st; timers := timers st;
     awaiting := awaiting st; nextCall := nextCall st;
     trace := trace st ++ obs |}.

Definition setTimers (ts : list (N * Timer)) (st : State) : State :=
  {| now := now st; globalPaymentsInProgress := globalPaymentsInProgress st;
     instances := instances st; timers := ts;
     awaiting := awaiting st; nextCall := nextCall st; trace := trace st |}.

Definition setAwaiting (ts : list Task) (st : State) : State :=
  {| now := now st; globalPaymentsInProgress := globalPaymentsInProgress st;
     instances := instances st; timers := timers st;
     awaiting := ts; nextCall := nextCall st; trace := trace st |}.

(** [setIsProcessing(b)] with the effect that depends on [isProcessing]: when
    the state turns true the safety timer is set, when it turns false the
    clean-up of the effect clears that timer; a value that does not change
    the state runs no effect. *)
Definition setIsProcessing (h : nat) (b : bool) (st : State) : State :=
  let i := instance h st in
  if bool_decide (isProcessing i = b) then st
  else
    let st :=
      setInstance h
        {| isProcessing := b;
           processingRef := processingRef i;
           orderCreatedRef := orderCreatedRef i |} st in
    if b
    then setTimers (timers st ++ [(now st + 30000, SafetyTimeout h)]) st
    else setTimers
           (List.filter (fun t => negb (bool_decide (t.2 = SafetyTimeout h)))
              (timers st)) st.

Definition setProcessingRef (h : nat) (b : bool) (st : State) : State :=
  let i := instance h st in
  setInstance h
    {| isProcessing := isProcessing i;
       processingRef := b;
       orderCreatedRef := orderCreatedRef i |} st.

Definition setOrderCreatedRef (h : nat) (p : string) (st : State) : State :=
  let i := instance h st in
  setInstance h
    {| isProcessing := isProcessing i;
       processingRef := processingRef i;
       orderCreatedRef := Some p |} st.

(** [catch] and [finally] of [createOrder]: the toast, the error thrown
    again, and the clean-up timer of two seconds. *)
Definition createOrder_fails (call h : nat) (paymentId message : string)
  (st : State) : State :=
  let st :=
    observe
      [Toast "Order error"
         "It wasn't possible to complete the order. Please try again.";
       Threw call message] st in
  setTimers (timers st ++ [(now st + 2000, CleanUp h paymentId)]) st.

(** The state once a call of [createOrder] has thrown at a duplicate check. *)
Definition refused (h : nat) (paymentId message : string) (st : State)
  : State :=
  createOrder_fails (nextCall st) h paymentId message
    {| now := now st; globalPaymentsInProgress := globalPaymentsInProgress st;
       instances := instances st; timers := timers st;
       awaiting := awaiting st; nextCall := S (nextCall st);
       trace := trace st |}.

Section Hook.

(** The validator of the customer data lies outside the modules embedded here:
    it returns the message of the first failing field, or nothing. *)
Variable validateCustomerData : CustomerData.t -> option string.

(** [createOrder] up to its [await] of [createOrderService].
    [seenIsProcessing] is the state [isProcessing] and [formState] the form
    as the closure sees them. *)
Definition createOrder (h : nat) (seenIsProcessing : bool)
  (formState : FormState.t) (paymentId : string) (status : Status)
  (st : State) : State :=
  let call := nextCall st in
  let st :=
    {| now := now st; globalPaymentsInProgress := globalPaymentsInProgress st;
       instances := instances st; timers := timers st;
       awaiting := awaiting st; nextCall := S call; trace := trace st |} in
  if seenIsProcessing || processingRef (instance h st)
  then createOrder_fails call h paymentId
         "Processing in progress. Please wait." st
  else if bool_decide (orderCreatedRef (instance h st) = Some paymentId)
  then createOrder_fails call h paymentId
         "Order already created with this payment ID" st
  else if bool_decide (is_Some (globalPaymentsInProgress st !! paymentId))
  then createOrder_fails call h paymentId
         "This payment is already being processed" st
  else
    let st := setIsProcessing h true st in
    let st := setProcessingRef h true st in
    let st := setGlobal (<[paymentId := true]> (globalPaymentsInProgress st)) st in
    let customerData := prepareCustomerData formState in
    let validationError := validateCustomerData customerData in
    match truthyText validationError with
    | Some message =>
        let st := observe [Toast "Validation error" message] st in
        createOrder_fails call h paymentId message st
    | None =>
        let st :=
          observe [CreateOrderService call customerData status paymentId] st in
        setAwaiting
          (awaiting st ++
             [{| taskCall := call; taskInstance := h;
                 taskPaymentId := paymentId |}])
          st
    end.

End Hook.

(** [createOrderService] settles for the task at position [k]. *)
Definition serviceSettles (k : nat) (result : Order + string) (st : State)
  : State :=
  match awaiting st !! k with
  | None => st
  | Some task =>
      let h := taskInstance task in
      let st := setAwaiting (removeAt k (awaiting st)) st in
      match result with
      | inl newOrder =>
          let st := setOrderCreatedRef h (taskPaymentId task) st in
          let st :=
            observe
              [HandlePayment (id newOrder)
                 (if bool_decide (paymentStatus newOrder = "PAID"%string)
                  then confirmed else pending)
                 (paymentMethod newOrder);
               Returned (taskCall task) newOrder] st in
          setTimers
            (timers st ++ [(now st + 2000, CleanUp h (taskPaymentId task))]) st
      | inr message =>
          createOrder_fails (taskCall task) h (taskPaymentId task) message st
      end
  end.

(** The timer at position [k] runs, once its delay has passed. *)
Definition fire (k : nat) (st : State) : State :=
  match timers st !! k with
  | Some (deadline, timer) =>
      if deadline <=? now st
      then
        let st := setTimers (removeAt k (timers st)) st in
        match timer with
        | CleanUp h paymentId =>
            let st := setIsProcessing h false st in
            let st := setProcessingRef h false st in
            if bool_decide (paymentId ≠ ""%string)
            then setGlobal (delete paymentId (globalPaymentsInProgress st)) st
            else st
        | SafetyTimeout h =>
            let st := setIsProcessing h false st in
            setProcessingRef h false st
        end
      else st
  | None => st
  end.

Definition tick (dt : N) (st : State) : State :=
  {| now := now st + dt; globalPaymentsInProgress := globalPaymentsInProgress st;
     instances := instances st; timers := timers st;
     awaiting := awaiting st; nextCall := nextCall st; trace := trace st |}.

Inductive Event :=
| CallCreateOrder (h : nat) (seenIsProcessing : bool) (formState : FormState.t)
    (paymentId : string) (status : Status)
| ServiceSettles (k : nat) (result : Order + string)
| Tick (dt : N)
| Fire (k : nat).

(** The event runs the clean-up of an attempt for the payment id. *)
Definition releases (paymentId : string) (st : State) (ev : Event) : bool :=
  match ev with
  | Fire k =>
      match timers st !! k with
      | Some (_, CleanUp _ p) => bool_decide (p = paymentId)
      | _ => false
      end
  | _ => false
  end.

Section Run.

Variable validateCustomerData : CustomerData.t -> option string.

Definition step (st : State) (ev : Event) : State :=
  match ev with
  | CallCreateOrder h seen formState paymentId status =>
      createOrder validateCustomerData h seen formState paymentId status st
  | ServiceSettles k result => serviceSettles k result st
  | Tick dt => tick dt st
  | Fire k => fire k st
  end.

Definition run (st : State) (evs : list Event) : State :=
  fold_left step evs st.

(** No event of the run is the clean-up of an attempt for the payment id:
    the calls of the run are interleaved with the attempt that holds it. *)
Fixpoint quiet (paymentId : string) (st : State) (evs : list Event) : bool :=
  match evs with
  | [] => true
  | ev :: evs =>
      negb (releases paymentId st ev) && quiet paymentId (step st ev) evs
  end.

End Run.

(** The errors with which [createOrder] turns a duplicate away. *)
Definition duplicateError (message : string) : Prop :=
  message = "Processing in progress. Please wait."%string
  ∨ message = "Order already created with this payment ID"%string
  ∨ message = "This payment is already being processed"%string.

Definition isServiceCall (obs : Obs) : bool :=
  match obs with CreateOrderService _ _ _ _ => true | _ => false end.

(** How often [createOrderService] was called. *)
Definition serviceCalls (st : State) : nat :=
  length (List.filter isServiceCall (trace st)).

(** [clearGlobalPaymentTracking()]. *)
Definition clearGlobalPaymentTracking (st : State) : State :=
  setGlobal ∅ st.

End CheckoutOrder.

(** * Properties *)

(** ** Card validation *)

Section CardValidationFacts.
Import CardValidation.

Lemma truthy_false (s : jsstring) : truthy s = false ↔ s = [].
Proof. destruct s; simpl; split; congruence. Qed.

Lemma parseInt_empty : parseInt [] = None.
Proof. reflexivity. Qed.

Lemma errorsOf_fails k n c m y v :
  fieldFails k n c m y v = false → errorsOf k n c m y v = [].
Proof.
  destruct k; simpl; intros H; rewrite ?H; try reflexivity.
  - unfold expiryMonthFails in H.
    apply orb_false_iff in H as [H _]. by rewrite H.
  - unfold expiryYearFails in H.
    apply orb_false_iff in H as [H _]. by rewrite H.
  - unfold cvvFails in H.
    apply orb_false_iff in H as [H _]. by rewrite H.
Qed.

Lemma errorsOf_message k n c m y v :
  fieldFails k n c m y v = true →
  ∃ message, errorsOf k n c m y v = [(k, message)] ∧ messageOf k message.
Proof.
  destruct k; simpl; intros H; rewrite ?H.
  - eauto.
  - eauto.
  - destruct (negb (truthy m)); eauto.
  - destruct (negb (truthy y)); eauto.
  - destruct (negb (truthy v) || negb (N.of_nat (length v) =? 3)); eauto.
Qed.

(** [validateCardForm] collects the errors of the five checks in the order
    of the checks. *)
Lemma validateCardForm_errors n c m y v :
  validateCardForm n c m y v =
    let errors :=
      errorsOf CardName n c m y v ++ errorsOf CardNumber n c m y v
      ++ errorsOf ExpiryMonth n c m y v ++ errorsOf ExpiryYear n c m y v
      ++ errorsOf Cvv n c m y v in
    match errors with [] => None | _ => Some errors end.
Proof.
  unfold validateCardForm, errorsOf, cardNameFails, cardNumberFails,
    expiryMonthFails, expiryYearFails, cvvFails.
  destruct (negb (truthy (trim n)));
    destruct (N.of_nat (length (removeWhiteSpace c)) <? 16);
    destruct (negb (truthy m));
    destruct (negb (truthy y));
    destruct (negb (truthy v));
    destruct (N.of_nat (length v) =? 3);
    destruct (N.of_nat (length y) =? 2);
    (destruct (parseInt m) as [month|];
       [destruct (month <? 1)%Z; destruct (month >? 12)%Z|]);
    simpl; try reflexivity;
    destruct (decide (v = js "000"));
    rewrite ?bool_decide_eq_true_2, ?bool_decide_eq_false_2 by done;
    reflexivity.
Qed.

Lemma validateCardForm_None n c m y v :
  validateCardForm n c m y v = None ↔
  ∀ k, fieldFails k n c m y v = false.
Proof.
  rewrite validateCardForm_errors. cbv zeta. split.
  - intros H k.
    destruct (fieldFails k n c m y v) eqn:E; [|done].
    apply errorsOf_message in E as (msg & E & _).
    match type of H with
    | match ?l with _ => _ end = _ => assert (l = []) as Hnil
        by (destruct l; [done | discriminate])
    end.
    repeat (apply app_eq_nil in Hnil as [? Hnil]).
    destruct k; congruence.
  - intros H.
    rewrite !errorsOf_fails by apply H. reflexivity.
Qed.

End CardValidationFacts.

Section CardValidationClaims.
Import CardValidation.

(** C4, as amended. [validateCardForm] accepts a card exactly when the name
    has a character that is not white space, the card number has at least 16
    code units once white space is stripped (there is no upper bound and no
    test that they are digits), the month parses to an integer from 1 to 12,
    the year has exactly 2 code units, and the CVV has exactly 3 code units
    (digits or not) and is not "000". *)
Theorem validateCardForm_accepts_iff (n c m y v : jsstring) :
  validateCardForm n c m y v = None ↔
    trim n ≠ []
    ∧ (16 ≤ length (removeWhiteSpace c))%nat
    ∧ (∃ month, parseInt m = Some month ∧ (1 ≤ month ≤ 12)%Z)
    ∧ length y = 2%nat
    ∧ length v = 3%nat
    ∧ v ≠ js "000".
Proof.
  rewrite validateCardForm_None. split.
  - intros H.
    pose proof (H CardName) as Hn. pose proof (H CardNumber) as Hc.
    pose proof (H ExpiryMonth) as Hm. pose proof (H ExpiryYear) as Hy.
    pose proof (H Cvv) as Hv. clear H. simpl in *.
    unfold cardNameFails, cardNumberFails, expiryMonthFails, expiryYearFails,
      cvvFails in *.
    apply negb_false_iff in Hn.
    apply N.ltb_ge in Hc.
    apply orb_false_iff in Hm as [_ Hm].
    apply orb_false_iff in Hy as [_ Hy]. apply negb_false_iff, N.eqb_eq in Hy.
    apply orb_false_iff in Hv as [Hv Hv0].
    apply orb_false_iff in Hv as [_ Hv]. apply negb_false_iff, N.eqb_eq in Hv.
    apply bool_decide_eq_false in Hv0.
    repeat split; try lia; try done.
    + intros E. rewrite E in Hn. discriminate.
    + destruct (parseInt m) as [month|]; [|discriminate].
      exists month. split; [done|].
      apply orb_false_iff in Hm as [H1 H2]. lia.
  - intros (Hn & Hc & (month & Hm & Hr) & Hy & Hv & Hv0) k.
    destruct k; simpl;
      unfold cardNameFails, cardNumberFails, expiryMonthFails,
        expiryYearFails, cvvFails.
    + destruct (trim n); [done | reflexivity].
    + apply N.ltb_ge. lia.
    + rewrite Hm. destruct m; [by rewrite parseInt_empty in Hm|]. simpl.
      apply orb_false_iff. split; lia.
    + destruct y; [done|]. rewrite Hy. reflexivity.
    + destruct v; [done|]. rewrite Hv. simpl.
      by apply bool_decide_eq_false.
Qed.

(** C4, as stated, fails: a card number of 20 digits, a card number of 16
    letters and a CVV with a letter are accepted although the stated rule
    rejects them, and a name of one space is rejected although the stated
    rule accepts it. *)
Lemma validateCardForm_differs_from_stated_rule :
  (validateCardForm (js "ANA SILVA") (js "41111111111111111111")
     (js "12") (js "30") (js "123") = None
   ∧ specAccepts (js "ANA SILVA") (js "41111111111111111111")
       (js "12") (js "30") (js "123") = false)
  ∧ (validateCardForm (js "ANA SILVA") (js "abcdabcdabcdabcd")
       (js "12") (js "30") (js "123") = None
     ∧ specAccepts (js "ANA SILVA") (js "abcdabcdabcdabcd")
         (js "12") (js "30") (js "123") = false)
  ∧ (validateCardForm (js "ANA SILVA") (js "4111 1111 1111 1111")
       (js "12") (js "30") (js "12a") = None
     ∧ specAccepts (js "ANA SILVA") (js "4111 1111 1111 1111")
         (js "12") (js "30") (js "12a") = false)
  ∧ (validateCardForm (js " ") (js "4111 1111 1111 1111")
       (js "12") (js "30") (js "123")
       = Some [(CardName, "Nome no cartão é obrigatório"%string)]
     ∧ specAccepts (js " ") (js "4111 1111 1111 1111")
         (js "12") (js "30") (js "123") = true).
Proof. repeat split; reflexivity. Qed.

End CardValidationClaims.

(** ** Masking of the card number *)

Section MaskCardNumber.
Import CardValidation.

Lemma followedByFourDigits_digitAt (rest : jsstring) :
  followedByFourDigits rest =
    digitAt rest 0 && digitAt rest 1 && digitAt rest 2 && digitAt rest 3.
Proof.
  unfold digitAt.
  destruct rest as [|a [|b [|c [|d rest]]]]; simpl;
    rewrite ?andb_false_r; reflexivity.
Qed.

Lemma countDigits_cons (c : N) (s : jsstring) :
  countDigits (c :: s) = ((if isDigit c then 1 else 0) + countDigits s)%nat.
Proof. unfold countDigits. simpl. by destruct (isDigit c). Qed.

Lemma followedByFourDigits_count (rest : jsstring) :
  followedByFourDigits rest = true → (4 ≤ countDigits rest)%nat.
Proof.
  destruct rest as [|a [|b [|c [|d rest]]]]; simpl; try discriminate.
  intros H.
  apply andb_true_iff in H as [H Hd]. apply andb_true_iff in H as [H Hc].
  apply andb_true_iff in H as [Ha Hb].
  rewrite !countDigits_cons, Ha, Hb, Hc, Hd. lia.
Qed.

Lemma maskCardNumber_lookup (s : jsstring) (i : nat) :
  maskCardNumber s !! i =
    (λ c, if isDigit c && followedByFourDigits (drop (S i) s) then 42 else c)
      <$> s !! i.
Proof.
  revert i. induction s as [|c s IH]; intros [|i]; simpl; try reflexivity.
  apply IH.
Qed.

Lemma digitAt_drop (s : jsstring) (i k : nat) :
  digitAt (drop i s) k = digitAt s (i + k).
Proof. unfold digitAt. by rewrite lookup_drop. Qed.

Lemma followedByFourDigits_all (s : jsstring) :
  forallb isDigit s = true → followedByFourDigits s = (4 <=? length s)%nat.
Proof.
  destruct s as [|a [|b [|c [|d rest]]]]; simpl; try reflexivity;
    rewrite ?andb_true_r; try (by intros ->).
  intros H.
  apply andb_true_iff in H as [-> H]. apply andb_true_iff in H as [-> H].
  apply andb_true_iff in H as [-> H]. by apply andb_true_iff in H as [-> _].
Qed.

Lemma maskCardNumber_all_digits (s : jsstring) :
  forallb isDigit s = true →
  maskCardNumber s
  = replicate (length s - 4) 42 ++ drop (length s - 4) s.
Proof.
  induction s as [|c s IH]; [reflexivity|].
  cbn [forallb]. intros H. apply andb_true_iff in H as [Hc Hs].
  cbn [maskCardNumber length].
  rewrite Hc, (followedByFourDigits_all s Hs), (IH Hs). cbn [andb].
  destruct (4 <=? length s)%nat eqn:E.
  - apply Nat.leb_le in E.
    replace (S (length s) - 4)%nat with (S (length s - 4)) by lia.
    reflexivity.
  - apply Nat.leb_gt in E.
    replace (S (length s) - 4)%nat with 0%nat by lia.
    replace (length s - 4)%nat with 0%nat by lia.
    reflexivity.
Qed.

(** C10, as amended. [maskCardNumber] keeps the length and writes '*' (code
    unit 42) at exactly the positions that hold a digit whose next four code
    units are digits; every other code unit stays in place. So no code unit
    that is not a digit changes, a digit with fewer than four digits after
    it is kept (the last four digits of the text among them), and a text
    with four digits or fewer comes back unchanged. In a text of digits
    only, the masked ones are all but the last four. *)
Theorem maskCardNumber_masks_digits_followed_by_four (s : jsstring) :
  length (maskCardNumber s) = length s
  ∧ (∀ i c, s !! i = Some c →
       maskCardNumber s !! i =
         Some (if isDigit c && digitAt s (i + 1) && digitAt s (i + 2)
                  && digitAt s (i + 3) && digitAt s (i + 4)
               then 42 else c))
  ∧ (∀ i c, s !! i = Some c → isDigit c = false →
       maskCardNumber s !! i = Some c)
  ∧ (∀ i c, s !! i = Some c → (countDigits (drop (S i) s) < 4)%nat →
       maskCardNumber s !! i = Some c)
  ∧ ((countDigits s ≤ 4)%nat → maskCardNumber s = s)
  ∧ (forallb isDigit s = true →
     maskCardNumber s
     = replicate (length s - 4) 42 ++ drop (length s - 4) s).
Proof.
  split; [|split; [|split; [|split; [|split]]]].
  - induction s as [|c s IH]; simpl; congruence.
  - intros i c Hi. rewrite maskCardNumber_lookup, Hi. simpl.
    rewrite followedByFourDigits_digitAt, !digitAt_drop.
    replace (S i + 0)%nat with (i + 1)%nat by lia.
    replace (S i + 1)%nat with (i + 2)%nat by lia.
    replace (S i + 2)%nat with (i + 3)%nat by lia.
    replace (S i + 3)%nat with (i + 4)%nat by lia.
    by rewrite !andb_assoc.
  - intros i c Hi Hc. rewrite maskCardNumber_lookup, Hi. simpl.
    by rewrite Hc.
  - intros i c Hi Hlt. rewrite maskCardNumber_lookup, Hi. simpl.
    destruct (followedByFourDigits (drop (S i) s)) eqn:E.
    + apply followedByFourDigits_count in E. lia.
    + by rewrite andb_false_r.
  - induction s as [|c s IH]; [reflexivity|].
    rewrite countDigits_cons. intros H. simpl.
    destruct (isDigit c) eqn:Hc; simpl.
    + destruct (followedByFourDigits s) eqn:E.
      * apply followedByFourDigits_count in E. lia.
      * f_equal. apply IH. lia.
    + f_equal. apply IH. lia.
  - apply maskCardNumber_all_digits.
Qed.

(** C10 at "12345-678": the first digit, with four digits next to it, is
    masked, the second, with a hyphen among its next four, is not, and the
    hyphen stays; and at sixteen digits, of which twelve are masked. *)
Lemma maskCardNumber_masks_digits_followed_by_four_witness :
  (maskCardNumber (js "12345-678") !! 0%nat = Some 42
   ∧ maskCardNumber (js "12345-678") !! 1%nat = Some 50
   ∧ maskCardNumber (js "12345-678") !! 5%nat = Some 45)
  ∧ maskCardNumber (js "4111111111111111") = js "************1111".
Proof.
  pose proof (maskCardNumber_masks_digits_followed_by_four (js "12345-678"))
    as (_ & Hat & Hkeep & _).
  pose proof (maskCardNumber_masks_digits_followed_by_four
                (js "4111111111111111")) as (_ & _ & _ & _ & _ & Hdigits).
  split; [split; [|split]|].
  - exact (Hat 0%nat 49 eq_refl).
  - exact (Hat 1%nat 50 eq_refl).
  - exact (Hkeep 5%nat 45 eq_refl eq_refl).
  - rewrite Hdigits; reflexivity.
Defined.

(** C10, as stated, fails: a digit that is followed by four digits or more
    is not masked when they do not stand next to it. In the grouped number
    the first digit has fifteen digits after it, in "12-34 5" the first
    digit has four, and both texts come back unchanged. *)
Lemma maskCardNumber_keeps_digits_before_separated_digits :
  (js "4111 1111 1111 1111" !! 0%nat = Some 52
   ∧ isDigit 52 = true
   ∧ countDigits (drop 1 (js "4111 1111 1111 1111")) = 15%nat
   ∧ maskCardNumber (js "4111 1111 1111 1111") = js "4111 1111 1111 1111")
  ∧ (js "12-34 5" !! 0%nat = Some 49
     ∧ isDigit 49 = true
     ∧ countDigits (drop 1 (js "12-34 5")) = 4%nat
     ∧ maskCardNumber (js "12-34 5") = js "12-34 5").
Proof. repeat split; reflexivity. Qed.

Example maskCardNumber_sixteen_digits :
  maskCardNumber (js "4111111111111111") = js "************1111".
Proof. reflexivity. Qed.

Example maskCardNumber_grouped :
  maskCardNumber (js "4111 1111 1111 1111") = js "4111 1111 1111 1111".
Proof. reflexivity. Qed.

End MaskCardNumber.

(** ** The card submission pipeline *)

Section PipelineClaims.
Import CardValidation CardProcessor.

Variable validateCardData : CardFormData → option CardValidationErrors.
Variable detectCardBrand : jsstring → string.
Variable processManual : CardFormData → string → UI → completion * UI.
Variable processAutomatic :
  CardFormData → string → option Settings → bool → UI → completion * UI.

Local Abbreviation processCardPayment :=
  (processCardPayment validateCardData detectCardBrand
     processManual processAutomatic).
Local Abbreviation handleCardFormSubmit :=
  (handleCardFormSubmit validateCardData detectCardBrand
     processManual processAutomatic).

Lemma messageOf_not_empty k message : messageOf k message → message ≠ ""%string.
Proof. destruct k; simpl; intros H; intuition (subst; discriminate). Qed.

(** No two fields share a message. *)
Lemma messageOf_field k k' message :
  messageOf k message → messageOf k' message → k = k'.
Proof.
  destruct k, k'; simpl; intros H H'; try reflexivity; exfalso;
    intuition (subst; discriminate).
Qed.

Lemma firstFailing_Some n c m y v k0 :
  fieldFails k0 n c m y v = true → ∃ k, firstFailing n c m y v = Some k.
Proof.
  unfold firstFailing. destruct k0; simpl; intros ->;
    repeat match goal with |- context [if ?b then _ else _] => destruct b end;
    eauto.
Qed.

Lemma firstFailing_head n c m y v k :
  firstFailing n c m y v = Some k →
  ∃ message rest,
    validateCardForm n c m y v = Some ((k, message) :: rest)
    ∧ messageOf k message.
Proof.
  unfold firstFailing. intros H.
  rewrite validateCardForm_errors. cbv zeta.
  destruct (cardNameFails n) eqn:E1;
    [|destruct (cardNumberFails c) eqn:E2;
      [|destruct (expiryMonthFails m) eqn:E3;
        [|destruct (expiryYearFails y) eqn:E4;
          [|destruct (cvvFails v) eqn:E5; [|discriminate]]]]];
    injection H as <-;
    repeat match goal with
      | E : ?f _ = false |- _ =>
          match goal with
          | |- context [errorsOf ?k' n c m y v] =>
              rewrite (errorsOf_fails k' n c m y v) by exact E; clear E
          end
      end;
    match goal with
    | E : _ = true |- context [errorsOf ?k' n c m y v ++ _] =>
        destruct (errorsOf_message k' n c m y v E) as (msg & -> & Hmsg)
    | E : _ = true |- context [errorsOf ?k' n c m y v] =>
        destruct (errorsOf_message k' n c m y v E) as (msg & -> & Hmsg)
    end; simpl; eauto.
Qed.

Lemma firstFailing_first n c m y v k :
  firstFailing n c m y v = Some k →
  fieldFails k n c m y v = true
  ∧ ∀ k', (fieldOrder k' < fieldOrder k)%nat → fieldFails k' n c m y v = false.
Proof.
  unfold firstFailing.
  destruct (cardNameFails n) eqn:E1;
    [|destruct (cardNumberFails c) eqn:E2;
      [|destruct (expiryMonthFails m) eqn:E3;
        [|destruct (expiryYearFails y) eqn:E4;
          [|destruct (cvvFails v) eqn:E5; [|discriminate]]]]];
    intros [= <-]; (split; [simpl; assumption|]); intros [] Hlt; simpl in *;
    try lia; assumption.
Qed.

(** C7. When a field of the card is invalid, the processor reports one
    message and stops: the error that the form shows afterwards is the
    message of the first failing field in the order name, number, month,
    year, CVV (every field before it passes its check, whatever fails after
    it), which is the first of the errors that [validateCardForm] collected,
    and it is the message of no other field.
    Nothing else changes: the submitting flag and the payment status are as
    before and no processor or toast is called. [validateCardData] is taken
    to return what [validateCardForm] returns on the fields of the card. *)
Theorem processCardPayment_reports_first_failing_field
  (cardData : CardFormData) (settings : option Settings) (isSandbox : bool)
  (toast : bool) (w : World) (k0 : CardField) :
  validateCardData cardData = validateCardFields cardData →
  fieldFails k0 (cardName cardData) (cardNumber cardData)
    (expiryMonth cardData) (expiryYear cardData) (cvv cardData) = true →
  ∃ k message rest,
    firstFailing (cardName cardData) (cardNumber cardData)
      (expiryMonth cardData) (expiryYear cardData) (cvv cardData) = Some k
    ∧ fieldFails k (cardName cardData) (cardNumber cardData)
        (expiryMonth cardData) (expiryYear cardData) (cvv cardData) = true
    ∧ (∀ k', (fieldOrder k' < fieldOrder k)%nat →
             fieldFails k' (cardName cardData) (cardNumber cardData)
               (expiryMonth cardData) (expiryYear cardData) (cvv cardData)
             = false)
    ∧ validateCardFields cardData = Some ((k, message) :: rest)
    ∧ messageOf k message
    ∧ processCardPayment cardData settings isSandbox toast w
      = (Resolved,
         {| ui := {| error := message;
                     isSubmitting := isSubmitting (ui w);
                     paymentStatus := paymentStatus (ui w) |};
            calls := calls w |})
    ∧ error (ui (processCardPayment cardData settings isSandbox toast w).2)
      = message
    ∧ ∀ k', messageOf k'
              (error
                 (ui (processCardPayment cardData settings isSandbox toast w).2))
            → k' = k.
Proof.
  intros Hsame H0.
  destruct (firstFailing_Some _ _ _ _ _ _ H0) as (k & Hk).
  destruct (firstFailing_head _ _ _ _ _ _ Hk) as (message & rest & Hv & Hm).
  destruct (firstFailing_first _ _ _ _ _ _ Hk) as (Hfails & Hbefore).
  assert (processCardPayment cardData settings isSandbox toast w
          = (Resolved,
             {| ui := {| error := message;
                         isSubmitting := isSubmitting (ui w);
                         paymentStatus := paymentStatus (ui w) |};
                calls := calls w |})) as Hcall.
  { unfold CardProcessor.processCardPayment. rewrite Hsame.
    unfold validateCardFields. rewrite Hv.
    unfold orString, setError. simpl.
    destruct (decide (message = ""%string)) as [E|_]; [|done].
    by apply messageOf_not_empty in Hm. }
  exists k, message, rest.
  do 6 (split; [done|]). rewrite Hcall. split; [reflexivity|].
  intros k' Hk'. by apply (messageOf_field k' k message).
Qed.

(** C3, where it fails: when validation turns the card away,
    [handleCardFormSubmit] has raised the flag, [processCardPayment] shows
    the first error and returns early, and the flag is still raised when the
    submission has ended. *)
Theorem handleCardFormSubmit_invalid_card_stays_submitting
  (settings : option Settings) (isSandbox : bool) (cardData : CardFormData)
  (validationErrors : CardValidationErrors) (w : World) :
  validateCardData cardData = Some validationErrors →
  handleCardFormSubmit settings isSandbox cardData w
  = setError (orString (head (Object_values validationErrors))
                "Verifique os dados do cartão")
      (setIsSubmitting true w)
  ∧ isSubmitting (ui (handleCardFormSubmit settings isSandbox cardData w))
    = true.
Proof.
  intros Hinvalid.
  unfold CardProcessor.handleCardFormSubmit, CardProcessor.processCardPayment.
  rewrite Hinvalid. split; reflexivity.
Qed.

(** The sibling exits do lower the flag: when the processor on the chosen
    path throws, or when its promise is rejected, one of the two [catch]
    blocks runs and the submission ends with the flag lowered. *)
Lemma handleCardFormSubmit_error_exits_reset
  (settings : option Settings) (isSandbox : bool) (cardData : CardFormData)
  (w : World) :
  validateCardData cardData = None →
  (∀ brand u, ∃ reason u',
     processManual cardData brand u = (Rejected reason, u')
     ∨ processManual cardData brand u = (ThrewSync reason, u')) →
  (∀ brand s b u, ∃ reason u',
     processAutomatic cardData brand s b u = (Rejected reason, u')
     ∨ processAutomatic cardData brand s b u = (ThrewSync reason, u')) →
  isSubmitting (ui (handleCardFormSubmit settings isSandbox cardData w)) = false.
Proof.
  intros Hvalid Hmanual Hautomatic.
  unfold CardProcessor.handleCardFormSubmit, CardProcessor.processCardPayment.
  rewrite Hvalid. cbv zeta.
  destruct (flag _ || negb (flag _)).
  - match goal with |- context [processManual ?c ?b ?u] =>
      destruct (Hmanual b u) as (reason & u' & [-> | ->]) end; reflexivity.
  - match goal with |- context [processAutomatic ?c ?b ?s ?i ?u] =>
      destruct (Hautomatic b s i u) as (reason & u' & [-> | ->]) end;
      reflexivity.
Qed.

Lemma manualCalls_record c w :
  manualCalls (record c w) = (manualCalls w + if isManualCall c then 1 else 0)%nat.
Proof.
  unfold manualCalls, record. simpl. rewrite List.filter_app, length_app.
  simpl. by destruct (isManualCall c).
Qed.

Lemma automaticCalls_record c w :
  automaticCalls (record c w)
  = (automaticCalls w + if isAutomaticCall c then 1 else 0)%nat.
Proof.
  unfold automaticCalls, record. simpl. rewrite List.filter_app, length_app.
  simpl. by destruct (isAutomaticCall c).
Qed.

Lemma returnCall_calls toast r w :
  manualCalls (returnCall toast r w).2 = manualCalls w
  ∧ automaticCalls (returnCall toast r w).2 = automaticCalls w.
Proof.
  destruct r as [[| |] u]; simpl; try done.
  destruct toast; [|done].
  unfold manualCalls, automaticCalls. simpl.
  rewrite !List.filter_app, !length_app. simpl. lia.
Qed.

(** C5, as amended. For a card that passes validation: when
    [manualCardProcessing] is true, or [isEnabled] is false or missing, the
    processor calls [processManual] once and [processAutomatic], the only
    way to the gateway, not at all; otherwise it calls [processAutomatic]
    once and [processManual] not at all. *)
Theorem processCardPayment_routes_valid_card
  (cardData : CardFormData) (settings : option Settings) (isSandbox : bool)
  (toast : bool) (w : World) :
  validateCardData cardData = None →
  (manualRoute settings →
     manualCalls (processCardPayment cardData settings isSandbox toast w).2
       = S (manualCalls w)
     ∧ automaticCalls (processCardPayment cardData settings isSandbox toast w).2
       = automaticCalls w)
  ∧ (¬ manualRoute settings →
     automaticCalls (processCardPayment cardData settings isSandbox toast w).2
       = S (automaticCalls w)
     ∧ manualCalls (processCardPayment cardData settings isSandbox toast w).2
       = manualCalls w).
Proof.
  intros Hvalid. unfold CardProcessor.processCardPayment. rewrite Hvalid.
  cbv zeta.
  destruct (flag (optField settings manualCardProcessing)
            || negb (flag (optField settings isEnabled))) eqn:Hroute.
  - split.
    + intros _.
      match goal with |- context [returnCall ?t ?r ?w'] =>
        destruct (returnCall_calls t r w') as [-> ->] end.
      rewrite manualCalls_record, automaticCalls_record.
      unfold manualCalls, automaticCalls. simpl. lia.
    + intros Hno. exfalso. apply Hno. unfold manualRoute.
      destruct (optField settings manualCardProcessing) as [[|]|];
        destruct (optField settings isEnabled) as [[|]|];
        simpl in Hroute; try discriminate; auto; right; discriminate.
  - split.
    + intros [Hm|He]; exfalso.
      * rewrite Hm in Hroute. discriminate.
      * destruct (optField settings isEnabled) as [[|]|];
          rewrite ?orb_true_r in Hroute; try discriminate. by apply He.
    + intros _.
      match goal with |- context [returnCall ?t ?r ?w'] =>
        destruct (returnCall_calls t r w') as [-> ->] end.
      rewrite manualCalls_record, automaticCalls_record.
      unfold manualCalls, automaticCalls. simpl. lia.
Qed.

End PipelineClaims.

Section PipelineExamples.
Import CardValidation CardProcessor.

(** C7 at a card with three defects, no name, fifteen digits and the CVV
    "000": the message of the name is the one reported; and at the same card
    with a name, where it is the message of the number. *)
Lemma processCardPayment_reports_first_failing_field_witness :
  (cvvFails (js "000") = true
   ∧ cardNumberFails (js "4111 1111 1111 111") = true
   ∧ error
       (ui (processCardPayment validateCardFields unknownBrand
              manualStandIn automaticStandIn
              {| cardName := js ""; cardNumber := js "4111 1111 1111 111";
                 expiryMonth := js "12"; expiryYear := js "30";
                 cvv := js "000" |}
              (Some automaticSettings) false true idle).2)
     = "Nome no cartão é obrigatório"%string)
  ∧ processCardPayment validateCardFields unknownBrand
      manualStandIn automaticStandIn
      {| cardName := js "ANA SILVA"; cardNumber := js "4111 1111 1111 111";
         expiryMonth := js "12"; expiryYear := js "30"; cvv := js "000" |}
      (Some automaticSettings) false true idle
    = (Resolved,
       {| ui := {| error := "Número do cartão inválido";
                   isSubmitting := false; paymentStatus := None |};
          calls := [] |}).
Proof.
  split.
  - split; [reflexivity|]. split; [reflexivity|].
    destruct (processCardPayment_reports_first_failing_field
                validateCardFields unknownBrand manualStandIn automaticStandIn
                {| cardName := js ""; cardNumber := js "4111 1111 1111 111";
                   expiryMonth := js "12"; expiryYear := js "30";
                   cvv := js "000" |}
                (Some automaticSettings) false true idle Cvv)
      as (k & message & rest & _ & _ & _ & Herrors & _ & _ & Hshown & _);
      [reflexivity | reflexivity |].
    rewrite Hshown. vm_compute in Herrors. by injection Herrors as _ <- _.
  - destruct (processCardPayment_reports_first_failing_field
                validateCardFields unknownBrand manualStandIn automaticStandIn
                {| cardName := js "ANA SILVA";
                   cardNumber := js "4111 1111 1111 111";
                   expiryMonth := js "12"; expiryYear := js "30";
                   cvv := js "000" |}
                (Some automaticSettings) false true idle Cvv)
      as (k & message & rest & _ & _ & _ & Herrors & _ & Hcall & _ & _);
      [reflexivity | reflexivity |].
    rewrite Hcall. vm_compute in Herrors. by injection Herrors as _ <- _.
Defined.

(** C3 at a card without a name. *)
Lemma handleCardFormSubmit_invalid_card_stays_submitting_witness :
  isSubmitting
    (ui (handleCardFormSubmit validateCardFields unknownBrand
           manualStandIn automaticStandIn
           (Some automaticSettings) false cardWithoutName idle)) = true.
Proof.
  apply (handleCardFormSubmit_invalid_card_stays_submitting
           validateCardFields unknownBrand manualStandIn automaticStandIn
           (Some automaticSettings) false cardWithoutName
           [(CardName, "Nome no cartão é obrigatório"%string)] idle).
  reflexivity.
Defined.

(** C5, as stated, fails: with automatic settings a card without a name is
    turned away by validation before any routing, and [processAutomatic] is
    never called. *)
Lemma processCardPayment_invalid_card_reaches_no_processor :
  ¬ manualRoute (Some automaticSettings)
  ∧ automaticCalls
      (processCardPayment validateCardFields unknownBrand
         manualStandIn automaticStandIn
         cardWithoutName (Some automaticSettings) false true idle).2 = 0%nat
  ∧ manualCalls
      (processCardPayment validateCardFields unknownBrand
         manualStandIn automaticStandIn
         cardWithoutName (Some automaticSettings) false true idle).2 = 0%nat.
Proof.
  split; [|split; reflexivity].
  intros [H|H]; [discriminate | by apply H].
Qed.

(** C5 at a valid card: once with automatic settings, once with the settings
    that [CheckoutForm] falls back on, in which [isEnabled] is missing. *)
Lemma processCardPayment_routes_valid_card_witness :
  (automaticCalls
     (processCardPayment validateCardFields unknownBrand
        manualStandIn automaticStandIn
        validCard (Some automaticSettings) false true idle).2 = 1%nat
   ∧ manualCalls
       (processCardPayment validateCardFields unknownBrand
         manualStandIn automaticStandIn
          validCard (Some automaticSettings) false true idle).2 = 0%nat)
  ∧ (manualCalls
       (processCardPayment validateCardFields unknownBrand
         manualStandIn automaticStandIn
          validCard (Some defaultSettings) false true idle).2 = 1%nat
     ∧ automaticCalls
         (processCardPayment validateCardFields unknownBrand
         manualStandIn automaticStandIn
            validCard (Some defaultSettings) false true idle).2 = 0%nat).
Proof.
  split.
  - apply (processCardPayment_routes_valid_card
             validateCardFields unknownBrand manualStandIn automaticStandIn
             validCard (Some automaticSettings) false true idle eq_refl).
    intros [H|H]; [discriminate | by apply H].
  - apply (processCardPayment_routes_valid_card
             validateCardFields unknownBrand manualStandIn automaticStandIn
             validCard (Some defaultSettings) false true idle eq_refl).
    right. discriminate.
Defined.

End PipelineExamples.

(** ** Customer data *)

Section CustomerDataClaims.
Import CheckoutOrder.

Lemma removeNonDigits_digits (s : jsstring) :
  forallb isDigit (removeNonDigits s) = true.
Proof.
  unfold removeNonDigits. induction s as [|c s IH]; [reflexivity|].
  rewrite filter_cons. case_decide as Hc; [|exact IH].
  simpl. by rewrite Hc, IH.
Qed.

Lemma removeNonDigits_keeps_digits (s : jsstring) :
  forallb isDigit s = true → removeNonDigits s = s.
Proof.
  unfold removeNonDigits. induction s as [|c s IH]; [reflexivity|].
  simpl. intros H. apply andb_true_iff in H as [Hc Hs].
  rewrite filter_cons. case_decide; [|done]. f_equal. by apply IH.
Qed.

(** C8, as amended. The customer data that [createOrder] prepares carries
    the CPF exactly as the form has it; the postal code is reduced to its
    digits, in their order, and sits in the address, which exists only when
    the street is filled in. *)
Theorem prepareCustomerData_strips_postal_code_only (formState : FormState.t) :
  CustomerData.cpf (prepareCustomerData formState) = FormState.cpf formState
  ∧ (FormState.street formState = [] →
       CustomerData.address (prepareCustomerData formState) = None)
  ∧ (FormState.street formState ≠ [] →
       ∃ a, CustomerData.address (prepareCustomerData formState) = Some a
            ∧ Address.postalCode a = removeNonDigits (FormState.cep formState)
            ∧ forallb isDigit (Address.postalCode a) = true
            ∧ List.filter isDigit (Address.postalCode a)
              = List.filter isDigit (FormState.cep formState)).
Proof.
  unfold prepareCustomerData. simpl. repeat split.
  - by intros ->.
  - intros Hs. destruct (FormState.street formState) eqn:E; [done|]. simpl.
    eexists. repeat split; simpl.
    + apply removeNonDigits_digits.
    + generalize (FormState.cep formState) as s.
      induction s as [|c s IH]; [reflexivity|].
      unfold removeNonDigits in *. rewrite filter_cons. simpl.
      case_decide as Hc.
      * simpl. rewrite Hc. by f_equal.
      * destruct (isDigit c); [done | exact IH].
Qed.

(** C8 at a filled form and at the same form without a street. *)
Lemma prepareCustomerData_strips_postal_code_only_witness :
  (∃ a, CustomerData.address (prepareCustomerData filledForm) = Some a
        ∧ Address.postalCode a = js "01310100")
  ∧ CustomerData.address
      (prepareCustomerData
         {| FormState.fullName := js "Ana Silva";
            FormState.email := js "ana@example.com";
            FormState.cpf := js "123.456.789-09";
            FormState.phone := js "";
            FormState.street := js "";
            FormState.number := js "";
            FormState.complement := js "";
            FormState.neighborhood := js "";
            FormState.city := js "";
            FormState.state := js "";
            FormState.cep := js "01310-100" |}) = None.
Proof.
  split.
  - destruct (prepareCustomerData_strips_postal_code_only filledForm)
      as (_ & _ & H).
    destruct H as (a & Ha & Hp & _); [discriminate|].
    exists a. split; [exact Ha|]. rewrite Hp. reflexivity.
  - apply prepareCustomerData_strips_postal_code_only. reflexivity.
Defined.

(** C8, as stated, fails: the CPF "123.456.789-09" reaches the customer data
    with its dots and its dash. *)
Lemma prepareCustomerData_keeps_cpf_punctuation :
  CustomerData.cpf (prepareCustomerData filledForm) = js "123.456.789-09"
  ∧ forallb isDigit (CustomerData.cpf (prepareCustomerData filledForm)) = false
  ∧ removeNonDigits (js "123.456.789-09") = js "12345678909".
Proof. repeat split; reflexivity. Qed.

End CustomerDataClaims.

(** ** Lists with one element taken out *)

Section RemoveAt.
Context {A : Type}.

Lemma removeAt_filter_length (f : A → bool) (l : list A) (k : nat) (x : A) :
  l !! k = Some x →
  (length (List.filter f (removeAt k l)) + (if f x then 1 else 0)
   = length (List.filter f l))%nat.
Proof.
  intros Hk. unfold removeAt.
  rewrite <- (take_drop_middle l k x Hk) at 3.
  rewrite !List.filter_app, !length_app. simpl.
  destruct (f x); simpl; lia.
Qed.

End RemoveAt.

(** ** The payment wrapper *)

Section PaymentWrapperClaims.
Import PaymentWrapper.

Lemma instance_setInstance w w' i st :
  instance w (setInstance w' i st) = if decide (w' = w) then i else instance w st.
Proof.
  unfold instance, setInstance. simpl.
  rewrite lookup_insert. by case_decide.
Qed.

Lemma singleFlight_initial : singleFlight initial.
Proof. intros w. split; [cbv; lia | cbv; lia]. Qed.

Lemma count_filter_snoc {A} (f : A → bool) (l : list A) (x : A) :
  length (List.filter f (l ++ [x]))
  = (length (List.filter f l) + if f x then 1 else 0)%nat.
Proof.
  rewrite List.filter_app, length_app. simpl. by destruct (f x).
Qed.

Lemma singleFlight_step st ev : singleFlight st → singleFlight (step st ev).
Proof.
  intros J. destruct ev as [w pid status|k result|dt|k]; simpl.
  - (* a call *)
    unfold handleOrderCreation. cbv zeta.
    set (safe := orString _ _).
    change (instance w {| now := now st;
                          processedPaymentIds := processedPaymentIds st;
                          instances := instances st; timers := timers st;
                          awaiting := awaiting st; nextCall := S (nextCall st);
                          trace := trace st |}) with (instance w st).
    simpl.
    destruct (_ || _); [exact J|].
    destruct (isProcessingRef (instance w st)) eqn:Hflag; [exact J|].
    intros w'. destruct (J w') as [Hle Hone].
    unfold tasksOf, timersOf in *. simpl.
    rewrite count_filter_snoc. simpl.
    unfold instance in *. simpl. rewrite lookup_insert.
    destruct (decide (w = w')) as [Hw|Hw]; simpl.
    + subst w'. rewrite bool_decide_eq_true_2 by done.
      split; [|done].
      destruct (decide ((length (List.filter (λ t, bool_decide (taskInstance t = w))
                        (awaiting st))
              + length (List.filter (λ t : N * nat, bool_decide (t.2 = w))
                          (timers st)))%nat = 1%nat)) as [E|E]; [|lia].
      apply Hone in E. congruence.
    + rewrite bool_decide_eq_false_2 by done. split; [lia|].
      intros E. apply Hone. lia.
  - (* createOrder settles *)
    unfold createOrderSettles.
    destruct (awaiting st !! k) as [task|] eqn:Hk; [|exact J].
    intros w'. destruct (J w') as [Hle Hone].
    pose proof (removeAt_filter_length
                  (λ t, bool_decide (taskInstance t = w')) _ _ _ Hk) as Hrm.
    assert (∀ st0 : State,
              tasksOf w' (setTimers (timers st0 ++ [(now st0 + 1000, taskInstance task)]) st0)
                = tasksOf w' st0
              ∧ timersOf w' (setTimers (timers st0 ++ [(now st0 + 1000, taskInstance task)]) st0)
                = (timersOf w' st0
                   + if bool_decide (taskInstance task = w') then 1 else 0)%nat
              ∧ instance w' (setTimers (timers st0 ++ [(now st0 + 1000, taskInstance task)]) st0)
                = instance w' st0) as Hset.
    { intros st0. unfold tasksOf, timersOf, instance. simpl.
      by rewrite count_filter_snoc. }
    destruct result as [order|message]; cbv zeta;
      match goal with |- context [setTimers _ ?s] =>
        destruct (Hset s) as (-> & -> & ->) end;
      unfold tasksOf, timersOf, instance in *; simpl in *;
      destruct (bool_decide (taskInstance task = w')); split; intros; try lia;
      apply Hone; lia.
  - (* time passes *)
    exact J.
  - (* a timer runs *)
    unfold fire.
    destruct (timers st !! k) as [[deadline w]|] eqn:Hk; [|exact J].
    destruct (deadline <=? now st); [|exact J].
    intros w'. destruct (J w') as [Hle Hone].
    pose proof (removeAt_filter_length
                  (λ t : N * nat, bool_decide (t.2 = w')) _ _ _ Hk) as Hrm.
    cbv zeta. rewrite instance_setInstance.
    unfold tasksOf, timersOf in *. simpl in *.
    case_decide as Hw.
    + subst w'. rewrite bool_decide_eq_true_2 in Hrm by done.
      split; [lia|]. intros E. lia.
    + rewrite bool_decide_eq_false_2 in Hrm by done.
      unfold instance in *. simpl. split; [lia|]. intros E. apply Hone. lia.
Qed.

Lemma singleFlight_run evs st : singleFlight st → singleFlight (run st evs).
Proof.
  revert st. induction evs as [|ev evs IH]; intros st J; [exact J|].
  simpl. apply IH. by apply singleFlight_step.
Qed.

Lemma inFlight_tasksOf w st : inFlight w st → (1 ≤ tasksOf w st)%nat.
Proof.
  intros (task & Hin & Hw). unfold tasksOf.
  apply list_elem_of_In in Hin.
  assert (In task (List.filter (λ t, bool_decide (taskInstance t = w))
                     (awaiting st))) as H.
  { apply List.filter_In. split; [done|]. by apply bool_decide_eq_true_2. }
  destruct (List.filter _ _); [destruct H | simpl; lia].
Qed.

(** A raised flag turns every call away before [createOrder]. *)
Lemma handleOrderCreation_flag_raised w paymentId status st :
  isProcessingRef (instance w st) = true →
  ∃ message,
    refusal (orString (Some paymentId) ("payment_" +:+ pretty (now st))) message
    ∧ handleOrderCreation w paymentId status st
      = observe [Threw (nextCall st) message]
          {| now := now st; processedPaymentIds := processedPaymentIds st;
             instances := instances st; timers := timers st;
             awaiting := awaiting st; nextCall := S (nextCall st);
             trace := trace st |}.
Proof.
  intros Hflag. unfold handleOrderCreation. cbv zeta.
  set (safe := orString _ _).
  change (instance w {| now := now st;
                        processedPaymentIds := processedPaymentIds st;
                        instances := instances st; timers := timers st;
                        awaiting := awaiting st; nextCall := S (nextCall st);
                        trace := trace st |}) with (instance w st).
  simpl. destruct (_ || _).
  - eexists. split; [by left | reflexivity].
  - rewrite Hflag. eexists. split; [by right | reflexivity].
Qed.

(** C9. While a call of [handleOrderCreation] of a wrapper instance is in
    flight, the flag of the instance is raised, and every other call on that
    instance, whatever its payment id, throws before [createOrder]: the
    error is the only thing it leaves, [createOrder] is not called, and no
    payment id is registered. *)
Theorem handleOrderCreation_single_flight_per_instance
  (evs : list Event) (w : nat) (paymentId : string) (status : Status) :
  inFlight w (run initial evs) →
  isProcessingRef (instance w (run initial evs)) = true
  ∧ ∃ message,
      refusal (orString (Some paymentId)
                 ("payment_" +:+ pretty (now (run initial evs)))) message
      ∧ trace (handleOrderCreation w paymentId status (run initial evs))
        = trace (run initial evs)
            ++ [Threw (nextCall (run initial evs)) message]
      ∧ createOrderCalls
          (handleOrderCreation w paymentId status (run initial evs))
        = createOrderCalls (run initial evs)
      ∧ awaiting (handleOrderCreation w paymentId status (run initial evs))
        = awaiting (run initial evs)
      ∧ processedPaymentIds
          (handleOrderCreation w paymentId status (run initial evs))
        = processedPaymentIds (run initial evs)
      ∧ instances (handleOrderCreation w paymentId status (run initial evs))
        = instances (run initial evs).
Proof.
  intros Hin.
  pose proof (singleFlight_run evs initial singleFlight_initial w) as [Hle Hone].
  pose proof (inFlight_tasksOf _ _ Hin) as Htask.
  assert (isProcessingRef (instance w (run initial evs)) = true) as Hflag
    by (apply Hone; lia).
  split; [exact Hflag|].
  destruct (handleOrderCreation_flag_raised w paymentId status _ Hflag)
    as (message & Hmsg & ->).
  exists message. repeat split; try done.
  unfold createOrderCalls. simpl.
  rewrite List.filter_app, length_app. simpl. lia.
Qed.

(** C9 with the payment "pay_1" in flight and a call for "pay_2". *)
Lemma handleOrderCreation_single_flight_per_instance_witness :
  isProcessingRef
    (instance 0 (run initial [CallHandleOrderCreation 0 "pay_1" confirmed]))
  = true
  ∧ ∃ message,
      refusal "pay_2" message
      ∧ trace (handleOrderCreation 0 "pay_2" pending
                 (run initial [CallHandleOrderCreation 0 "pay_1" confirmed]))
        = [CreateOrder 0 "pay_1" confirmed; Threw 1 message].
Proof.
  destruct (handleOrderCreation_single_flight_per_instance
              [CallHandleOrderCreation 0 "pay_1" confirmed] 0%nat
              "pay_2" pending) as (Hflag & message & Hmsg & Htrace & _).
  - exists {| taskCall := 0; taskInstance := 0; taskPaymentId := "pay_1" |}.
    split; [|reflexivity]. vm_compute. apply list_elem_of_here.
  - split; [exact Hflag|]. exists message. split; [exact Hmsg|].
    rewrite Htrace. reflexivity.
Defined.

Example handleOrderCreation_other_payment_refused :
  trace (run initial [CallHandleOrderCreation 0 "pay_1" confirmed;
                      CallHandleOrderCreation 0 "pay_2" pending])
  = [CreateOrder 0 "pay_1" confirmed;
     Threw 1 "Payment processing in progress, please wait"].
Proof. vm_compute. reflexivity. Qed.

End PaymentWrapperClaims.

(** ** Order operations *)

Section OrderOpsFacts.
Import OrderOps.

Lemma orString_Some (pid fallback : string) :
  pid ≠ ""%string → orString (Some pid) fallback = pid.
Proof. intros H. unfold orString. by destruct (decide (pid = ""%string)). Qed.

Lemma storeRequests_observe pid obs st :
  storeRequests pid (observe obs st)
  = (storeRequests pid st + length (List.filter (isStoreRequestFor pid) obs))%nat.
Proof.
  unfold storeRequests, observe. simpl.
  by rewrite List.filter_app, length_app.
Qed.

Lemma addOrder_refused_unchanged o message st :
  trace (refused o message st)
  = trace st ++ [Toast "Erro" "Falha ao adicionar pedido";
                 Threw (nextCall st) message]
  ∧ pendingOrderIds (refused o message st) = pendingOrderIds st
  ∧ instances (refused o message st) = instances st
  ∧ awaiting (refused o message st) = awaiting st
  ∧ ∀ pid, storeRequests pid (refused o message st) = storeRequests pid st.
Proof.
  repeat split. intros pid. unfold storeRequests. simpl.
  rewrite List.filter_app, length_app. simpl. lia.
Qed.

(** A payment id that is registered turns [addOrder] away. *)
Lemma addOrder_registered o seen orderData pid st :
  pid ≠ ""%string →
  paymentId orderData = Some pid →
  pid ∈ pendingOrderIds st →
  ∃ message, duplicateError pid message
             ∧ addOrder o seen orderData st = refused o message st.
Proof.
  intros Hne Hpid Hin. unfold addOrder. cbv zeta. simpl.
  rewrite Hpid, (orString_Some pid _ Hne).
  destruct seen.
  - eexists. split; [by left | reflexivity].
  - rewrite decide_True by done.
    eexists. split; [right; by left | reflexivity].
Qed.

(** A payment id that is not registered passes the checks of [addOrder],
    is registered, and the request goes to the store. *)
Lemma addOrder_fresh o orderData pid st :
  pid ≠ ""%string →
  paymentId orderData = Some pid →
  pid ∉ pendingOrderIds st →
  processingRef (instance o st) ≠ Some pid →
  trace (addOrder o false orderData st)
    = trace st ++ [StoreCreateOrder (nextCall st) orderData]
  ∧ awaiting (addOrder o false orderData st)
    = awaiting st ++ [{| taskCall := nextCall st; taskInstance := o;
                         taskInput := orderData |}]
  ∧ pendingOrderIds (addOrder o false orderData st)
    = {[pid]} ∪ pendingOrderIds st
  ∧ storeRequests pid (addOrder o false orderData st)
    = S (storeRequests pid st).
Proof.
  intros Hne Hpid Hfresh Href. unfold addOrder. cbv zeta. simpl.
  rewrite Hpid, (orString_Some pid _ Hne).
  rewrite decide_False by done.
  change (instance o _) with (instance o st).
  rewrite decide_False by done.
  repeat split. unfold storeRequests. simpl.
  rewrite List.filter_app, length_app. simpl.
  rewrite Hpid, bool_decide_eq_true_2 by done. simpl. lia.
Qed.

Lemma step_pendingOrderIds st ev :
  pendingOrderIds st ⊆ pendingOrderIds (step st ev).
Proof.
  destruct ev as [o seen orderData|k result|dt|k]; simpl.
  - unfold addOrder. cbv zeta.
    repeat (match goal with |- context [if ?b then _ else _] => destruct b end;
            simpl; try set_solver).
  - unfold storeSettles. destruct (awaiting st !! k); [|done].
    by destruct result.
  - done.
  - unfold fire. destruct (timers st !! k) as [[deadline o]|]; [|done].
    by destruct (deadline <=? now st).
Qed.

Lemma run_pendingOrderIds evs st :
  pendingOrderIds st ⊆ pendingOrderIds (run st evs).
Proof.
  revert st. induction evs as [|ev evs IH]; intros st; [done|].
  simpl. etrans; [apply step_pendingOrderIds | apply IH].
Qed.

(** Once a payment id is registered, no event sends a request for it to the
    store. *)
Lemma step_storeRequests pid st ev :
  pid ≠ ""%string → pid ∈ pendingOrderIds st →
  storeRequests pid (step st ev) = storeRequests pid st.
Proof.
  intros Hne Hin.
  destruct ev as [o seen orderData|k result|dt|k]; simpl.
  - destruct (decide (paymentId orderData = Some pid)) as [Hpid|Hpid].
    + destruct (addOrder_registered o seen orderData pid st Hne Hpid Hin)
        as (message & _ & ->).
      apply addOrder_refused_unchanged.
    + unfold addOrder. cbv zeta.
      repeat (match goal with |- context [if ?b then _ else _] => destruct b end;
              try apply addOrder_refused_unchanged).
      unfold storeRequests. simpl.
      rewrite List.filter_app, length_app. simpl.
      rewrite bool_decide_eq_false_2 by done. simpl. lia.
  - unfold storeSettles. destruct (awaiting st !! k); [|done].
    destruct result; unfold storeRequests; simpl;
      rewrite List.filter_app, length_app; simpl; lia.
  - done.
  - unfold fire. destruct (timers st !! k) as [[deadline o]|]; [|done].
    by destruct (deadline <=? now st).
Qed.

Lemma run_storeRequests pid evs st :
  pid ≠ ""%string → pid ∈ pendingOrderIds st →
  storeRequests pid (run st evs) = storeRequests pid st.
Proof.
  intros Hne. revert st. induction evs as [|ev evs IH]; intros st Hin; [done|].
  simpl. rewrite IH.
  - by apply step_storeRequests.
  - by apply step_pendingOrderIds.
Qed.

Lemma requestsRegistered_step st ev :
  requestsRegistered st → requestsRegistered (step st ev).
Proof.
  intros K call orderData pid Hin Hpid Hne.
  destruct (decide (StoreCreateOrder call orderData ∈ trace st)) as [Hold|Hnew].
  { eapply step_pendingOrderIds, K; eauto. }
  destruct ev as [o seen data|k result|dt|k]; simpl in *.
  - unfold addOrder in *. cbv zeta in *. simpl in *.
    repeat (match type of Hin with context [if ?b then _ else _] =>
              destruct b end;
            simpl in Hin;
            try (apply elem_of_app in Hin as [Hin|Hin]; [done|];
                 repeat (apply elem_of_cons in Hin as [Hin|Hin];
                         [discriminate|]);
                 by apply elem_of_nil in Hin)).
    apply elem_of_app in Hin as [Hin|Hin]; [done|].
    apply list_elem_of_singleton in Hin. injection Hin as -> ->.
    simpl. rewrite Hpid, (orString_Some pid _ Hne). set_solver.
  - unfold storeSettles in Hin.
    destruct (awaiting st !! k); [|done].
    destruct result; simpl in Hin;
      apply elem_of_app in Hin as [Hin|Hin]; try done;
      repeat (apply elem_of_cons in Hin as [Hin|Hin]; [discriminate|]);
      by apply elem_of_nil in Hin.
  - done.
  - unfold fire in Hin. destruct (timers st !! k) as [[deadline o]|]; [|done].
    by destruct (deadline <=? now st).
Qed.

Lemma requestsRegistered_run evs st :
  requestsRegistered st → requestsRegistered (run st evs).
Proof.
  revert st. induction evs as [|ev evs IH]; intros st K; [exact K|].
  simpl. apply IH. by apply requestsRegistered_step.
Qed.

Lemma requestsRegistered_initial : requestsRegistered initial.
Proof. intros call orderData pid Hin. by apply elem_of_nil in Hin. Qed.

End OrderOpsFacts.

(** ** Payment ids stay registered *)

Section PaymentWrapperRegistry.
Import PaymentWrapper.

(** A payment id that is registered turns [handleOrderCreation] away. *)
Lemma handleOrderCreation_registered w pid status st :
  pid ≠ ""%string →
  pid ∈ processedPaymentIds st →
  handleOrderCreation w pid status st
  = observe [Threw (nextCall st)
               ("A payment with ID " +:+ pid +:+ " is already being processed")]
      {| now := now st; processedPaymentIds := processedPaymentIds st;
         instances := instances st; timers := timers st;
         awaiting := awaiting st; nextCall := S (nextCall st);
         trace := trace st |}.
Proof.
  intros Hne Hin. unfold handleOrderCreation. cbv zeta. simpl.
  rewrite (orString_Some pid _ Hne).
  by rewrite bool_decide_eq_true_2.
Qed.

Lemma step_processedPaymentIds st ev :
  processedPaymentIds st ⊆ processedPaymentIds (step st ev).
Proof.
  destruct ev as [w pid status|k result|dt|k]; simpl.
  - unfold handleOrderCreation. cbv zeta.
    repeat (match goal with |- context [if ?b then _ else _] => destruct b end;
            simpl; try set_solver).
  - unfold createOrderSettles. destruct (awaiting st !! k); [|done].
    by destruct result.
  - done.
  - unfold fire. destruct (timers st !! k) as [[deadline w]|]; [|done].
    by destruct (deadline <=? now st).
Qed.

Lemma run_processedPaymentIds evs st :
  processedPaymentIds st ⊆ processedPaymentIds (run st evs).
Proof.
  revert st. induction evs as [|ev evs IH]; intros st; [done|].
  simpl. etrans; [apply step_processedPaymentIds | apply IH].
Qed.

Lemma step_createOrderCallsFor pid st ev :
  pid ∈ processedPaymentIds st →
  createOrderCallsFor pid (step st ev) = createOrderCallsFor pid st.
Proof.
  intros Hin. unfold createOrderCallsFor.
  destruct ev as [w p status|k result|dt|k]; simpl.
  - unfold handleOrderCreation. cbv zeta. simpl.
    set (safe := orString _ _).
    destruct (bool_decide (safe ∈ processedPaymentIds st)) eqn:Hsafe; simpl.
    { rewrite List.filter_app, length_app. simpl. lia. }
    destruct (bool_decide (safe ∈ localProcessedPaymentIds _)); simpl.
    { rewrite List.filter_app, length_app. simpl. lia. }
    destruct (isProcessingRef _); simpl;
      rewrite List.filter_app, length_app; simpl; [lia|].
    apply bool_decide_eq_false in Hsafe.
    rewrite bool_decide_eq_false_2; [simpl; lia|]. by intros ->.
  - unfold createOrderSettles. destruct (awaiting st !! k); [|done].
    destruct result; simpl; rewrite List.filter_app, length_app; simpl; lia.
  - done.
  - unfold fire. destruct (timers st !! k) as [[deadline w]|]; [|done].
    by destruct (deadline <=? now st).
Qed.

Lemma run_createOrderCallsFor pid evs st :
  pid ∈ processedPaymentIds st →
  createOrderCallsFor pid (run st evs) = createOrderCallsFor pid st.
Proof.
  revert st. induction evs as [|ev evs IH]; intros st Hin; [done|].
  simpl. rewrite IH.
  - by apply step_createOrderCallsFor.
  - by apply step_processedPaymentIds.
Qed.

Lemma callsRegistered_step st ev :
  callsRegistered st → callsRegistered (step st ev).
Proof.
  intros K call pid status Hin.
  destruct (decide (CreateOrder call pid status ∈ trace st)) as [Hold|Hnew].
  { eapply step_processedPaymentIds, K; eauto. }
  destruct ev as [w p status'|k result|dt|k]; simpl in *.
  - unfold handleOrderCreation in *. cbv zeta in *. simpl in *.
    repeat (match type of Hin with context [if ?b then _ else _] =>
              destruct b end;
            simpl in Hin;
            try (apply elem_of_app in Hin as [Hin|Hin]; [done|];
                 repeat (apply elem_of_cons in Hin as [Hin|Hin];
                         [discriminate|]);
                 by apply elem_of_nil in Hin)).
    apply elem_of_app in Hin as [Hin|Hin]; [done|].
    apply list_elem_of_singleton in Hin. injection Hin as -> -> ->.
    simpl. set_solver.
  - unfold createOrderSettles in Hin.
    destruct (awaiting st !! k); [|done].
    destruct result; simpl in Hin;
      apply elem_of_app in Hin as [Hin|Hin]; try done;
      repeat (apply elem_of_cons in Hin as [Hin|Hin]; [discriminate|]);
      by apply elem_of_nil in Hin.
  - done.
  - unfold fire in Hin. destruct (timers st !! k) as [[deadline w]|]; [|done].
    by destruct (deadline <=? now st).
Qed.

Lemma callsRegistered_run evs st :
  callsRegistered st → callsRegistered (run st evs).
Proof.
  revert st. induction evs as [|ev evs IH]; intros st K; [exact K|].
  simpl. apply IH. by apply callsRegistered_step.
Qed.

Lemma callsRegistered_initial : callsRegistered initial.
Proof. intros call pid status Hin. by apply elem_of_nil in Hin. Qed.

End PaymentWrapperRegistry.


(** ** Order creation at checkout *)

Section CheckoutOrderFacts.
Import CheckoutOrder.

Variable validateCustomerData : CustomerData.t → option string.

Local Abbreviation createOrder := (createOrder validateCustomerData).
Local Abbreviation step := (step validateCustomerData).
Local Abbreviation run := (run validateCustomerData).
Local Abbreviation quiet := (quiet validateCustomerData).

Lemma serviceCalls_observe obs st :
  serviceCalls (observe obs st)
  = (serviceCalls st + length (List.filter isServiceCall obs))%nat.
Proof.
  unfold serviceCalls, observe. simpl.
  by rewrite List.filter_app, length_app.
Qed.

Lemma createOrder_refused_unchanged h pid message st :
  trace (refused h pid message st)
  = trace st
      ++ [Toast "Order error"
            "It wasn't possible to complete the order. Please try again.";
          Threw (nextCall st) message]
  ∧ globalPaymentsInProgress (refused h pid message st)
    = globalPaymentsInProgress st
  ∧ instances (refused h pid message st) = instances st
  ∧ awaiting (refused h pid message st) = awaiting st
  ∧ serviceCalls (refused h pid message st) = serviceCalls st.
Proof.
  repeat split. unfold serviceCalls. simpl.
  rewrite List.filter_app, length_app. simpl. lia.
Qed.

(** A payment id that is in the global map turns [createOrder] away. *)
Lemma createOrder_claimed h seen formState pid status st :
  is_Some (globalPaymentsInProgress st !! pid) →
  ∃ message, duplicateError message
             ∧ createOrder h seen formState pid status st
               = refused h pid message st.
Proof.
  intros Hin. unfold CheckoutOrder.createOrder. cbv zeta.
  change (instance h {| now := now st;
                        globalPaymentsInProgress := globalPaymentsInProgress st;
                        instances := instances st; timers := timers st;
                        awaiting := awaiting st; nextCall := S (nextCall st);
                        trace := trace st |}) with (instance h st).
  simpl.
  destruct (seen || processingRef (instance h st)).
  { eexists. split; [by left | reflexivity]. }
  destruct (bool_decide (orderCreatedRef (instance h st) = Some pid)).
  { eexists. split; [right; by left | reflexivity]. }
  rewrite bool_decide_eq_true_2 by done.
  eexists. split; [right; by right | reflexivity].
Qed.

Lemma setIsProcessing_unchanged h b st :
  globalPaymentsInProgress (setIsProcessing h b st)
  = globalPaymentsInProgress st
  ∧ trace (setIsProcessing h b st) = trace st
  ∧ awaiting (setIsProcessing h b st) = awaiting st
  ∧ now (setIsProcessing h b st) = now st
  ∧ nextCall (setIsProcessing h b st) = nextCall st.
Proof.
  unfold setIsProcessing. cbv zeta.
  destruct (bool_decide _); [done|]. by destruct b.
Qed.

Lemma setIsProcessing_instance h b st h' :
  processingRef (instance h' (setIsProcessing h b st))
  = processingRef (instance h' st)
  ∧ orderCreatedRef (instance h' (setIsProcessing h b st))
    = orderCreatedRef (instance h' st)
  ∧ isProcessing (instance h' (setIsProcessing h b st))
    = if decide (h = h') then b else isProcessing (instance h' st).
Proof.
  unfold setIsProcessing. cbv zeta.
  destruct (bool_decide (isProcessing (instance h st) = b)) eqn:E.
  - apply bool_decide_eq_true in E. repeat split.
    case_decide; by subst.
  - assert (∀ ts, instance h' (setTimers ts (setInstance h
              {| isProcessing := b;
                 processingRef := processingRef (instance h st);
                 orderCreatedRef := orderCreatedRef (instance h st) |} st))
            = if decide (h = h')
              then {| isProcessing := b;
                      processingRef := processingRef (instance h st);
                      orderCreatedRef := orderCreatedRef (instance h st) |}
              else instance h' st) as Hi.
    { intros ts. unfold instance. simpl. rewrite lookup_insert.
      by destruct (decide (h = h')). }
    destruct b; rewrite Hi; destruct (decide (h = h')); subst; done.
Qed.

Lemma setProcessingRef_instance h b st h' :
  processingRef (instance h' (setProcessingRef h b st))
  = (if decide (h = h') then b else processingRef (instance h' st))
  ∧ orderCreatedRef (instance h' (setProcessingRef h b st))
    = orderCreatedRef (instance h' st)
  ∧ isProcessing (instance h' (setProcessingRef h b st))
    = isProcessing (instance h' st).
Proof.
  unfold setProcessingRef, instance. simpl. rewrite lookup_insert.
  destruct (decide (h = h')); subst; done.
Qed.

(** An event that is not the clean-up of the payment id leaves the id in the
    global map. *)
Lemma step_claimed pid st ev :
  releases pid st ev = false →
  is_Some (globalPaymentsInProgress st !! pid) →
  is_Some (globalPaymentsInProgress (step st ev) !! pid).
Proof.
  intros Hquiet Hin.
  destruct ev as [h seen formState p status|k result|dt|k]; simpl in *.
  - unfold CheckoutOrder.createOrder. cbv zeta.
    destruct (seen || _); [done|].
    destruct (bool_decide (orderCreatedRef _ = _)); [done|].
    destruct (bool_decide (is_Some _)); [done|].
    assert (is_Some (<[p := true]> (globalPaymentsInProgress st) !! pid)) as H.
    { rewrite lookup_insert. case_decide; [by eexists | done]. }
    destruct (truthyText _); simpl;
      destruct (setIsProcessing_unchanged h true
        {| now := now st; globalPaymentsInProgress := globalPaymentsInProgress st;
           instances := instances st; timers := timers st;
           awaiting := awaiting st; nextCall := S (nextCall st);
           trace := trace st |}) as (-> & _); exact H.
  - unfold serviceSettles. destruct (awaiting st !! k); [|done].
    destruct result; done.
  - done.
  - unfold fire. destruct (timers st !! k) as [[deadline timer]|]; [|done].
    destruct (deadline <=? now st); [|done].
    destruct timer as [h p|h]; cbv zeta.
    + destruct (bool_decide (p ≠ ""%string)); simpl;
        destruct (setIsProcessing_unchanged h false
                    (setTimers (removeAt k (timers st)) st)) as (-> & _);
        simpl; [|done].
      apply bool_decide_eq_false in Hquiet.
      rewrite lookup_delete_ne by done. done.
    + simpl.
      destruct (setIsProcessing_unchanged h false
                  (setTimers (removeAt k (timers st)) st)) as (-> & _).
      done.
Qed.

Lemma run_claimed pid evs st :
  quiet pid st evs = true →
  is_Some (globalPaymentsInProgress st !! pid) →
  is_Some (globalPaymentsInProgress (run st evs) !! pid).
Proof.
  revert st. induction evs as [|ev evs IH]; intros st Hq Hin; [done|].
  simpl in *. apply andb_true_iff in Hq as [Hev Hq].
  apply negb_true_iff in Hev.
  apply IH; [done|]. by apply step_claimed.
Qed.

(** A payment id that no check stops is claimed in the global map; the
    attempt goes on to [createOrderService] when the customer data are
    valid, and throws the validation error otherwise. *)
Lemma createOrder_fresh h formState pid status st :
  processingRef (instance h st) = false →
  orderCreatedRef (instance h st) ≠ Some pid →
  globalPaymentsInProgress st !! pid = None →
  globalPaymentsInProgress (createOrder h false formState pid status st) !! pid
  = Some true
  ∧ match truthyText (validateCustomerData (prepareCustomerData formState)) with
    | None =>
        trace (createOrder h false formState pid status st)
        = trace st ++ [CreateOrderService (nextCall st)
                         (prepareCustomerData formState) status pid]
        ∧ awaiting (createOrder h false formState pid status st)
          = awaiting st ++ [{| taskCall := nextCall st; taskInstance := h;
                               taskPaymentId := pid |}]
        ∧ serviceCalls (createOrder h false formState pid status st)
          = S (serviceCalls st)
    | Some message =>
        trace (createOrder h false formState pid status st)
        = trace st
            ++ [Toast "Validation error" message;
                Toast "Order error"
                  "It wasn't possible to complete the order. Please try again.";
                Threw (nextCall st) message]
        ∧ awaiting (createOrder h false formState pid status st) = awaiting st
        ∧ serviceCalls (createOrder h false formState pid status st)
          = serviceCalls st
    end.
Proof.
  intros Href Hcreated Hfree. unfold CheckoutOrder.createOrder. cbv zeta.
  set (st0 := {| now := now st;
                 globalPaymentsInProgress := globalPaymentsInProgress st;
                 instances := instances st; timers := timers st;
                 awaiting := awaiting st; nextCall := S (nextCall st);
                 trace := trace st |}).
  change (instance h st0) with (instance h st).
  rewrite Href. simpl.
  rewrite bool_decide_eq_false_2 by done.
  rewrite bool_decide_eq_false_2
    by (change (globalPaymentsInProgress st0) with (globalPaymentsInProgress st);
        rewrite Hfree; by intros [? ?]).
  destruct (setIsProcessing_unchanged h true st0) as (Hg & Ht & Ha & Hn & Hc).
  destruct (truthyText _) as [message|]; simpl; rewrite ?Hg, ?Ht, ?Ha;
    (split; [by rewrite lookup_insert_eq|]).
  - repeat split.
    + by rewrite <- app_assoc.
    + unfold serviceCalls. simpl. rewrite Ht. simpl.
      rewrite !List.filter_app, !length_app. simpl. lia.
  - repeat split.
    unfold serviceCalls. simpl. rewrite Ht. simpl.
    rewrite !List.filter_app, !length_app. simpl. lia.
Qed.

End CheckoutOrderFacts.

Section OneAttemptPerPaymentId.

Variable validateCustomerData : CustomerData.t → option string.

Lemma storeSettles_outcome st k task :
  OrderOps.awaiting st !! k = Some task →
  (∀ newOrder,
     OrderOps.orders
       (OrderOps.instance (OrderOps.taskInstance task)
          (OrderOps.storeSettles k (inl newOrder) st))
     = newOrder
         :: OrderOps.orders (OrderOps.instance (OrderOps.taskInstance task) st)
     ∧ OrderOps.trace (OrderOps.storeSettles k (inl newOrder) st)
       = OrderOps.trace st
           ++ [OrderOps.Toast "Sucesso" "Pedido adicionado com sucesso";
               OrderOps.Returned (OrderOps.taskCall task) newOrder])
  ∧ (∀ message,
       OrderOps.instances (OrderOps.storeSettles k (inr message) st)
       = OrderOps.instances st
       ∧ OrderOps.trace (OrderOps.storeSettles k (inr message) st)
         = OrderOps.trace st
             ++ [OrderOps.Toast "Erro" "Falha ao adicionar pedido";
                 OrderOps.Threw (OrderOps.taskCall task) message]).
Proof.
  intros Hk. unfold OrderOps.storeSettles. rewrite Hk. split.
  - intros newOrder. cbv zeta. split; [|reflexivity].
    unfold OrderOps.instance. simpl. by rewrite lookup_insert_eq.
  - intros message. split; reflexivity.
Qed.

(** C1, as amended. Of the [createOrder] invocations for one payment id that
    are interleaved (none of their clean-up timers has run), the first one
    that no check stops claims the id, and it calls [createOrderService]
    exactly when its customer data are valid; every other invocation, from
    any instance and closure, throws a duplicate error before the service.
    Of the [addOrder] invocations for one payment id, in any interleaving,
    the first one sends the one request that ever reaches the store for that
    id and every other one throws a duplicate error before the store; the
    order is kept exactly when the store accepts that request. *)
Theorem one_attempt_per_payment_id (pid : string) :
  (∀ st h formState status,
     CheckoutOrder.processingRef (CheckoutOrder.instance h st) = false →
     CheckoutOrder.orderCreatedRef (CheckoutOrder.instance h st) ≠ Some pid →
     CheckoutOrder.globalPaymentsInProgress st !! pid = None →
     CheckoutOrder.globalPaymentsInProgress
       (CheckoutOrder.createOrder validateCustomerData
          h false formState pid status st) !! pid = Some true
     ∧ CheckoutOrder.serviceCalls
         (CheckoutOrder.createOrder validateCustomerData
            h false formState pid status st)
       = (CheckoutOrder.serviceCalls st
          + match truthyText (validateCustomerData
                                (CheckoutOrder.prepareCustomerData formState))
            with None => 1 | Some _ => 0 end)%nat
     ∧ ∀ evs h' seen' formState' status',
         CheckoutOrder.quiet validateCustomerData pid
           (CheckoutOrder.createOrder validateCustomerData
              h false formState pid status st) evs = true →
         ∃ message,
           CheckoutOrder.duplicateError message
           ∧ CheckoutOrder.createOrder validateCustomerData
               h' seen' formState' pid status'
               (CheckoutOrder.run validateCustomerData
                  (CheckoutOrder.createOrder validateCustomerData
                     h false formState pid status st) evs)
             = CheckoutOrder.refused h' pid message
                 (CheckoutOrder.run validateCustomerData
                    (CheckoutOrder.createOrder validateCustomerData
                       h false formState pid status st) evs))
  ∧ (pid ≠ ""%string →
     ∀ st o orderData,
       OrderOps.paymentId orderData = Some pid →
       pid ∉ OrderOps.pendingOrderIds st →
       OrderOps.processingRef (OrderOps.instance o st) ≠ Some pid →
       OrderOps.trace (OrderOps.addOrder o false orderData st)
       = OrderOps.trace st
           ++ [OrderOps.StoreCreateOrder (OrderOps.nextCall st) orderData]
       ∧ ∀ evs,
           OrderOps.storeRequests pid
             (OrderOps.run (OrderOps.addOrder o false orderData st) evs)
           = S (OrderOps.storeRequests pid st)
           ∧ ∀ o' seen' orderData',
               OrderOps.paymentId orderData' = Some pid →
               ∃ message,
                 OrderOps.duplicateError pid message
                 ∧ OrderOps.addOrder o' seen' orderData'
                     (OrderOps.run (OrderOps.addOrder o false orderData st) evs)
                   = OrderOps.refused o' message
                       (OrderOps.run
                          (OrderOps.addOrder o false orderData st) evs))
  ∧ (∀ st k task,
       OrderOps.awaiting st !! k = Some task →
       (∀ newOrder,
          OrderOps.orders
            (OrderOps.instance (OrderOps.taskInstance task)
               (OrderOps.storeSettles k (inl newOrder) st))
          = newOrder
              :: OrderOps.orders
                   (OrderOps.instance (OrderOps.taskInstance task) st)
          ∧ OrderOps.trace (OrderOps.storeSettles k (inl newOrder) st)
            = OrderOps.trace st
                ++ [OrderOps.Toast "Sucesso" "Pedido adicionado com sucesso";
                    OrderOps.Returned (OrderOps.taskCall task) newOrder])
       ∧ (∀ message,
            OrderOps.instances (OrderOps.storeSettles k (inr message) st)
            = OrderOps.instances st
            ∧ OrderOps.trace (OrderOps.storeSettles k (inr message) st)
              = OrderOps.trace st
                  ++ [OrderOps.Toast "Erro" "Falha ao adicionar pedido";
                      OrderOps.Threw (OrderOps.taskCall task) message])).
Proof.
  split; [|split].
  - intros st h formState status Href Hcreated Hfree.
    destruct (createOrder_fresh validateCustomerData h formState pid status st
                Href Hcreated Hfree) as [Hclaim Hout].
    split; [exact Hclaim|]. split.
    + destruct (truthyText _); destruct Hout as (_ & _ & ->); lia.
    + intros evs h' seen' formState' status' Hquiet.
      apply createOrder_claimed.
      apply run_claimed; [exact Hquiet|]. rewrite Hclaim. by eexists.
  - intros Hne st o orderData Hpid Hfresh Href.
    destruct (addOrder_fresh o orderData pid st Hne Hpid Hfresh Href)
      as (Htrace & _ & Hreg & Hcount).
    split; [exact Htrace|]. intros evs.
    assert (pid ∈ OrderOps.pendingOrderIds (OrderOps.addOrder o false orderData st))
      as Hin.
    { rewrite Hreg. apply elem_of_union_l. by apply elem_of_singleton. }
    split.
    + rewrite run_storeRequests by done. exact Hcount.
    + intros o' seen' orderData' Hpid'.
      apply addOrder_registered; [done..|].
      by apply run_pendingOrderIds.
  - apply storeSettles_outcome.
Qed.

End OneAttemptPerPaymentId.

Section OneAttemptExamples.

(** C1 for "pay_1": a second instance calls [createOrder] while the first
    attempt awaits the service, and [addOrder] is called twice. *)
Lemma one_attempt_per_payment_id_witness :
  (∃ message,
     CheckoutOrder.duplicateError message
     ∧ CheckoutOrder.trace
         (CheckoutOrder.run CheckoutOrder.acceptAll CheckoutOrder.initial
            [CheckoutOrder.CallCreateOrder 0 false CheckoutOrder.filledForm
               "pay_1" confirmed;
             CheckoutOrder.CallCreateOrder 1 false CheckoutOrder.filledForm
               "pay_1" confirmed])
       = [CheckoutOrder.CreateOrderService 0
            (CheckoutOrder.prepareCustomerData CheckoutOrder.filledForm)
            confirmed "pay_1";
          CheckoutOrder.Toast "Order error"
            "It wasn't possible to complete the order. Please try again.";
          CheckoutOrder.Threw 1 message])
  ∧ OrderOps.storeRequests "pay_1"
      (OrderOps.run OrderOps.initial
         [OrderOps.CallAddOrder 0 false (OrderOps.requestFor "pay_1");
          OrderOps.CallAddOrder 1 false (OrderOps.requestFor "pay_1");
          OrderOps.StoreSettles 0 (inl paidOrder)]) = 1%nat.
Proof.
  destruct (one_attempt_per_payment_id CheckoutOrder.acceptAll "pay_1")
    as (Hhook & Hops & _).
  split.
  - destruct (Hhook CheckoutOrder.initial 0%nat CheckoutOrder.filledForm
                confirmed eq_refl) as (_ & _ & Hothers);
      [discriminate | reflexivity |].
    destruct (Hothers [] 1%nat false CheckoutOrder.filledForm confirmed eq_refl)
      as (message & Hdup & Hcall).
    exists message. split; [exact Hdup|].
    change (CheckoutOrder.run CheckoutOrder.acceptAll CheckoutOrder.initial
              [CheckoutOrder.CallCreateOrder 0 false CheckoutOrder.filledForm
                 "pay_1" confirmed;
               CheckoutOrder.CallCreateOrder 1 false CheckoutOrder.filledForm
                 "pay_1" confirmed])
      with (CheckoutOrder.createOrder CheckoutOrder.acceptAll 1 false
              CheckoutOrder.filledForm "pay_1" confirmed
              (CheckoutOrder.run CheckoutOrder.acceptAll
                 (CheckoutOrder.createOrder CheckoutOrder.acceptAll 0 false
                    CheckoutOrder.filledForm "pay_1" confirmed
                    CheckoutOrder.initial) [])).
    rewrite Hcall. vm_compute. reflexivity.
  - destruct (Hops ltac:(discriminate) OrderOps.initial 0%nat
                (OrderOps.requestFor "pay_1") eq_refl) as (_ & Hevs).
    + vm_compute. set_solver.
    + discriminate.
    + apply (Hevs [OrderOps.CallAddOrder 1 false (OrderOps.requestFor "pay_1");
                   OrderOps.StoreSettles 0 (inl paidOrder)]).
Defined.

(** C1, as stated, fails: with two interleaved invocations no order is kept
    when the store turns the request down, or when the customer data of the
    first invocation are not valid; one invocation then ends with that
    error, not with a duplicate error, and none has created an order. *)
Lemma interleaved_invocations_may_create_no_order :
  CheckoutOrder.trace
    (CheckoutOrder.run CheckoutOrder.acceptAll CheckoutOrder.initial
       [CheckoutOrder.CallCreateOrder 0 false CheckoutOrder.filledForm
          "pay_1" confirmed;
        CheckoutOrder.CallCreateOrder 1 false CheckoutOrder.filledForm
          "pay_1" confirmed;
        CheckoutOrder.ServiceSettles 0 (inr "insert failed"%string)])
  = [CheckoutOrder.CreateOrderService 0
       (CheckoutOrder.prepareCustomerData CheckoutOrder.filledForm)
       confirmed "pay_1";
     CheckoutOrder.Toast "Order error"
       "It wasn't possible to complete the order. Please try again.";
     CheckoutOrder.Threw 1 "This payment is already being processed";
     CheckoutOrder.Toast "Order error"
       "It wasn't possible to complete the order. Please try again.";
     CheckoutOrder.Threw 0 "insert failed"]
  ∧ CheckoutOrder.trace
      (CheckoutOrder.run CheckoutOrder.rejectAll CheckoutOrder.initial
         [CheckoutOrder.CallCreateOrder 0 false CheckoutOrder.filledForm
            "pay_1" confirmed;
          CheckoutOrder.CallCreateOrder 1 false CheckoutOrder.filledForm
            "pay_1" confirmed])
    = [CheckoutOrder.Toast "Validation error" "Nome é obrigatório";
       CheckoutOrder.Toast "Order error"
         "It wasn't possible to complete the order. Please try again.";
       CheckoutOrder.Threw 0 "Nome é obrigatório";
       CheckoutOrder.Toast "Order error"
         "It wasn't possible to complete the order. Please try again.";
       CheckoutOrder.Threw 1 "This payment is already being processed"]
  ∧ OrderOps.trace
      (OrderOps.run OrderOps.initial
         [OrderOps.CallAddOrder 0 false (OrderOps.requestFor "pay_1");
          OrderOps.CallAddOrder 1 false (OrderOps.requestFor "pay_1");
          OrderOps.StoreSettles 0 (inr "insert failed"%string)])
    = [OrderOps.StoreCreateOrder 0 (OrderOps.requestFor "pay_1");
       OrderOps.Toast "Erro" "Falha ao adicionar pedido";
       OrderOps.Threw 1
         "Pedido com ID de pagamento pay_1 já está em processamento";
       OrderOps.Toast "Erro" "Falha ao adicionar pedido";
       OrderOps.Threw 0 "insert failed"]
  ∧ OrderOps.orders
      (OrderOps.instance 0
         (OrderOps.run OrderOps.initial
            [OrderOps.CallAddOrder 0 false (OrderOps.requestFor "pay_1");
             OrderOps.CallAddOrder 1 false (OrderOps.requestFor "pay_1");
             OrderOps.StoreSettles 0 (inr "insert failed"%string)])) = [].
Proof. repeat split; vm_compute; reflexivity. Qed.

(** Why the runs above are the ones without clean-up: the timer that a
    refused call sets deletes the payment id from the global map while the
    first attempt still awaits the service, and a third call then passes the
    checks of [createOrder]. In [addOrder] the id stays registered, so the
    store is still asked once. *)
Example refused_call_releases_the_claim :
  CheckoutOrder.serviceCalls
    (CheckoutOrder.run CheckoutOrder.acceptAll CheckoutOrder.initial
       [CheckoutOrder.CallCreateOrder 0 false CheckoutOrder.filledForm
          "pay_1" confirmed;
        CheckoutOrder.CallCreateOrder 1 false CheckoutOrder.filledForm
          "pay_1" confirmed;
        CheckoutOrder.Tick 2000;
        CheckoutOrder.Fire 1;
        CheckoutOrder.CallCreateOrder 1 false CheckoutOrder.filledForm
          "pay_1" confirmed]) = 2%nat
  ∧ OrderOps.storeRequests "pay_1"
      (OrderOps.run OrderOps.initial
         [OrderOps.CallAddOrder 0 false (OrderOps.requestFor "pay_1");
          OrderOps.CallAddOrder 1 false (OrderOps.requestFor "pay_1");
          OrderOps.Tick 1000;
          OrderOps.Fire 0;
          OrderOps.CallAddOrder 1 false (OrderOps.requestFor "pay_1")])
    = 1%nat.
Proof. split; vm_compute; reflexivity. Qed.

End OneAttemptExamples.

Section SafetyTimeout.
Import CheckoutOrder.

Variable validateCustomerData : CustomerData.t → option string.

Local Abbreviation createOrder := (createOrder validateCustomerData).


Lemma removeAt_last {A} (l : list A) (x : A) :
  removeAt (length l) (l ++ [x]) = l.
Proof.
  unfold removeAt. rewrite take_app_length.
  rewrite drop_ge by (rewrite length_app; simpl; lia).
  apply app_nil_r.
Qed.



End SafetyTimeout.

Section SafetyTimeoutExamples.
Import CheckoutOrder.



End SafetyTimeoutExamples.

(** ** Where a created payment id is kept *)

Section RetainedRegistry.
Import CheckoutOrder.

Variable validateCustomerData : CustomerData.t → option string.

Local Abbreviation createOrder := (createOrder validateCustomerData).

(** The state two seconds after the service has returned the order. *)
Lemma created_and_cleaned_up st k task newOrder dt :
  awaiting st !! k = Some task →
  taskPaymentId task ≠ ""%string →
  2000 ≤ dt →
  globalPaymentsInProgress
    (fire (length (timers st)) (tick dt (serviceSettles k (inl newOrder) st)))
  = delete (taskPaymentId task) (globalPaymentsInProgress st)
  ∧ serviceCalls
      (fire (length (timers st)) (tick dt (serviceSettles k (inl newOrder) st)))
    = serviceCalls st
  ∧ (∀ h',
       processingRef
         (instance h'
            (fire (length (timers st))
               (tick dt (serviceSettles k (inl newOrder) st))))
       = (if decide (taskInstance task = h') then false
          else processingRef (instance h' st))
       ∧ orderCreatedRef
           (instance h'
              (fire (length (timers st))
                 (tick dt (serviceSettles k (inl newOrder) st))))
         = (if decide (taskInstance task = h') then Some (taskPaymentId task)
            else orderCreatedRef (instance h' st))).
Proof.
  intros Hk Hne Hdt. unfold serviceSettles. rewrite Hk. cbv zeta.
  unfold fire, tick. simpl.
  rewrite list_lookup_middle by done.
  replace (now st + 2000 <=? now st + dt) with true
    by (symmetry; apply N.leb_le; lia).
  cbv zeta. simpl. rewrite removeAt_last.
  rewrite bool_decide_eq_true_2 by done.
  set (st1 := setTimers (timers st) _).
  destruct (setIsProcessing_unchanged (taskInstance task) false st1)
    as (Hg & Ht & _).
  split; [|split].
  - simpl. by rewrite Hg.
  - unfold serviceCalls. simpl. rewrite Ht. unfold st1. simpl.
    rewrite List.filter_app, length_app. simpl. lia.
  - intros h'.
    assert (∀ m s, instance h' (setGlobal m s) = instance h' s) as Hsg by done.
    rewrite !Hsg.
    destruct (setProcessingRef_instance (taskInstance task) false
                (setIsProcessing (taskInstance task) false st1) h')
      as (-> & -> & _).
    destruct (setIsProcessing_instance (taskInstance task) false st1 h')
      as (-> & -> & _).
    unfold st1, setOrderCreatedRef, instance. simpl.
    rewrite lookup_insert.
    destruct (decide (taskInstance task = h')); simpl; done.
Qed.

(** C2, as amended. Once the store has returned the order that [addOrder]
    requested for a payment id, the id stays in [pendingOrderIds] whatever
    happens next, and every later [addOrder] for that id, from any instance
    and any closure, throws a duplicate error: no request reaches the store
    and no instance changes. The same holds for [handleOrderCreation] and
    [processedPaymentIds]: once [createOrder] has returned the order for a
    payment id, every later call for that id throws the duplicate error
    before [createOrder]. The registry of [createOrder] itself does not keep
    the id: two seconds after the service has returned the order, the timer
    of the [finally] block has deleted it from [globalPaymentsInProgress];
    from then on only the instance that created the order turns the id away,
    and a [createOrder] on another idle instance passes every check and
    calls [createOrderService] again for the same id. *)
Theorem created_order_is_retained_downstream_only (pid : string) :
  pid ≠ ""%string →
  (∀ evs call orderData order evs' o seen orderData',
     OrderOps.StoreCreateOrder call orderData
       ∈ OrderOps.trace (OrderOps.run OrderOps.initial evs) →
     OrderOps.Returned call order
       ∈ OrderOps.trace (OrderOps.run OrderOps.initial evs) →
     OrderOps.paymentId orderData = Some pid →
     OrderOps.paymentId orderData' = Some pid →
     pid ∈ OrderOps.pendingOrderIds
             (OrderOps.run (OrderOps.run OrderOps.initial evs) evs')
     ∧ OrderOps.storeRequests pid
         (OrderOps.run (OrderOps.run OrderOps.initial evs) evs')
       = OrderOps.storeRequests pid (OrderOps.run OrderOps.initial evs)
     ∧ ∃ message,
         OrderOps.duplicateError pid message
         ∧ OrderOps.addOrder o seen orderData'
             (OrderOps.run (OrderOps.run OrderOps.initial evs) evs')
           = OrderOps.refused o message
               (OrderOps.run (OrderOps.run OrderOps.initial evs) evs'))
  ∧ (∀ evs call status order evs' w status',
       PaymentWrapper.CreateOrder call pid status
         ∈ PaymentWrapper.trace (PaymentWrapper.run PaymentWrapper.initial evs) →
       PaymentWrapper.Returned call order
         ∈ PaymentWrapper.trace (PaymentWrapper.run PaymentWrapper.initial evs) →
       pid ∈ PaymentWrapper.processedPaymentIds
               (PaymentWrapper.run
                  (PaymentWrapper.run PaymentWrapper.initial evs) evs')
       ∧ PaymentWrapper.createOrderCallsFor pid
           (PaymentWrapper.run
              (PaymentWrapper.run PaymentWrapper.initial evs) evs')
         = PaymentWrapper.createOrderCallsFor pid
             (PaymentWrapper.run PaymentWrapper.initial evs)
       ∧ PaymentWrapper.trace
           (PaymentWrapper.handleOrderCreation w pid status'
              (PaymentWrapper.run
                 (PaymentWrapper.run PaymentWrapper.initial evs) evs'))
         = PaymentWrapper.trace
             (PaymentWrapper.run
                (PaymentWrapper.run PaymentWrapper.initial evs) evs')
           ++ [PaymentWrapper.Threw
                 (PaymentWrapper.nextCall
                    (PaymentWrapper.run
                       (PaymentWrapper.run PaymentWrapper.initial evs) evs'))
                 ("A payment with ID " +:+ pid
                    +:+ " is already being processed")]
       ∧ PaymentWrapper.createOrderCalls
           (PaymentWrapper.handleOrderCreation w pid status'
              (PaymentWrapper.run
                 (PaymentWrapper.run PaymentWrapper.initial evs) evs'))
         = PaymentWrapper.createOrderCalls
             (PaymentWrapper.run
                (PaymentWrapper.run PaymentWrapper.initial evs) evs'))
  ∧ (∀ st k task newOrder dt,
       awaiting st !! k = Some task →
       taskPaymentId task = pid →
       2000 ≤ dt →
       globalPaymentsInProgress
         (fire (length (timers st))
            (tick dt (serviceSettles k (inl newOrder) st))) !! pid = None
       ∧ (∀ formState status,
            createOrder (taskInstance task) false formState pid status
              (fire (length (timers st))
                 (tick dt (serviceSettles k (inl newOrder) st)))
            = refused (taskInstance task) pid
                "Order already created with this payment ID"
                (fire (length (timers st))
                   (tick dt (serviceSettles k (inl newOrder) st))))
       ∧ (∀ h' formState status,
            h' ≠ taskInstance task →
            processingRef (instance h' st) = false →
            orderCreatedRef (instance h' st) ≠ Some pid →
            truthyText (validateCustomerData (prepareCustomerData formState))
            = None →
            serviceCalls
              (createOrder h' false formState pid status
                 (fire (length (timers st))
                    (tick dt (serviceSettles k (inl newOrder) st))))
            = S (serviceCalls st))).
Proof.
  intros Hne. split; [|split].
  - intros evs call orderData order evs' o seen orderData' Hreq _ Hpid Hpid'.
    assert (pid ∈ OrderOps.pendingOrderIds (OrderOps.run OrderOps.initial evs))
      as Hin.
    { eapply (requestsRegistered_run evs); eauto.
      apply requestsRegistered_initial. }
    assert (pid ∈ OrderOps.pendingOrderIds
                    (OrderOps.run (OrderOps.run OrderOps.initial evs) evs'))
      as Hin' by (by apply run_pendingOrderIds).
    split; [exact Hin'|]. split; [by apply run_storeRequests|].
    by apply addOrder_registered.
  - intros evs call status order evs' w status' Hcall _.
    assert (pid ∈ PaymentWrapper.processedPaymentIds
                    (PaymentWrapper.run PaymentWrapper.initial evs)) as Hin.
    { eapply (callsRegistered_run evs); eauto.
      apply callsRegistered_initial. }
    assert (pid ∈ PaymentWrapper.processedPaymentIds
                    (PaymentWrapper.run
                       (PaymentWrapper.run PaymentWrapper.initial evs) evs'))
      as Hin' by (by apply run_processedPaymentIds).
    split; [exact Hin'|]. split; [by apply run_createOrderCallsFor|].
    rewrite (handleOrderCreation_registered _ _ _ _ Hne Hin').
    split; [reflexivity|].
    unfold PaymentWrapper.createOrderCalls. simpl.
    rewrite List.filter_app, length_app. simpl. lia.
  - intros st k task newOrder dt Hk Htask Hdt. subst pid.
    destruct (created_and_cleaned_up st k task newOrder dt Hk Hne Hdt)
      as (Hg & Hcalls & Hinst).
    set (st2 := fire _ _) in *.
    assert (globalPaymentsInProgress st2 !! taskPaymentId task = None) as Hfree
      by (rewrite Hg; apply lookup_delete_eq).
    split; [exact Hfree|]. split.
    + intros formState status.
      destruct (Hinst (taskInstance task)) as [Hp Hc].
      rewrite decide_True in Hp by done. rewrite decide_True in Hc by done.
      unfold CheckoutOrder.createOrder. cbv zeta.
      change (instance (taskInstance task)
                {| now := now st2;
                   globalPaymentsInProgress := globalPaymentsInProgress st2;
                   instances := instances st2; timers := timers st2;
                   awaiting := awaiting st2; nextCall := S (nextCall st2);
                   trace := trace st2 |})
        with (instance (taskInstance task) st2).
      rewrite Hp, Hc. simpl. by rewrite bool_decide_eq_true_2.
    + intros h' formState status Hother Href Hcreated Hvalid.
      destruct (Hinst h') as [Hp Hc].
      rewrite decide_False in Hp by done. rewrite decide_False in Hc by done.
      destruct (createOrder_fresh validateCustomerData h' formState
                  (taskPaymentId task) status st2) as [_ Hout].
      * by rewrite Hp.
      * by rewrite Hc.
      * exact Hfree.
      * rewrite Hvalid in Hout. destruct Hout as (_ & _ & ->).
        by rewrite Hcalls.
Qed.

End RetainedRegistry.

Section RetainedRegistryExamples.

(** C2 for the payment "pay_1": the order is created, the clean-up timer
    runs five seconds later, and another instance asks again. *)
Lemma created_order_is_retained_downstream_only_witness :
  (∃ message,
     OrderOps.duplicateError "pay_1" message
     ∧ OrderOps.trace
         (OrderOps.run OrderOps.initial
            [OrderOps.CallAddOrder 0 false (OrderOps.requestFor "pay_1");
             OrderOps.StoreSettles 0 (inl paidOrder);
             OrderOps.Tick 5000; OrderOps.Fire 0;
             OrderOps.CallAddOrder 1 false (OrderOps.requestFor "pay_1")])
       = [OrderOps.StoreCreateOrder 0 (OrderOps.requestFor "pay_1");
          OrderOps.Toast "Sucesso" "Pedido adicionado com sucesso";
          OrderOps.Returned 0 paidOrder;
          OrderOps.Toast "Erro" "Falha ao adicionar pedido";
          OrderOps.Threw 1 message])
  ∧ PaymentWrapper.trace
      (PaymentWrapper.run PaymentWrapper.initial
         [PaymentWrapper.CallHandleOrderCreation 0 "pay_1" confirmed;
          PaymentWrapper.CreateOrderSettles 0 (inl paidOrder);
          PaymentWrapper.Tick 5000; PaymentWrapper.Fire 0;
          PaymentWrapper.CallHandleOrderCreation 1 "pay_1" confirmed])
    = [PaymentWrapper.CreateOrder 0 "pay_1" confirmed;
       PaymentWrapper.Returned 0 paidOrder;
       PaymentWrapper.Threw 1
         "A payment with ID pay_1 is already being processed"].
Proof.
  destruct (created_order_is_retained_downstream_only CheckoutOrder.acceptAll
              "pay_1") as (Hops & Hwrapper & _); [discriminate|].
  split.
  - destruct (Hops [OrderOps.CallAddOrder 0 false (OrderOps.requestFor "pay_1");
                    OrderOps.StoreSettles 0 (inl paidOrder)]
                0%nat (OrderOps.requestFor "pay_1") paidOrder
                [OrderOps.Tick 5000; OrderOps.Fire 0]
                1%nat false (OrderOps.requestFor "pay_1"))
      as (_ & _ & message & Hdup & Hcall).
    + vm_compute. apply list_elem_of_here.
    + vm_compute. do 2 apply list_elem_of_further. apply list_elem_of_here.
    + reflexivity.
    + reflexivity.
    + exists message. split; [exact Hdup|].
      change (OrderOps.run OrderOps.initial
                [OrderOps.CallAddOrder 0 false (OrderOps.requestFor "pay_1");
                 OrderOps.StoreSettles 0 (inl paidOrder);
                 OrderOps.Tick 5000; OrderOps.Fire 0;
                 OrderOps.CallAddOrder 1 false (OrderOps.requestFor "pay_1")])
        with (OrderOps.addOrder 1 false (OrderOps.requestFor "pay_1")
                (OrderOps.run
                   (OrderOps.run OrderOps.initial
                      [OrderOps.CallAddOrder 0 false (OrderOps.requestFor "pay_1");
                       OrderOps.StoreSettles 0 (inl paidOrder)])
                   [OrderOps.Tick 5000; OrderOps.Fire 0])).
      rewrite Hcall. vm_compute. reflexivity.
  - destruct (Hwrapper
                [PaymentWrapper.CallHandleOrderCreation 0 "pay_1" confirmed;
                 PaymentWrapper.CreateOrderSettles 0 (inl paidOrder)]
                0%nat confirmed paidOrder
                [PaymentWrapper.Tick 5000; PaymentWrapper.Fire 0]
                1%nat confirmed) as (_ & _ & Htrace & _).
    + vm_compute. apply list_elem_of_here.
    + vm_compute. apply list_elem_of_further, list_elem_of_here.
    + change (PaymentWrapper.run PaymentWrapper.initial
                [PaymentWrapper.CallHandleOrderCreation 0 "pay_1" confirmed;
                 PaymentWrapper.CreateOrderSettles 0 (inl paidOrder);
                 PaymentWrapper.Tick 5000; PaymentWrapper.Fire 0;
                 PaymentWrapper.CallHandleOrderCreation 1 "pay_1" confirmed])
        with (PaymentWrapper.handleOrderCreation 1 "pay_1" confirmed
                (PaymentWrapper.run
                   (PaymentWrapper.run PaymentWrapper.initial
                      [PaymentWrapper.CallHandleOrderCreation 0 "pay_1" confirmed;
                       PaymentWrapper.CreateOrderSettles 0 (inl paidOrder)])
                   [PaymentWrapper.Tick 5000; PaymentWrapper.Fire 0])).
      rewrite Htrace. vm_compute. reflexivity.
Defined.

(** C2, as stated, fails for the registry of its first source: instance 0
    creates the order for "pay_1", the clean-up timer of [createOrder] runs
    two seconds later and the id has left the global map; instance 1 then
    calls [createOrder] with the same id, no duplicate error is thrown and
    the service is called a second time. *)
Lemma created_order_reaches_the_service_again :
  CheckoutOrder.globalPaymentsInProgress
    (CheckoutOrder.run CheckoutOrder.acceptAll CheckoutOrder.initial
       [CheckoutOrder.CallCreateOrder 0 false CheckoutOrder.filledForm
          "pay_1" confirmed;
        CheckoutOrder.ServiceSettles 0 (inl paidOrder);
        CheckoutOrder.Tick 2000; CheckoutOrder.Fire 1]) !! "pay_1"%string
  = None
  ∧ CheckoutOrder.trace
      (CheckoutOrder.run CheckoutOrder.acceptAll CheckoutOrder.initial
         [CheckoutOrder.CallCreateOrder 0 false CheckoutOrder.filledForm
            "pay_1" confirmed;
          CheckoutOrder.ServiceSettles 0 (inl paidOrder);
          CheckoutOrder.Tick 2000; CheckoutOrder.Fire 1;
          CheckoutOrder.CallCreateOrder 1 false CheckoutOrder.filledForm
            "pay_1" confirmed])
    = [CheckoutOrder.CreateOrderService 0
         (CheckoutOrder.prepareCustomerData CheckoutOrder.filledForm)
         confirmed "pay_1";
       CheckoutOrder.HandlePayment "ord_1" confirmed "CREDIT_CARD";
       CheckoutOrder.Returned 0 paidOrder;
       CheckoutOrder.CreateOrderService 1
         (CheckoutOrder.prepareCustomerData CheckoutOrder.filledForm)
         confirmed "pay_1"].
Proof. split; vm_compute; reflexivity. Qed.

End RetainedRegistryExamples.

(** * Further properties *)

(** ** Formatting of the card number *)

Section FormatCardNumber.
Import CardValidation.

Example formatCardNumber_sixteen_digits :
  formatCardNumber (js "4111111111111111") = js "4111 1111 1111 1111".
Proof. reflexivity. Qed.

Example formatCardNumber_mixed :
  formatCardNumber (js "41a11-1 1x") = js "4111 11".
Proof. reflexivity. Qed.

Lemma isDigit_not_space (c : N) : isDigit c = true → isWhiteSpace c = false.
Proof.
  unfold isDigit. intros H. apply andb_true_iff in H as [H1 H2].
  apply N.leb_le in H1, H2.
  assert (c = 48 ∨ c = 49 ∨ c = 50 ∨ c = 51 ∨ c = 52 ∨ c = 53 ∨ c = 54
          ∨ c = 55 ∨ c = 56 ∨ c = 57) as Hc by lia.
  repeat (destruct Hc as [-> | Hc]; [reflexivity|]). by subst.
Qed.

Lemma removeNonDigits_removeWhiteSpace (s : jsstring) :
  removeNonDigits (removeWhiteSpace s) = removeNonDigits s.
Proof.
  unfold removeNonDigits, removeWhiteSpace.
  induction s as [|c s IH]; [reflexivity|].
  rewrite !filter_cons.
  destruct (decide (isWhiteSpace c = false)) as [Hw|Hw];
    destruct (decide (isDigit c = true)) as [Hd|Hd];
    rewrite ?filter_cons, ?decide_True, ?decide_False by done;
    rewrite ?IH; try reflexivity.
  by apply isDigit_not_space in Hd.
Qed.

Lemma removeNonDigits_length (s : jsstring) :
  length (removeNonDigits s) = countDigits s.
Proof.
  unfold removeNonDigits, countDigits.
  induction s as [|c s IH]; [reflexivity|].
  rewrite filter_cons. simpl.
  destruct (isDigit c) eqn:Hc.
  - rewrite decide_True by done. simpl. by rewrite IH.
  - rewrite decide_False by done. exact IH.
Qed.

Lemma removeNonDigits_all (d : jsstring) :
  forallb isDigit d = true →
  removeNonDigits d = d ∧ removeWhiteSpace d = d ∧ digitRun d = d.
Proof.
  unfold removeNonDigits, removeWhiteSpace.
  induction d as [|c d IH]; [done|].
  simpl. intros H. apply andb_true_iff in H as [Hc Hd].
  destruct (IH Hd) as (IH1 & IH2 & IH3).
  rewrite !filter_cons, Hc, IH1, IH2, IH3.
  rewrite decide_True by done.
  rewrite decide_True by (by apply isDigit_not_space). done.
Qed.

Lemma forallb_take (d : jsstring) (n : nat) :
  forallb isDigit d = true → forallb isDigit (take n d) = true.
Proof.
  revert n. induction d as [|c d IH]; intros [|n]; simpl; try done.
  intros H. apply andb_true_iff in H as [-> Hd]. simpl. by apply IH.
Qed.

(** On a text of digits the first match is the first sixteen digits, when
    there are four at least. *)
Lemma firstDigitRun_all (d : jsstring) :
  forallb isDigit d = true →
  firstDigitRun d = if (4 <=? length d)%nat then Some (take 16 d) else None.
Proof.
  induction d as [|c d IH]; [reflexivity|].
  intros H. destruct (removeNonDigits_all _ H) as (_ & _ & Hrun).
  cbn [firstDigitRun]. rewrite Hrun.
  rewrite length_take.
  simpl in H. apply andb_true_iff in H as [_ Hd].
  destruct (4 <=? length (c :: d))%nat eqn:E.
  - apply Nat.leb_le in E.
    replace (4 <=? 16 `min` length (c :: d))%nat with true
      by (symmetry; apply Nat.leb_le; lia).
    reflexivity.
  - apply Nat.leb_gt in E.
    replace (4 <=? 16 `min` length (c :: d))%nat with false
      by (symmetry; apply Nat.leb_gt; lia).
    rewrite (IH Hd).
    replace (4 <=? length d)%nat with false
      by (symmetry; apply Nat.leb_gt; simpl in E; lia).
    reflexivity.
Qed.

(** The grouped text: [join " "] of the groups of four. *)
Lemma grouped_short (s : jsstring) :
  (length s < 4)%nat → join [32] (groupsOfFour s) = s.
Proof. destruct s as [|a [|b [|c [|d rest]]]]; simpl; try done. lia. Qed.

Lemma grouped_four (a b c d : N) :
  join [32] (groupsOfFour [a; b; c; d]) = [a; b; c; d].
Proof. reflexivity. Qed.

Lemma groupsOfFour_nil (s : jsstring) : groupsOfFour s = [] → s = [].
Proof. by destruct s as [|a [|b [|c [|d rest]]]]. Qed.

Lemma grouped_more (a b c d : N) (rest : jsstring) :
  rest ≠ [] →
  join [32] (groupsOfFour (a :: b :: c :: d :: rest))
  = a :: b :: c :: d :: 32 :: join [32] (groupsOfFour rest).
Proof.
  intros Hrest. cbn [groupsOfFour].
  destruct (groupsOfFour rest) as [|g gs] eqn:E.
  - by apply groupsOfFour_nil in E.
  - reflexivity.
Qed.

(** Induction in steps of four. *)
Lemma by_fours (P : jsstring → Prop) :
  (∀ s, (length s < 4)%nat → P s) →
  (∀ a b c d, P [a; b; c; d]) →
  (∀ a b c d rest, rest ≠ [] → P rest → P (a :: b :: c :: d :: rest)) →
  ∀ s, P s.
Proof.
  intros Hshort Hfour Hmore s.
  remember (length s) as n eqn:Hn. revert s Hn.
  induction n as [n IH] using lt_wf_ind. intros s Hn.
  destruct s as [|a [|b [|c [|d rest]]]]; try (apply Hshort; simpl; lia).
  destruct rest as [|e rest]; [apply Hfour|].
  apply Hmore; [done|].
  apply (IH (length (e :: rest))); [subst; simpl; lia | reflexivity].
Qed.

Lemma grouped_digits (d : jsstring) :
  forallb isDigit d = true →
  removeNonDigits (join [32] (groupsOfFour d)) = d.
Proof.
  induction d as [s Hs|a b c e|a b c e rest Hrest IH] using by_fours;
    intros H.
  - rewrite grouped_short by done. by apply removeNonDigits_all.
  - rewrite grouped_four. by apply removeNonDigits_all.
  - rewrite grouped_more by done.
    simpl in H.
    apply andb_true_iff in H as [Ha H]. apply andb_true_iff in H as [Hb H].
    apply andb_true_iff in H as [Hc H]. apply andb_true_iff in H as [He H].
    unfold removeNonDigits in *.
    rewrite !filter_cons, Ha, Hb, Hc, He.
    rewrite !decide_True by done.
    rewrite decide_False by done.
    by rewrite (IH H).
Qed.

Lemma grouped_length (d : jsstring) :
  d ≠ [] →
  length (join [32] (groupsOfFour d)) = (length d + (length d - 1) / 4)%nat.
Proof.
  induction d as [s Hs|a b c e|a b c e rest Hrest IH] using by_fours;
    intros Hne.
  - rewrite grouped_short by done.
    rewrite Nat.div_small by lia. lia.
  - reflexivity.
  - rewrite grouped_more by done. cbn [length]. rewrite (IH Hrest).
    destruct rest as [|x rest]; [done|]. cbn [length].
    replace (S (S (S (S (S (length rest))))) - 1)%nat
      with (S (length rest) - 1 + 1 * 4)%nat by lia.
    rewrite Nat.div_add by lia. lia.
Qed.

(** What [formatCardNumber] computes, by the number of digits. *)
Lemma formatCardNumber_cases (value : jsstring) :
  formatCardNumber value
  = if (4 <=? countDigits value)%nat
    then join [32] (groupsOfFour (take 16 (removeNonDigits value)))
    else value.
Proof.
  unfold formatCardNumber. cbv zeta.
  rewrite removeNonDigits_removeWhiteSpace.
  rewrite firstDigitRun_all by apply removeNonDigits_digits.
  rewrite removeNonDigits_length.
  destruct (4 <=? countDigits value)%nat eqn:E; [|reflexivity].
  apply Nat.leb_le in E. simpl.
  destruct (groupsOfFour (take 16 (removeNonDigits value))) as [|g gs] eqn:Hg;
    [|reflexivity].
  apply groupsOfFour_nil in Hg.
  apply (f_equal length) in Hg.
  rewrite length_take, removeNonDigits_length in Hg.
  change (length (@nil N)) with 0%nat in Hg. lia.
Qed.

Lemma grouped_no_space (d : jsstring) :
  forallb isDigit d = true →
  removeWhiteSpace (join [32] (groupsOfFour d)) = d.
Proof.
  induction d as [s Hs|a b c e|a b c e rest Hrest IH] using by_fours;
    intros H.
  - rewrite grouped_short by done. by apply removeNonDigits_all.
  - rewrite grouped_four. by apply removeNonDigits_all.
  - rewrite grouped_more by done.
    simpl in H.
    apply andb_true_iff in H as [Ha H]. apply andb_true_iff in H as [Hb H].
    apply andb_true_iff in H as [Hc H]. apply andb_true_iff in H as [He H].
    apply isDigit_not_space in Ha, Hb, Hc, He.
    unfold removeWhiteSpace in *.
    rewrite !filter_cons, Ha, Hb, Hc, He.
    rewrite !decide_True by done.
    rewrite decide_False by done.
    by rewrite (IH H).
Qed.

Lemma formatCardNumber_cases_short (value : jsstring) :
  (countDigits value < 4)%nat → formatCardNumber value = value.
Proof.
  intros H. rewrite formatCardNumber_cases.
  by replace (4 <=? countDigits value)%nat with false
    by (symmetry; apply Nat.leb_gt; lia).
Qed.

(** The grouped text position by position: every fifth code unit is a
    space, and the others are the code units of the text in their order. *)
Lemma grouped_lookup (d : jsstring) :
  ∀ i, (i < length (join [32%N] (groupsOfFour d)))%nat →
       join [32] (groupsOfFour d) !! i
       = if (i mod 5 =? 4)%nat then Some 32 else d !! (i - i / 5)%nat.
Proof.
  induction d as [s Hs|a b c e|a b c e rest Hrest IH] using by_fours;
    intros i Hi.
  - rewrite grouped_short in * by done.
    rewrite (Nat.mod_small i 5), (Nat.div_small i 5) by lia.
    replace (i =? 4)%nat with false by (symmetry; apply Nat.eqb_neq; lia).
    by rewrite Nat.sub_0_r.
  - rewrite grouped_four in *. cbn [length] in Hi.
    rewrite (Nat.mod_small i 5), (Nat.div_small i 5) by lia.
    replace (i =? 4)%nat with false by (symmetry; apply Nat.eqb_neq; lia).
    by rewrite Nat.sub_0_r.
  - rewrite grouped_more in * by done. cbn [length] in Hi.
    do 5 (destruct i as [|i]; [reflexivity|]).
    replace (S (S (S (S (S i))))) with (i + 1 * 5)%nat by lia.
    rewrite Nat.Div0.mod_add, Nat.div_add by lia.
    replace (i + 1 * 5)%nat with (S (S (S (S (S i))))) by lia.
    cbn [lookup list_lookup]. rewrite IH by lia.
    destruct (i mod 5 =? 4)%nat; [reflexivity|].
    pose proof (Nat.Div0.div_le_upper_bound i 5 i ltac:(lia)) as Hdiv.
    replace (S (S (S (S (S i)))) - (i / 5 + 1))%nat
      with (S (S (S (S (i - i / 5))))) by lia.
    reflexivity.
Qed.

(** X1. A text with fewer than four digits comes back from
    [formatCardNumber] unchanged. With four digits or more the result is the
    first sixteen digits of the text, in their order, written in groups of
    four with one space (code unit 32) between two groups: every fifth code
    unit of the result is a space and the others are the digits, one after
    the other. So stripping white space, as [validateCardForm] does, gives
    these digits back, and the result has at most 19 code units. *)
Theorem formatCardNumber_keeps_first_sixteen_digits (value : jsstring) :
  ((countDigits value < 4)%nat → formatCardNumber value = value)
  ∧ ((4 ≤ countDigits value)%nat →
       removeNonDigits (formatCardNumber value)
       = take 16 (removeNonDigits value)
       ∧ removeWhiteSpace (formatCardNumber value)
         = take 16 (removeNonDigits value)
       ∧ length (formatCardNumber value)
         = (16 `min` countDigits value
            + (16 `min` countDigits value - 1) / 4)%nat
       ∧ (length (formatCardNumber value) ≤ 19)%nat
       ∧ ∀ i, (i < length (formatCardNumber value))%nat →
              formatCardNumber value !! i
              = if (i mod 5 =? 4)%nat then Some 32
                else take 16 (removeNonDigits value) !! (i - i / 5)%nat).
Proof.
  rewrite formatCardNumber_cases. split.
  - intros H. by replace (4 <=? countDigits value)%nat with false
      by (symmetry; apply Nat.leb_gt; lia).
  - intros H. replace (4 <=? countDigits value)%nat with true
      by (symmetry; apply Nat.leb_le; lia).
    assert (forallb isDigit (take 16 (removeNonDigits value)) = true) as Hd
      by apply forallb_take, removeNonDigits_digits.
    assert (length (take 16 (removeNonDigits value))
            = 16 `min` countDigits value)%nat as Hlen
      by (by rewrite length_take, removeNonDigits_length).
    assert (length (join [32] (groupsOfFour (take 16 (removeNonDigits value))))
            = (16 `min` countDigits value
               + (16 `min` countDigits value - 1) / 4)%nat) as Hl.
    { rewrite grouped_length, Hlen; [done|].
      intros E. rewrite E in Hlen.
      change (length (@nil N)) with 0%nat in Hlen. lia. }
    split; [by apply grouped_digits|]. split; [by apply grouped_no_space|].
    split; [exact Hl|]. split; [|apply grouped_lookup]. rewrite Hl.
    pose proof (Nat.Div0.div_le_mono (16 `min` countDigits value - 1) 15 4
                  ltac:(lia)) as Hdiv.
    change (15 `div` 4)%nat with 3%nat in Hdiv. lia.
Qed.

(** X1 at "12" and at twenty digits with letters in between: the result is
    the first sixteen digits in four groups, with a space at position 4. *)
Lemma formatCardNumber_keeps_first_sixteen_digits_witness :
  formatCardNumber (js "12") = js "12"
  ∧ removeWhiteSpace (formatCardNumber (js "4111-1111 1111x11112222"))
    = js "4111111111111111"
  ∧ formatCardNumber (js "4111-1111 1111x11112222") !! 4%nat = Some 32
  ∧ formatCardNumber (js "4111-1111 1111x11112222") !! 5%nat = Some 49.
Proof.
  split.
  - apply formatCardNumber_keeps_first_sixteen_digits. vm_compute. lia.
  - destruct (formatCardNumber_keeps_first_sixteen_digits
                (js "4111-1111 1111x11112222")) as [_ H].
    destruct H as (_ & Hdigits & _ & _ & Hat); [vm_compute; lia |].
    split; [rewrite Hdigits; reflexivity|].
    split; (rewrite Hat; [reflexivity | vm_compute; lia]).
Defined.

(** X2. Formatting is idempotent: a formatted card number is formatted to
    itself. *)
Theorem formatCardNumber_idempotent (value : jsstring) :
  formatCardNumber (formatCardNumber value) = formatCardNumber value.
Proof.
  rewrite (formatCardNumber_cases value).
  destruct (4 <=? countDigits value)%nat eqn:E;
    [|apply formatCardNumber_cases_short; by apply Nat.leb_gt].
  apply Nat.leb_le in E.
  set (d := take 16 (removeNonDigits value)).
  assert (forallb isDigit d = true) as Hd
    by apply forallb_take, removeNonDigits_digits.
  assert (4 ≤ length d ≤ 16)%nat as Hlen
    by (unfold d; rewrite length_take, removeNonDigits_length; lia).
  rewrite formatCardNumber_cases.
  rewrite <- removeNonDigits_length, (grouped_digits d Hd).
  replace (4 <=? length d)%nat with true by (symmetry; apply Nat.leb_le; lia).
  by rewrite take_ge by lia.
Qed.

Lemma maskCardNumber_at_most_four (s : jsstring) :
  (length s ≤ 4)%nat → maskCardNumber s = s.
Proof.
  destruct s as [|a [|b [|c [|d [|e rest]]]]]; simpl; intros H;
    rewrite ?andb_false_r; try reflexivity.
  lia.
Qed.

Lemma maskCardNumber_few_digits (s : jsstring) :
  (countDigits s ≤ 4)%nat → maskCardNumber s = s.
Proof.
  induction s as [|c s IH]; [reflexivity|].
  rewrite countDigits_cons. intros H. simpl.
  destruct (isDigit c) eqn:Hc; simpl.
  - destruct (followedByFourDigits s) eqn:E.
    + apply followedByFourDigits_count in E. lia.
    + f_equal. apply IH. lia.
  - f_equal. apply IH. lia.
Qed.

(** No digit of a grouped text has four digits after it. *)
Lemma maskCardNumber_grouped_text (d : jsstring) :
  maskCardNumber (join [32] (groupsOfFour d)) = join [32] (groupsOfFour d).
Proof.
  induction d as [s Hs|a b c e|a b c e rest Hrest IH] using by_fours.
  - rewrite grouped_short by done. apply maskCardNumber_at_most_four. lia.
  - rewrite grouped_four. by apply maskCardNumber_at_most_four.
  - rewrite grouped_more by done.
    cbn [maskCardNumber]. rewrite IH.
    change (isDigit 32) with false.
    destruct (join [32] (groupsOfFour rest)) as [|x [|y [|z g]]];
      cbn [followedByFourDigits]; change (isDigit 32) with false;
      rewrite ?andb_false_r; reflexivity.
Qed.

(** X3. Masking a formatted card number changes nothing: the groups of four
    digits that [formatCardNumber] writes are each followed by a space or by
    the end, so [maskCardNumber] finds no digit to mask, whatever the
    text. *)
Theorem maskCardNumber_leaves_formatted_number (value : jsstring) :
  maskCardNumber (formatCardNumber value) = formatCardNumber value.
Proof.
  rewrite formatCardNumber_cases.
  destruct (4 <=? countDigits value)%nat eqn:E.
  - apply maskCardNumber_grouped_text.
  - apply Nat.leb_gt in E. apply maskCardNumber_few_digits. lia.
Qed.

(** X4. A formatted card number passes the card-number check of
    [validateCardForm] exactly when the text held sixteen digits or more;
    this for every text with four digits at least, the ones that
    [formatCardNumber] rewrites. *)
Theorem formatCardNumber_then_validate (value : jsstring) :
  (4 ≤ countDigits value)%nat →
  cardNumberFails (formatCardNumber value) = (countDigits value <? 16)%nat.
Proof.
  intros H. unfold cardNumberFails.
  rewrite formatCardNumber_cases.
  replace (4 <=? countDigits value)%nat with true
    by (symmetry; apply Nat.leb_le; lia).
  rewrite grouped_no_space by apply forallb_take, removeNonDigits_digits.
  rewrite length_take, removeNonDigits_length.
  destruct (countDigits value <? 16)%nat eqn:E.
  - apply Nat.ltb_lt in E. apply N.ltb_lt. lia.
  - apply Nat.ltb_ge in E. apply N.ltb_ge. lia.
Qed.

(** X4 at sixteen digits typed with dashes. *)
Lemma formatCardNumber_then_validate_witness :
  cardNumberFails (formatCardNumber (js "4111-1111-1111-1111")) = false.
Proof.
  rewrite (formatCardNumber_then_validate (js "4111-1111-1111-1111")).
  - reflexivity.
  - vm_compute. lia.
Defined.

End FormatCardNumber.

(** ** The claim of [createOrder] on a payment id *)

Section CheckoutOrderMore.
Import CheckoutOrder.

Variable validateCustomerData : CustomerData.t → option string.

Local Abbreviation createOrder := (createOrder validateCustomerData).
Local Abbreviation step := (step validateCustomerData).
Local Abbreviation run := (run validateCustomerData).

(** No event deletes the empty payment id: the clean-up deletes only an id
    that is truthy. *)
Lemma step_empty_claimed st ev :
  is_Some (globalPaymentsInProgress st !! ""%string) →
  is_Some (globalPaymentsInProgress (step st ev) !! ""%string).
Proof.
  intros Hin.
  destruct (decide (releases "" st ev = false)) as [Hq|Hq];
    [by apply step_claimed|].
  destruct ev as [h seen formState p status|k result|dt|k]; simpl in Hq;
    try done.
  simpl. unfold fire.
  destruct (timers st !! k) as [[deadline [h p|h]]|]; try done.
  apply not_false_is_true, bool_decide_eq_true in Hq. subst p.
  destruct (deadline <=? now st); [|done].
  cbv zeta. rewrite bool_decide_eq_false_2 by (intros H; by apply H).
  destruct (setIsProcessing_unchanged h false
              (setTimers (removeAt k (timers st)) st)) as (Hg & _).
  unfold setProcessingRef. simpl. rewrite Hg. exact Hin.
Qed.

Lemma run_empty_claimed evs st :
  is_Some (globalPaymentsInProgress st !! ""%string) →
  is_Some (globalPaymentsInProgress (run st evs) !! ""%string).
Proof.
  revert st. induction evs as [|ev evs IH]; intros st Hin; [done|].
  simpl. apply IH. by apply step_empty_claimed.
Qed.

(** X5. An attempt with the empty payment id claims it for good: once
    [createOrder] has passed its checks with the empty id, the id stays in
    the global map through every later event, the clean-up timers included,
    and every later [createOrder] with the empty id, on any instance, throws
    a duplicate error before the service. *)
Theorem empty_payment_id_is_never_released
  (st : State) (h : nat) (formState : FormState.t) (status : Status)
  (evs : list Event) (h' : nat) (seen' : bool) (formState' : FormState.t)
  (status' : Status) :
  processingRef (instance h st) = false →
  orderCreatedRef (instance h st) ≠ Some ""%string →
  globalPaymentsInProgress st !! ""%string = None →
  is_Some (globalPaymentsInProgress
             (run (createOrder h false formState "" status st) evs)
             !! ""%string)
  ∧ ∃ message,
      duplicateError message
      ∧ createOrder h' seen' formState' "" status'
          (run (createOrder h false formState "" status st) evs)
        = refused h' "" message
            (run (createOrder h false formState "" status st) evs).
Proof.
  intros Href Hcreated Hfree.
  destruct (createOrder_fresh validateCustomerData h formState "" status st
              Href Hcreated Hfree) as [Hclaim _].
  assert (is_Some (globalPaymentsInProgress
                     (run (createOrder h false formState "" status st) evs)
                     !! ""%string)) as Hin.
  { apply run_empty_claimed. rewrite Hclaim. by eexists. }
  split; [exact Hin|]. by apply createOrder_claimed.
Qed.

(** X6. The checks of [createOrder] hold an order back on the instance that
    created it, not on the others. Two seconds after the service has
    returned the order for a payment id, the clean-up timer has removed the
    id from the global map; on the creating instance a new [createOrder] for
    the id throws "Order already created with this payment ID", while on
    another idle instance it passes every check and calls
    [createOrderService] a second time for the same id. *)
Theorem created_order_is_guarded_on_its_instance_only
  (st : State) (k : nat) (task : Task) (newOrder : Order) (dt : N)
  (h' : nat) (formState : FormState.t) (status : Status) :
  awaiting st !! k = Some task →
  taskPaymentId task ≠ ""%string →
  2000 ≤ dt →
  h' ≠ taskInstance task →
  processingRef (instance h' st) = false →
  orderCreatedRef (instance h' st) ≠ Some (taskPaymentId task) →
  truthyText (validateCustomerData (prepareCustomerData formState)) = None →
  globalPaymentsInProgress
    (fire (length (timers st)) (tick dt (serviceSettles k (inl newOrder) st)))
    !! taskPaymentId task = None
  ∧ createOrder (taskInstance task) false formState (taskPaymentId task) status
      (fire (length (timers st)) (tick dt (serviceSettles k (inl newOrder) st)))
    = refused (taskInstance task) (taskPaymentId task)
        "Order already created with this payment ID"
        (fire (length (timers st))
           (tick dt (serviceSettles k (inl newOrder) st)))
  ∧ serviceCalls
      (createOrder h' false formState (taskPaymentId task) status
         (fire (length (timers st))
            (tick dt (serviceSettles k (inl newOrder) st))))
    = S (serviceCalls st).
Proof.
  intros Hk Hne Hdt Hother Href Hcreated Hvalid.
  destruct (created_and_cleaned_up st k task newOrder dt Hk Hne Hdt)
    as (Hg & Hcalls & Hinst).
  set (st2 := fire _ _) in *.
  assert (globalPaymentsInProgress st2 !! taskPaymentId task = None) as Hfree
    by (rewrite Hg; apply lookup_delete_eq).
  split; [exact Hfree|]. split.
  - destruct (Hinst (taskInstance task)) as [Hp Hc].
    rewrite decide_True in Hp by done. rewrite decide_True in Hc by done.
    unfold CheckoutOrder.createOrder. cbv zeta.
    change (instance (taskInstance task)
              {| now := now st2;
                 globalPaymentsInProgress := globalPaymentsInProgress st2;
                 instances := instances st2; timers := timers st2;
                 awaiting := awaiting st2; nextCall := S (nextCall st2);
                 trace := trace st2 |})
      with (instance (taskInstance task) st2).
    rewrite Hp, Hc. simpl. by rewrite bool_decide_eq_true_2.
  - destruct (Hinst h') as [Hp Hc].
    rewrite decide_False in Hp by done. rewrite decide_False in Hc by done.
    destruct (createOrder_fresh validateCustomerData h' formState
                (taskPaymentId task) status st2) as [_ Hout].
    + by rewrite Hp.
    + by rewrite Hc.
    + exact Hfree.
    + rewrite Hvalid in Hout. destruct Hout as (_ & _ & ->). by rewrite Hcalls.
Qed.

End CheckoutOrderMore.

Section CheckoutOrderMoreExamples.
Import CheckoutOrder.

(** X5 from the initial state: the attempt fails at the service, its
    clean-up timer runs, and the next attempt is turned away. *)
Lemma empty_payment_id_is_never_released_witness :
  ∃ message,
    duplicateError message
    ∧ createOrder acceptAll 1 false filledForm "" confirmed
        (run acceptAll
           (createOrder acceptAll 0 false filledForm "" confirmed initial)
           [ServiceSettles 0 (inr "insert failed"%string); Tick 2000; Fire 1])
      = refused 1 "" message
          (run acceptAll
             (createOrder acceptAll 0 false filledForm "" confirmed initial)
             [ServiceSettles 0 (inr "insert failed"%string); Tick 2000; Fire 1]).
Proof.
  apply (empty_payment_id_is_never_released acceptAll initial 0%nat filledForm
           confirmed
           [ServiceSettles 0 (inr "insert failed"%string); Tick 2000; Fire 1]
           1%nat false filledForm confirmed);
    [reflexivity | discriminate | reflexivity].
Defined.

(** X6 from the initial state: instance 0 creates the order for "pay_1",
    instance 1 asks again two seconds later. *)
Lemma created_order_is_guarded_on_its_instance_only_witness :
  createOrder acceptAll 0 false filledForm "pay_1" confirmed
    (fire 1 (tick 2000 (serviceSettles 0 (inl paidOrder)
       (createOrder acceptAll 0 false filledForm "pay_1" confirmed initial))))
  = refused 0 "pay_1" "Order already created with this payment ID"
      (fire 1 (tick 2000 (serviceSettles 0 (inl paidOrder)
         (createOrder acceptAll 0 false filledForm "pay_1" confirmed initial))))
  ∧ serviceCalls
      (createOrder acceptAll 1 false filledForm "pay_1" confirmed
         (fire 1 (tick 2000 (serviceSettles 0 (inl paidOrder)
            (createOrder acceptAll 0 false filledForm "pay_1" confirmed
               initial))))) = 2%nat.
Proof.
  destruct (created_order_is_guarded_on_its_instance_only acceptAll
              (createOrder acceptAll 0 false filledForm "pay_1" confirmed
                 initial)
              0%nat {| taskCall := 0; taskInstance := 0;
                       taskPaymentId := "pay_1" |}
              paidOrder 2000 1%nat filledForm confirmed)
    as (_ & Hsame & Hother);
    [reflexivity | discriminate | lia | discriminate | reflexivity
    | discriminate | reflexivity |].
  split; [exact Hsame | exact Hother].
Defined.

Example empty_payment_id_after_clean_up :
  globalPaymentsInProgress
    (run acceptAll initial
       [CallCreateOrder 0 false filledForm "" confirmed;
        ServiceSettles 0 (inr "insert failed"%string);
        Tick 30000; Fire 1; Fire 0]) !! ""%string = Some true
  ∧ timers
      (run acceptAll initial
         [CallCreateOrder 0 false filledForm "" confirmed;
          ServiceSettles 0 (inr "insert failed"%string);
          Tick 30000; Fire 1; Fire 0]) = [].
Proof. split; vm_compute; reflexivity. Qed.

End CheckoutOrderMoreExamples.

(** ** The payment wrapper: what resets and what does not *)

Section PaymentWrapperMore.
Import PaymentWrapper.

Lemma step_localProcessedPaymentIds w st ev :
  localProcessedPaymentIds (instance w st)
  ⊆ localProcessedPaymentIds (instance w (step st ev)).
Proof.
  destruct ev as [w' pid status|k result|dt|k]; simpl.
  - unfold handleOrderCreation. cbv zeta.
    destruct (_ || _); [done|].
    destruct (isProcessingRef _); [done|].
    unfold instance. simpl. rewrite lookup_insert.
    destruct (decide (w' = w)) as [->|]; simpl; [set_solver | done].
  - unfold createOrderSettles. destruct (awaiting st !! k); [|done].
    by destruct result.
  - done.
  - unfold fire. destruct (timers st !! k) as [[deadline w']|]; [|done].
    destruct (deadline <=? now st); [|done].
    unfold instance. simpl. rewrite lookup_insert.
    destruct (decide (w' = w)) as [->|]; simpl; done.
Qed.

Lemma run_localProcessedPaymentIds w evs st :
  localProcessedPaymentIds (instance w st)
  ⊆ localProcessedPaymentIds (instance w (run st evs)).
Proof.
  revert st. induction evs as [|ev evs IH]; intros st; [done|].
  simpl. etrans; [apply step_localProcessedPaymentIds | apply IH].
Qed.

(** A call that no check stops registers its payment id in both sets. *)
Lemma handleOrderCreation_passes w pid status st :
  pid ≠ ""%string →
  pid ∉ processedPaymentIds st →
  pid ∉ localProcessedPaymentIds (instance w st) →
  isProcessingRef (instance w st) = false →
  pid ∈ localProcessedPaymentIds
          (instance w (handleOrderCreation w pid status st))
  ∧ pid ∈ processedPaymentIds (handleOrderCreation w pid status st)
  ∧ createOrderCallsFor pid (handleOrderCreation w pid status st)
    = S (createOrderCallsFor pid st)
  ∧ trace (handleOrderCreation w pid status st)
    = trace st ++ [CreateOrder (nextCall st) pid (normalize status)].
Proof.
  intros Hne Hglobal Hlocal Hflag.
  unfold handleOrderCreation. cbv zeta. simpl.
  rewrite (orString_Some pid _ Hne).
  change (instance w {| now := now st;
                        processedPaymentIds := processedPaymentIds st;
                        instances := instances st; timers := timers st;
                        awaiting := awaiting st; nextCall := S (nextCall st);
                        trace := trace st |}) with (instance w st).
  rewrite !bool_decide_eq_false_2 by done. rewrite Hflag. simpl.
  repeat split.
  - unfold instance. simpl. rewrite lookup_insert_eq. simpl. set_solver.
  - set_solver.
  - unfold createOrderCallsFor. simpl.
    rewrite List.filter_app, length_app. simpl.
    rewrite bool_decide_eq_true_2 by done. simpl. lia.
Qed.

(** X7. [clearGlobalProcessedPayments] does not re-open a payment id for the
    instance that handled it, [clearProcessedPayments] does. After a call of
    [handleOrderCreation] has passed for a payment id and anything has
    happened since: once the global set is cleared, the same instance still
    throws "A payment with ID ... is already being processed" and calls
    [createOrder] no more; once the instance has cleared both sets and its
    flag is lowered, it calls [createOrder] for that id again. *)
Theorem clearing_global_set_keeps_instance_guard
  (st : State) (w : nat) (pid : string) (status : Status)
  (evs : list Event) (status' : Status) :
  pid ≠ ""%string →
  pid ∉ processedPaymentIds st →
  pid ∉ localProcessedPaymentIds (instance w st) →
  isProcessingRef (instance w st) = false →
  (trace (handleOrderCreation w pid status'
            (clearGlobalProcessedPayments
               (run (handleOrderCreation w pid status st) evs)))
   = trace (run (handleOrderCreation w pid status st) evs)
       ++ [Threw (nextCall (run (handleOrderCreation w pid status st) evs))
             ("A payment with ID " +:+ pid +:+ " is already being processed")]
   ∧ createOrderCallsFor pid
       (handleOrderCreation w pid status'
          (clearGlobalProcessedPayments
             (run (handleOrderCreation w pid status st) evs)))
     = createOrderCallsFor pid (run (handleOrderCreation w pid status st) evs))
  ∧ (isProcessingRef
       (instance w (run (handleOrderCreation w pid status st) evs)) = false →
     createOrderCallsFor pid
       (handleOrderCreation w pid status'
          (clearProcessedPayments w
             (run (handleOrderCreation w pid status st) evs)))
     = S (createOrderCallsFor pid
            (run (handleOrderCreation w pid status st) evs))).
Proof.
  intros Hne Hglobal Hlocal Hflag.
  destruct (handleOrderCreation_passes w pid status st Hne Hglobal Hlocal Hflag)
    as (Hin & _).
  set (st1 := run (handleOrderCreation w pid status st) evs).
  assert (pid ∈ localProcessedPaymentIds (instance w st1)) as Hin1
    by (by apply run_localProcessedPaymentIds).
  split.
  - assert (handleOrderCreation w pid status' (clearGlobalProcessedPayments st1)
            = observe [Threw (nextCall st1)
                         ("A payment with ID " +:+ pid
                            +:+ " is already being processed")]
                {| now := now st1; processedPaymentIds := ∅;
                   instances := instances st1; timers := timers st1;
                   awaiting := awaiting st1; nextCall := S (nextCall st1);
                   trace := trace st1 |}) as ->.
    { unfold handleOrderCreation. cbv zeta. simpl.
      rewrite (orString_Some pid _ Hne).
      change (instance w {| now := now st1; processedPaymentIds := ∅;
                            instances := instances st1; timers := timers st1;
                            awaiting := awaiting st1;
                            nextCall := S (nextCall st1);
                            trace := trace st1 |}) with (instance w st1).
      rewrite (bool_decide_eq_true_2 (pid ∈ localProcessedPaymentIds _))
        by done.
      by rewrite orb_true_r. }
    split; [reflexivity|].
    unfold createOrderCallsFor. simpl.
    rewrite List.filter_app, length_app. simpl. lia.
  - intros Hflag1.
    destruct (handleOrderCreation_passes w pid status'
                (clearProcessedPayments w st1)) as (_ & _ & -> & _);
      try done.
    + unfold clearProcessedPayments, instance. simpl.
      rewrite lookup_insert_eq. simpl. set_solver.
    + unfold clearProcessedPayments, instance. simpl.
      rewrite lookup_insert_eq. simpl. exact Hflag1.
Qed.

(** X7 for "pay_1": the order is created and the flag is lowered a second
    later. *)
Lemma clearing_global_set_keeps_instance_guard_witness :
  createOrderCallsFor "pay_1"
    (handleOrderCreation 0 "pay_1" confirmed
       (clearGlobalProcessedPayments
          (run (handleOrderCreation 0 "pay_1" confirmed initial)
             [CreateOrderSettles 0 (inl paidOrder); Tick 1000; Fire 0])))
  = createOrderCallsFor "pay_1"
      (run (handleOrderCreation 0 "pay_1" confirmed initial)
         [CreateOrderSettles 0 (inl paidOrder); Tick 1000; Fire 0])
  ∧ createOrderCallsFor "pay_1"
      (handleOrderCreation 0 "pay_1" confirmed
         (clearProcessedPayments 0
            (run (handleOrderCreation 0 "pay_1" confirmed initial)
               [CreateOrderSettles 0 (inl paidOrder); Tick 1000; Fire 0])))
    = S (createOrderCallsFor "pay_1"
           (run (handleOrderCreation 0 "pay_1" confirmed initial)
              [CreateOrderSettles 0 (inl paidOrder); Tick 1000; Fire 0])).
Proof.
  destruct (clearing_global_set_keeps_instance_guard initial 0%nat "pay_1"
              confirmed
              [CreateOrderSettles 0 (inl paidOrder); Tick 1000; Fire 0]
              confirmed) as [[_ Hkept] Hreopened];
    [discriminate | set_solver | set_solver | reflexivity |].
  split; [exact Hkept|]. apply Hreopened. vm_compute. reflexivity.
Defined.

(** X8. An instance of the wrapper never has two calls of [createOrder] in
    flight: in every state that the wrapper reaches, each instance has at
    most one call awaiting [createOrder] or one clean-up timer pending, not
    both. *)
Theorem wrapper_has_one_call_in_flight (evs : list Event) (w : nat) :
  (tasksOf w (run initial evs) + timersOf w (run initial evs) ≤ 1)%nat.
Proof. apply (singleFlight_run evs initial singleFlight_initial w). Qed.

End PaymentWrapperMore.

(** ** Order operations: the whole hook *)

Section OrderOpsMore.
Import OrderOps.

Lemma perform_pendingOrderIds st op :
  pendingOrderIds st ⊆ pendingOrderIds (perform st op).
Proof.
  destruct op as [ev|o orderId [message|]|o method [message|]
                 |o [updatedOrders|message]]; simpl; try done.
  apply step_pendingOrderIds.
Qed.

Lemma performAll_pendingOrderIds ops st :
  pendingOrderIds st ⊆ pendingOrderIds (performAll st ops).
Proof.
  revert st. induction ops as [|op ops IH]; intros st; [done|].
  simpl. etrans; [apply perform_pendingOrderIds | apply IH].
Qed.

Lemma perform_storeRequests_others pid st op :
  match op with Protocol _ => False | _ => True end →
  storeRequests pid (perform st op) = storeRequests pid st.
Proof.
  destruct op as [ev|o orderId [message|]|o method [message|]
                 |o [updatedOrders|message]]; simpl; try done; intros _;
    unfold storeRequests; simpl;
    rewrite List.filter_app, length_app; simpl; lia.
Qed.

Lemma perform_storeRequests pid st op :
  pid ≠ ""%string → pid ∈ pendingOrderIds st →
  storeRequests pid (perform st op) = storeRequests pid st.
Proof.
  intros Hne Hin. destruct op as [ev| | |];
    [by apply step_storeRequests | by apply perform_storeRequests_others..].
Qed.

(** An event asks the store for an unregistered payment id at most once, and
    registers the id when it does. *)
Lemma step_first_request pid st ev :
  pid ≠ ""%string →
  storeRequests pid st = 0%nat →
  (storeRequests pid (step st ev) ≤ 1)%nat
  ∧ ((0 < storeRequests pid (step st ev))%nat →
     pid ∈ pendingOrderIds (step st ev)).
Proof.
  intros Hne H0.
  destruct ev as [o seen orderData|k result|dt|k]; simpl.
  - unfold addOrder. cbv zeta. simpl.
    assert (∀ message,
              storeRequests pid
                (addOrder_fails (nextCall st) o message
                   {| now := now st; pendingOrderIds := pendingOrderIds st;
                      instances := instances st; timers := timers st;
                      awaiting := awaiting st; nextCall := S (nextCall st);
                      trace := trace st |}) = 0%nat) as Hrefused.
    { intros message. unfold storeRequests in *. simpl.
      rewrite List.filter_app, length_app, H0. reflexivity. }
    destruct seen; [rewrite Hrefused; lia|].
    destruct (decide (_ ∈ _)); [rewrite Hrefused; lia|].
    destruct (decide (_ = _)); [rewrite Hrefused; lia|].
    unfold storeRequests in *. simpl.
    rewrite List.filter_app, length_app, H0. simpl.
    destruct (bool_decide (paymentId orderData = Some pid)) eqn:E; simpl.
    + apply bool_decide_eq_true in E. rewrite E, (orString_Some pid _ Hne).
      split; [lia|]. intros _. set_solver.
    + split; lia.
  - unfold storeSettles. destruct (awaiting st !! k); [|lia].
    destruct result; unfold storeRequests in *; simpl;
      rewrite List.filter_app, length_app, H0; simpl; lia.
  - change (storeRequests pid (tick dt st)) with (storeRequests pid st). lia.
  - unfold fire. destruct (timers st !! k) as [[deadline o]|]; [|lia].
    destruct (deadline <=? now st); [|lia].
    match goal with |- context [storeRequests pid ?s] =>
      change (storeRequests pid s) with (storeRequests pid st) end.
    lia.
Qed.

Lemma askedOnce_perform pid st op :
  pid ≠ ""%string → askedOnce pid st → askedOnce pid (perform st op).
Proof.
  intros Hne [Hle Hreg].
  destruct (decide (storeRequests pid st = 0%nat)) as [H0|H0].
  - destruct op as [ev| | |];
      [by apply step_first_request|..];
      (split; [by rewrite perform_storeRequests_others; [lia|]|];
       rewrite perform_storeRequests_others by done; lia).
  - assert (pid ∈ pendingOrderIds st) as Hin by (apply Hreg; lia).
    split.
    + by rewrite perform_storeRequests.
    + intros _. by apply perform_pendingOrderIds.
Qed.

Lemma askedOnce_performAll pid ops st :
  pid ≠ ""%string → askedOnce pid st → askedOnce pid (performAll st ops).
Proof.
  intros Hne. revert st.
  induction ops as [|op ops IH]; intros st H; [exact H|].
  simpl. apply IH. by apply askedOnce_perform.
Qed.

Lemma askedOnce_initial pid : askedOnce pid initial.
Proof. split; [cbv; lia | cbv; lia]. Qed.

(** X9. Whatever is done with the order operations, starting from the
    initial state, the store is asked at most once to create an order for a
    payment id that is not empty: calls of [addOrder] from any instance and
    closure, settlements of the store, timers, deletions and status updates
    in any order. *)
Theorem store_is_asked_at_most_once (pid : string) (ops : list Operation) :
  pid ≠ ""%string →
  (storeRequests pid (performAll initial ops) ≤ 1)%nat.
Proof.
  intros Hne.
  apply (askedOnce_performAll pid ops initial Hne (askedOnce_initial pid)).
Qed.

(** X9 for "pay_1": three calls, a deletion and the timers in between. *)
Lemma store_is_asked_at_most_once_witness :
  (storeRequests "pay_1"
     (performAll initial
        [Protocol (CallAddOrder 0 false (requestFor "pay_1"));
         Protocol (CallAddOrder 1 false (requestFor "pay_1"));
         Protocol (StoreSettles 0 (inl paidOrder));
         DeleteOrder 0 "ord_1" None;
         Protocol (Tick 1000); Protocol (Fire 0); Protocol (Fire 0);
         Protocol (CallAddOrder 0 false (requestFor "pay_1"))]) ≤ 1)%nat.
Proof. apply store_is_asked_at_most_once. discriminate. Defined.

(** X10. No operation of the hook frees a payment id. Once an id is in
    [pendingOrderIds] it is there after any sequence of operations, the
    deletion of the order included, and [addOrder] for that id still throws
    a duplicate error without a request to the store. *)
Theorem deleting_an_order_keeps_its_payment_id
  (pid : string) (st : State) (ops : list Operation)
  (o : nat) (seen : bool) (orderData : CreateOrderInput) :
  pid ≠ ""%string →
  pid ∈ pendingOrderIds st →
  paymentId orderData = Some pid →
  pid ∈ pendingOrderIds (performAll st ops)
  ∧ ∃ message,
      duplicateError pid message
      ∧ addOrder o seen orderData (performAll st ops)
        = refused o message (performAll st ops)
      ∧ storeRequests pid (addOrder o seen orderData (performAll st ops))
        = storeRequests pid (performAll st ops).
Proof.
  intros Hne Hin Hpid.
  assert (pid ∈ pendingOrderIds (performAll st ops)) as Hin'
    by (by apply performAll_pendingOrderIds).
  split; [exact Hin'|].
  destruct (addOrder_registered o seen orderData pid _ Hne Hpid Hin')
    as (message & Hdup & Hcall).
  exists message. split; [exact Hdup|]. split; [exact Hcall|].
  rewrite Hcall. apply addOrder_refused_unchanged.
Qed.

(** X10 for "pay_1": the order is created, then deleted, then asked for
    again. *)
Lemma deleting_an_order_keeps_its_payment_id_witness :
  orders
    (instance 0
       (performAll
          (run initial [CallAddOrder 0 false (requestFor "pay_1");
                        StoreSettles 0 (inl paidOrder)])
          [DeleteOrder 0 "ord_1" None])) = []
  ∧ storeRequests "pay_1"
      (addOrder 0 false (requestFor "pay_1")
         (performAll
            (run initial [CallAddOrder 0 false (requestFor "pay_1");
                          StoreSettles 0 (inl paidOrder)])
            [DeleteOrder 0 "ord_1" None]))
    = storeRequests "pay_1"
        (performAll
           (run initial [CallAddOrder 0 false (requestFor "pay_1");
                         StoreSettles 0 (inl paidOrder)])
           [DeleteOrder 0 "ord_1" None]).
Proof.
  split; [vm_compute; reflexivity|].
  destruct (deleting_an_order_keeps_its_payment_id "pay_1"
              (run initial [CallAddOrder 0 false (requestFor "pay_1");
                            StoreSettles 0 (inl paidOrder)])
              [DeleteOrder 0 "ord_1" None] 0%nat false (requestFor "pay_1"))
    as (_ & message & _ & _ & Hcount);
    [discriminate | vm_compute; set_solver | reflexivity | exact Hcount].
Defined.

Lemma filter_other_ids (l : list Order) (orderId : string) :
  Forall (λ order, id order ≠ orderId) l →
  List.filter (λ order, negb (bool_decide (id order = orderId))) l = l.
Proof.
  induction 1 as [|order l Hne _ IH]; [reflexivity|].
  simpl. rewrite bool_decide_eq_false_2 by done. simpl. by rewrite IH.
Qed.

(** X11. [deleteOrder] undoes [addOrder] on the list of orders. When the
    store returns a new order whose id no listed order has, the order goes to
    the front of the list, and a successful [deleteOrder] of that id gives
    the list back as it was; after any successful [deleteOrder] no order with
    that id is listed. A failed [deleteOrder] leaves the list as it is and
    throws the error of the store. *)
Theorem deleteOrder_undoes_addOrder
  (st : State) (k : nat) (task : Task) (newOrder : Order) :
  awaiting st !! k = Some task →
  Forall (λ order, id order ≠ id newOrder)
    (orders (instance (taskInstance task) st)) →
  orders (instance (taskInstance task) (storeSettles k (inl newOrder) st))
  = newOrder :: orders (instance (taskInstance task) st)
  ∧ orders
      (instance (taskInstance task)
         (deleteOrder (taskInstance task) (id newOrder) None
            (storeSettles k (inl newOrder) st)))
    = orders (instance (taskInstance task) st)
  ∧ (∀ o orderId st',
       Forall (λ order, id order ≠ orderId)
         (orders (instance o (deleteOrder o orderId None st'))))
  ∧ (∀ o orderId message st',
       instances (deleteOrder o orderId (Some message) st') = instances st'
       ∧ trace (deleteOrder o orderId (Some message) st')
         = trace st' ++ [Toast "Erro" "Falha ao excluir o pedido";
                         Threw (nextCall st') message]).
Proof.
  intros Hk Hfresh.
  assert (orders (instance (taskInstance task)
                    (storeSettles k (inl newOrder) st))
          = newOrder :: orders (instance (taskInstance task) st)) as Hadd.
  { unfold storeSettles. rewrite Hk. cbv zeta.
    unfold instance. simpl. by rewrite lookup_insert_eq. }
  split; [exact Hadd|]. split; [|split].
  - unfold deleteOrder. cbv zeta.
    match goal with |- context [instance ?o {| now := now ?s;
        pendingOrderIds := _; instances := _; timers := _; awaiting := _;
        nextCall := _; trace := _ |}] =>
      change (instance o {| now := now s;
                            pendingOrderIds := pendingOrderIds s;
                            instances := instances s; timers := timers s;
                            awaiting := awaiting s; nextCall := S (nextCall s);
                            trace := trace s |}) with (instance o s) end.
    rewrite Hadd.
    unfold instance at 1. simpl. rewrite lookup_insert_eq. simpl.
    rewrite bool_decide_eq_true_2 by done. simpl.
    by apply filter_other_ids.
  - intros o orderId st'. unfold deleteOrder. cbv zeta.
    unfold instance at 1. simpl. rewrite lookup_insert_eq. simpl.
    apply Forall_forall. intros order Hin.
    apply list_elem_of_In, List.filter_In in Hin as [_ Hin].
    apply negb_true_iff, bool_decide_eq_false in Hin. exact Hin.
  - intros o orderId message st'. split; reflexivity.
Qed.

(** X11 for the order "ord_1" on an empty list. *)
Lemma deleteOrder_undoes_addOrder_witness :
  orders
    (instance 0
       (deleteOrder 0 "ord_1" None
          (storeSettles 0 (inl paidOrder)
             (addOrder 0 false (requestFor "pay_1") initial)))) = [].
Proof.
  destruct (deleteOrder_undoes_addOrder
              (addOrder 0 false (requestFor "pay_1") initial) 0%nat
              {| taskCall := 0; taskInstance := 0;
                 taskInput := requestFor "pay_1" |} paidOrder)
    as (_ & Hback & _); [reflexivity | constructor |].
  exact Hback.
Defined.

(** X12. [clearPendingOrderIds] re-opens every payment id: after it, an
    [addOrder] for an id that the store was already asked for passes the
    checks again and sends a further request to the store, provided the
    closure sees no pending order and the instance is not on that id. *)
Theorem clearPendingOrderIds_reopens_payment_id
  (pid : string) (st : State) (o : nat) (orderData : CreateOrderInput) :
  pid ≠ ""%string →
  paymentId orderData = Some pid →
  processingRef (instance o st) ≠ Some pid →
  storeRequests pid (addOrder o false orderData (clearPendingOrderIds st))
  = S (storeRequests pid st)
  ∧ pid ∈ pendingOrderIds (addOrder o false orderData (clearPendingOrderIds st)).
Proof.
  intros Hne Hpid Href.
  destruct (addOrder_fresh o orderData pid (clearPendingOrderIds st) Hne Hpid)
    as (_ & _ & Hreg & Hcount); [set_solver | exact Href |].
  split; [exact Hcount|].
  rewrite Hreg. apply elem_of_union_l, elem_of_singleton. reflexivity.
Qed.

(** X12 for "pay_1": created once, then asked for from another instance
    after the reset. *)
Lemma clearPendingOrderIds_reopens_payment_id_witness :
  storeRequests "pay_1"
    (addOrder 1 false (requestFor "pay_1")
       (clearPendingOrderIds
          (run initial [CallAddOrder 0 false (requestFor "pay_1");
                        StoreSettles 0 (inl paidOrder)]))) = 2%nat.
Proof.
  destruct (clearPendingOrderIds_reopens_payment_id "pay_1"
              (run initial [CallAddOrder 0 false (requestFor "pay_1");
                            StoreSettles 0 (inl paidOrder)])
              1%nat (requestFor "pay_1")) as [Hcount _];
    [discriminate | reflexivity | discriminate |].
  rewrite Hcount. vm_compute. reflexivity.
Defined.

End OrderOpsMore.

(** ** Order creation at checkout: how a payment id is released *)

Section CheckoutOrderRelease.
Import CheckoutOrder.

Variable validateCustomerData : CustomerData.t → option string.

Local Abbreviation createOrder := (createOrder validateCustomerData).

(** The state once the clean-up timer of a refused call has run. *)
Lemma refused_clean_up_fired h pid message st dt :
  pid ≠ ""%string →
  2000 ≤ dt →
  let st' := fire (length (timers st)) (tick dt (refused h pid message st)) in
  globalPaymentsInProgress st' = delete pid (globalPaymentsInProgress st)
  ∧ awaiting st' = awaiting st
  ∧ serviceCalls st' = serviceCalls st
  ∧ ∀ h',
      isProcessing (instance h' st')
      = (if decide (h = h') then false else isProcessing (instance h' st))
      ∧ processingRef (instance h' st')
        = (if decide (h = h') then false else processingRef (instance h' st))
      ∧ orderCreatedRef (instance h' st') = orderCreatedRef (instance h' st).
Proof.
  intros Hne Hdt. cbv zeta. unfold fire, refused, createOrder_fails, tick.
  cbn [timers setTimers observe now].
  rewrite list_lookup_middle by reflexivity.
  replace (now st + 2000 <=? now st + dt) with true
    by (symmetry; apply N.leb_le; lia).
  cbv zeta. cbn [timers setTimers]. rewrite removeAt_last.
  rewrite bool_decide_eq_true_2 by done.
  match goal with |- context [setIsProcessing h false ?s] => set (s0 := s) end.
  destruct (setIsProcessing_unchanged h false s0) as (Hg & Ht & Ha & _ & _).
  assert (∀ h', instance h' s0 = instance h' st) as Hi by reflexivity.
  split; [|split; [|split]].
  - unfold setGlobal, setProcessingRef. simpl. by rewrite Hg.
  - unfold setGlobal, setProcessingRef. simpl. by rewrite Ha.
  - unfold serviceCalls, setGlobal, setProcessingRef. simpl. rewrite Ht.
    subst s0. simpl. rewrite List.filter_app, length_app. simpl. lia.
  - intros h'.
    change (instance h' (setGlobal ?m ?s)) with (instance h' s).
    destruct (setProcessingRef_instance h false (setIsProcessing h false s0) h')
      as (-> & -> & ->).
    destruct (setIsProcessing_instance h false s0 h') as (-> & -> & ->).
    rewrite !Hi. done.
Qed.

(** An instance that has created the order of a payment id turns a further
    call for it away. *)
Lemma createOrder_created h formState pid status st :
  processingRef (instance h st) = false →
  orderCreatedRef (instance h st) = Some pid →
  createOrder h false formState pid status st
  = refused h pid "Order already created with this payment ID" st.
Proof.
  intros Hflag Hcreated. unfold CheckoutOrder.createOrder. cbv zeta.
  change (instance h {| now := now st;
                        globalPaymentsInProgress := globalPaymentsInProgress st;
                        instances := instances st; timers := timers st;
                        awaiting := awaiting st; nextCall := S (nextCall st);
                        trace := trace st |}) with (instance h st).
  rewrite Hflag. simpl. rewrite bool_decide_eq_true_2 by done. reflexivity.
Qed.

Local Abbreviation afterRefusedCall h seen formState pid status dt st :=
  (fire (length (timers st))
     (tick dt (createOrder h seen formState pid status st))).

(** X13. A refused duplicate releases the payment id. A [createOrder] that a
    duplicate check turns away still sets the clean-up timer of its
    [finally] block; once that timer has run, two seconds later, the id has
    left the global map although the attempt that claimed it may still await
    the service, and a further [createOrder] for the same id, from an
    instance that has not created it, reaches the service again. *)
Theorem refused_call_frees_payment_id
  (st : State) (h : nat) (seen : bool) (formState : FormState.t)
  (pid : string) (status : Status) (dt : N) :
  pid ≠ ""%string →
  is_Some (globalPaymentsInProgress st !! pid) →
  2000 ≤ dt →
  globalPaymentsInProgress (afterRefusedCall h seen formState pid status dt st)
    !! pid = None
  ∧ awaiting (afterRefusedCall h seen formState pid status dt st) = awaiting st
  ∧ serviceCalls (afterRefusedCall h seen formState pid status dt st)
    = serviceCalls st
  ∧ ∀ h' formState' status',
      h' = h ∨ processingRef (instance h' st) = false →
      orderCreatedRef (instance h' st) ≠ Some pid →
      truthyText (validateCustomerData (prepareCustomerData formState')) = None →
      serviceCalls
        (createOrder h' false formState' pid status'
           (afterRefusedCall h seen formState pid status dt st))
      = S (serviceCalls st).
Proof.
  intros Hne Hin Hdt.
  destruct (createOrder_claimed validateCustomerData h seen formState pid
              status st Hin) as (message & _ & ->).
  destruct (refused_clean_up_fired h pid message st dt Hne Hdt)
    as (Hg & Ha & Hs & Hi).
  cbv zeta in Hg, Ha, Hs, Hi.
  assert (globalPaymentsInProgress
            (fire (length (timers st)) (tick dt (refused h pid message st)))
            !! pid = None) as Hfree
    by (rewrite Hg; apply lookup_delete_eq).
  split; [exact Hfree|]. split; [exact Ha|]. split; [exact Hs|].
  intros h' formState' status' Hflag Hcreated Hvalid.
  destruct (Hi h') as (_ & Hp & Hc).
  destruct (createOrder_fresh validateCustomerData h' formState' pid status'
              (fire (length (timers st)) (tick dt (refused h pid message st))))
    as (_ & Hcall).
  - rewrite Hp. destruct (decide (h = h')) as [|Hh]; [done|].
    destruct Hflag as [->|Hflag]; [done | exact Hflag].
  - by rewrite Hc.
  - exact Hfree.
  - rewrite Hvalid in Hcall. destruct Hcall as (_ & _ & ->). by rewrite Hs.
Qed.

(** X14. [clearGlobalPaymentTracking] releases every payment id of the
    global map, also one that is stuck because its attempt never settled:
    after it, a [createOrder] from an instance whose busy flag is down and
    which has not created that id passes the checks and calls the service.
    The guard of the instance is not reset: on the instance that created the
    order the call is still turned away. *)
Theorem clearGlobalPaymentTracking_releases_payment_id
  (st : State) (h : nat) (formState : FormState.t) (pid : string)
  (status : Status) :
  processingRef (instance h st) = false →
  truthyText (validateCustomerData (prepareCustomerData formState)) = None →
  (orderCreatedRef (instance h st) ≠ Some pid →
   serviceCalls
     (createOrder h false formState pid status (clearGlobalPaymentTracking st))
   = S (serviceCalls st)
   ∧ awaiting
       (createOrder h false formState pid status (clearGlobalPaymentTracking st))
     = awaiting st ++ [{| taskCall := nextCall st; taskInstance := h;
                          taskPaymentId := pid |}])
  ∧ (orderCreatedRef (instance h st) = Some pid →
     createOrder h false formState pid status (clearGlobalPaymentTracking st)
     = refused h pid "Order already created with this payment ID"
         (clearGlobalPaymentTracking st)).
Proof.
  intros Hflag Hvalid. split.
  - intros Hcreated.
    destruct (createOrder_fresh validateCustomerData h formState pid status
                (clearGlobalPaymentTracking st)) as (_ & Hcall);
      [exact Hflag | exact Hcreated | apply lookup_empty |].
    rewrite Hvalid in Hcall. destruct Hcall as (_ & Ha & Hs).
    split; [exact Hs | exact Ha].
  - intros Hcreated.
    apply (createOrder_created h formState pid status
             (clearGlobalPaymentTracking st) Hflag Hcreated).
Qed.

End CheckoutOrderRelease.

Section CheckoutOrderReleaseExamples.
Import CheckoutOrder.

(** X13 for "pay_1": a second instance is refused while the first attempt
    awaits the service; two seconds later the same instance calls again and
    the service is called a second time for the same payment id. *)
Lemma refused_call_frees_payment_id_witness :
  serviceCalls
    (createOrder acceptAll 1 false filledForm "pay_1" confirmed
       (fire 1
          (tick 2000
             (createOrder acceptAll 1 false filledForm "pay_1" confirmed
                (createOrder acceptAll 0 false filledForm "pay_1" confirmed
                   initial))))) = 2%nat.
Proof.
  destruct (refused_call_frees_payment_id acceptAll
              (createOrder acceptAll 0 false filledForm "pay_1" confirmed
                 initial)
              1%nat false filledForm "pay_1" confirmed 2000)
    as (_ & _ & _ & Hagain);
    [discriminate | vm_compute; eauto | lia |].
  apply (Hagain 1%nat filledForm confirmed);
    [by left | discriminate | reflexivity].
Defined.

(** X14 for "pay_1": the attempt never settles, the safety timer runs, the
    map is cleared, and the same instance then reaches the service again. *)
Lemma clearGlobalPaymentTracking_releases_payment_id_witness :
  serviceCalls
    (createOrder acceptAll 0 false filledForm "pay_1" confirmed
       (clearGlobalPaymentTracking
          (fire 0
             (tick 30000
                (createOrder acceptAll 0 false filledForm "pay_1" confirmed
                   initial))))) = 2%nat.
Proof.
  destruct (clearGlobalPaymentTracking_releases_payment_id acceptAll
              (fire 0
                 (tick 30000
                    (createOrder acceptAll 0 false filledForm "pay_1" confirmed
                       initial)))
              0%nat filledForm "pay_1" confirmed) as [Hfree _];
    [reflexivity | reflexivity |].
  destruct Hfree as [Hcalls _]; [discriminate | exact Hcalls].
Defined.

End CheckoutOrderReleaseExamples.

(** ** The card submission pipeline: routing and failures *)

Section PipelineMore.
Import CardValidation CardProcessor.

Variable validateCardData : CardFormData → option CardValidationErrors.
Variable detectCardBrand : jsstring → string.
Variable processManual : CardFormData → string → UI → completion * UI.
Variable processAutomatic :
  CardFormData → string → option Settings → bool → UI → completion * UI.

Local Abbreviation processCardPayment :=
  (processCardPayment validateCardData detectCardBrand
     processManual processAutomatic).
Local Abbreviation handleCardFormSubmit :=
  (handleCardFormSubmit validateCardData detectCardBrand
     processManual processAutomatic).

(** The routing test of [processCardPayment]. *)
Local Abbreviation manualTest settings :=
  (flag (optField settings manualCardProcessing)
   || negb (flag (optField settings isEnabled))).

Lemma processCardPayment_calls cardData settings isSandbox toast w :
  manualCalls (processCardPayment cardData settings isSandbox toast w).2
  = (manualCalls w
     + match validateCardData cardData with
       | Some _ => 0
       | None => if manualTest settings then 1 else 0
       end)%nat
  ∧ automaticCalls (processCardPayment cardData settings isSandbox toast w).2
    = (automaticCalls w
       + match validateCardData cardData with
         | Some _ => 0
         | None => if manualTest settings then 0 else 1
         end)%nat.
Proof.
  unfold CardProcessor.processCardPayment.
  destruct (validateCardData cardData) as [errors|].
  { unfold manualCalls, automaticCalls. simpl. lia. }
  cbv zeta. destruct (manualTest settings);
    match goal with |- context [returnCall ?t ?r ?w'] =>
      destruct (returnCall_calls t r w') as [-> ->] end;
    rewrite manualCalls_record, automaticCalls_record;
    unfold manualCalls, automaticCalls; simpl; lia.
Qed.

Lemma handleCardFormSubmit_calls settings isSandbox cardData w :
  manualCalls (handleCardFormSubmit settings isSandbox cardData w)
  = manualCalls
      (processCardPayment cardData (Some (default defaultSettings settings))
         isSandbox true (setIsSubmitting true w)).2
  ∧ automaticCalls (handleCardFormSubmit settings isSandbox cardData w)
    = automaticCalls
        (processCardPayment cardData (Some (default defaultSettings settings))
           isSandbox true (setIsSubmitting true w)).2.
Proof.
  unfold CardProcessor.handleCardFormSubmit. cbv zeta.
  destruct (processCardPayment _ _ _ _ _) as [[|e] w']; [done|].
  simpl. rewrite manualCalls_record, automaticCalls_record.
  unfold manualCalls, automaticCalls. simpl. lia.
Qed.

(** X15. What [handleCardFormSubmit] sends to the gateway. A submission calls
    [processAutomatic] (once) exactly when the card passes validation and the
    context has settings in which [isEnabled] is true and
    [manualCardProcessing] is not; it calls [processManual] (once) exactly
    when the card passes validation and that is not so. In particular,
    without settings in the context the fallback settings of the form send
    every valid card to manual review, and no submission calls both
    processors. *)
Theorem handleCardFormSubmit_reaches_gateway_iff
  (settings : option Settings) (isSandbox : bool) (cardData : CardFormData)
  (w : World) :
  (automaticCalls (handleCardFormSubmit settings isSandbox cardData w)
   = S (automaticCalls w)
   ↔ validateCardData cardData = None
     ∧ ∃ s, settings = Some s
            ∧ isEnabled s = Some true
            ∧ manualCardProcessing s ≠ Some true)
  ∧ (manualCalls (handleCardFormSubmit settings isSandbox cardData w)
     = S (manualCalls w)
     ↔ validateCardData cardData = None
       ∧ (settings = None
          ∨ ∃ s, settings = Some s
                 ∧ (manualCardProcessing s = Some true
                    ∨ isEnabled s ≠ Some true)))
  ∧ (manualCalls (handleCardFormSubmit settings isSandbox cardData w)
     + automaticCalls (handleCardFormSubmit settings isSandbox cardData w)
     ≤ S (manualCalls w + automaticCalls w))%nat.
Proof.
  destruct (handleCardFormSubmit_calls settings isSandbox cardData w)
    as [-> ->].
  destruct (processCardPayment_calls cardData
              (Some (default defaultSettings settings)) isSandbox true
              (setIsSubmitting true w)) as [-> ->].
  change (manualCalls (setIsSubmitting true w)) with (manualCalls w).
  change (automaticCalls (setIsSubmitting true w)) with (automaticCalls w).
  destruct (validateCardData cardData) as [errors|].
  { split; [|split]; [split|split|lia].
    - lia.
    - intros [? _]. discriminate.
    - lia.
    - intros [? _]. discriminate. }
  destruct settings as [s|]; simpl.
  - destruct (manualCardProcessing s) as [[|]|] eqn:Em;
      destruct (isEnabled s) as [[|]|] eqn:Ee; simpl;
      (split; [|split]; [split|split|lia]);
      try lia;
      try (intros _; split; [reflexivity|]);
      try (intros [_ (s' & [= <-] & He & Hm)]; congruence);
      try (intros [_ [|(s' & [= <-] & [Hm|He])]]; congruence);
      try (eexists; split; [reflexivity|]; split; congruence);
      try (right; eexists; split; [reflexivity|];
           first [left; congruence | right; congruence]).
  - split; [|split]; [split|split|lia].
    + lia.
    + intros [_ (s' & ? & _)]. discriminate.
    + intros _. split; [reflexivity | by left].
    + lia.
Qed.

(** What [processCardPayment] hands to the processor when it is called from
    the form: the state of the form with no error and the flag raised, and
    the processor and the call that the settings choose. *)
Local Abbreviation handedOver w :=
  {| error := ""; isSubmitting := true; paymentStatus := paymentStatus (ui w) |}.

Local Abbreviation chosenOutcome settings isSandbox cardData w :=
  (if manualTest (Some (default defaultSettings settings))
   then processManual cardData (detectCardBrand (cardNumber cardData))
          (handedOver w)
   else processAutomatic cardData (detectCardBrand (cardNumber cardData))
          (Some (default defaultSettings settings)) isSandbox (handedOver w)).

Local Abbreviation chosenCall settings isSandbox cardData :=
  (if manualTest (Some (default defaultSettings settings))
   then CallProcessManual cardData (detectCardBrand (cardNumber cardData))
   else CallProcessAutomatic cardData (detectCardBrand (cardNumber cardData))
          (Some (default defaultSettings settings)) isSandbox).

(** X16. A failure of the processor ends the submission with one error.
    For a card that passes validation, when the one processor that the
    settings choose fails on this call (whatever the other processor would
    do), the submission ends with [isSubmitting] false and exactly one toast
    of the pipeline after the call of the processor. When the promise of the
    processor is rejected, it is the [catch] of [handleCardFormSubmit] that
    runs: its message "Falha ao processar o pagamento..." and its toast
    "Ocorreu um erro...". When the call of the processor throws, it is the
    [catch] of [processCardPayment] that runs: its message "Erro ao
    processar pagamento..." and its toast "Houve um problema...", and
    [handleCardFormSubmit] adds nothing. *)
Theorem handleCardFormSubmit_failure_shows_one_error
  (settings : option Settings) (isSandbox : bool) (cardData : CardFormData)
  (w : World) :
  validateCardData cardData = None →
  (∀ reason u',
     chosenOutcome settings isSandbox cardData w = (Rejected reason, u') →
     handleCardFormSubmit settings isSandbox cardData w
     = {| ui :=
            {| error :=
                 "Falha ao processar o pagamento. Por favor, tente novamente.";
               isSubmitting := false;
               paymentStatus := paymentStatus u' |};
          calls :=
            calls w
            ++ [chosenCall settings isSandbox cardData;
                CallToast "Erro no processamento"
                  "Ocorreu um erro ao processar seu pagamento. Tente novamente."]
       |}
     ∧ toastCalls (handleCardFormSubmit settings isSandbox cardData w)
       = S (toastCalls w))
  ∧ (∀ reason u',
       chosenOutcome settings isSandbox cardData w = (ThrewSync reason, u') →
       handleCardFormSubmit settings isSandbox cardData w
       = {| ui :=
              {| error :=
                   "Erro ao processar pagamento. Por favor, tente novamente.";
                 isSubmitting := false;
                 paymentStatus := paymentStatus u' |};
            calls :=
              calls w
              ++ [chosenCall settings isSandbox cardData;
                  CallToast "Erro no processamento"
                    "Houve um problema ao processar o pagamento. Por favor, tente novamente."]
         |}
       ∧ toastCalls (handleCardFormSubmit settings isSandbox cardData w)
         = S (toastCalls w)).
Proof.
  intros Hvalid.
  unfold CardProcessor.handleCardFormSubmit, CardProcessor.processCardPayment.
  rewrite Hvalid. cbv zeta.
  change (ui (record ?c ?w')) with (ui w').
  change (ui (setIsSubmitting true (setError "" (setIsSubmitting true w))))
    with (handedOver w).
  destruct (manualTest (Some (default defaultSettings settings)));
    (split; intros reason u' ->;
     unfold returnCall, processCardPayment_catch, toastCalls, record,
       setIsSubmitting, setError, withUI; simpl;
     (split; [by rewrite <- app_assoc|]);
     rewrite !List.filter_app, !length_app; simpl; lia).
Qed.

End PipelineMore.

Section PipelineMoreExamples.
Import CardValidation CardProcessor.

(** X15 for a valid card: without settings it goes to manual review, with
    automatic settings to the gateway. *)
Example handleCardFormSubmit_routes :
  calls (handleCardFormSubmit validateCardFields unknownBrand
           manualStandIn automaticStandIn None false validCard idle)
  = [CallProcessManual validCard "unknown"]
  ∧ calls (handleCardFormSubmit validateCardFields unknownBrand
             manualStandIn automaticStandIn (Some automaticSettings) false
             validCard idle)
    = [CallProcessAutomatic validCard "unknown" (Some automaticSettings) false].
Proof. split; reflexivity. Qed.

(** X16 for a valid card: without settings the manual processor rejects,
    beside an automatic processor that works; with automatic settings the
    automatic processor throws, beside a manual processor that works. *)
Lemma handleCardFormSubmit_failure_shows_one_error_witness :
  handleCardFormSubmit validateCardFields unknownBrand
    manualRejects automaticStandIn None false validCard idle
  = {| ui :=
         {| error := "Falha ao processar o pagamento. Por favor, tente novamente.";
            isSubmitting := false; paymentStatus := None |};
       calls :=
         [CallProcessManual validCard "unknown";
          CallToast "Erro no processamento"
            "Ocorreu um erro ao processar seu pagamento. Tente novamente."] |}
  ∧ handleCardFormSubmit validateCardFields unknownBrand
      manualStandIn automaticThrows (Some automaticSettings) false
      validCard idle
    = {| ui :=
           {| error := "Erro ao processar pagamento. Por favor, tente novamente.";
              isSubmitting := false; paymentStatus := None |};
         calls :=
           [CallProcessAutomatic validCard "unknown"
              (Some automaticSettings) false;
            CallToast "Erro no processamento"
              "Houve um problema ao processar o pagamento. Por favor, tente novamente."] |}.
Proof.
  split.
  - destruct (handleCardFormSubmit_failure_shows_one_error
                validateCardFields unknownBrand manualRejects automaticStandIn
                None false validCard idle eq_refl) as [Hrejected _].
    destruct (Hrejected "manual review failed"%string
                {| error := ""; isSubmitting := true; paymentStatus := None |}
                eq_refl) as [Hend _].
    exact Hend.
  - destruct (handleCardFormSubmit_failure_shows_one_error
                validateCardFields unknownBrand manualStandIn automaticThrows
                (Some automaticSettings) false validCard idle eq_refl)
      as [_ Hthrown].
    destruct (Hthrown "gateway unreachable"%string
                {| error := ""; isSubmitting := true; paymentStatus := None |}
                eq_refl) as [Hend _].
    exact Hend.
Defined.

End PipelineMoreExamples.

(** ** Products: the list and the lookup by slug *)

Section ProductOpsFacts.
Import ProductOps.

Variable obterProdutoPorSlugAPI : string → option Product + option string.

Local Abbreviation getProductBySlug :=
  (getProductBySlug obterProdutoPorSlugAPI).

(** The local part of the lookup is [find] on the list, empty or not. *)
Lemma getProductBySlug_find products_ isOffline slug_ :
  getProductBySlug products_ isOffline slug_
  = match List.find (λ p, bool_decide (slug p = slug_)) products_ with
    | Some localProduct => (Some localProduct, [])
    | None =>
        if isOffline then (None, [])
        else match obterProdutoPorSlugAPI slug_ with
             | inl product => (product, [slug_])
             | inr _ => (None, [slug_])
             end
    end.
Proof. unfold ProductOps.getProductBySlug. by destruct products_. Qed.

(** X17. Lookup by slug after [addProduct]. Once a product has been added,
    the lookup of its slug returns it from the list without a request to the
    API, online or offline, also when an older product has the same slug;
    the lookup of any other slug is what it was before. An [addProduct] that
    fails changes no lookup. *)
Theorem getProductBySlug_after_addProduct
  (st : State) (newProduct : Product) (isOffline : bool) (slug_ : string)
  (error : option string) :
  getProductBySlug (products (addProduct (inl newProduct) st)) isOffline
    (slug newProduct) = (Some newProduct, [])
  ∧ (slug newProduct ≠ slug_ →
     getProductBySlug (products (addProduct (inl newProduct) st)) isOffline slug_
     = getProductBySlug (products st) isOffline slug_)
  ∧ getProductBySlug (products (addProduct (inr error) st)) isOffline slug_
    = getProductBySlug (products st) isOffline slug_.
Proof.
  split; [|split].
  - rewrite getProductBySlug_find. simpl.
    by rewrite bool_decide_eq_true_2.
  - intros Hne. rewrite !getProductBySlug_find. simpl.
    by rewrite bool_decide_eq_false_2.
  - reflexivity.
Qed.

Lemma find_filter_id (l : list Product) (id_ slug_ : string) :
  List.find (λ p, bool_decide (slug p = slug_))
    (List.filter (λ product, negb (bool_decide (id product = id_))) l)
  = List.find (λ p, bool_decide (slug p = slug_)
                    && negb (bool_decide (id p = id_))) l.
Proof.
  induction l as [|p l IH]; [reflexivity|]. simpl.
  destruct (bool_decide (id p = id_)); simpl.
  - rewrite andb_false_r. exact IH.
  - rewrite andb_true_r. destruct (bool_decide (slug p = slug_)); [done|].
    exact IH.
Qed.

(** X18. Lookup by slug after [removeProduct]. Once the product with an id
    has been removed, an offline lookup never returns a product with that
    id: it returns the first product of the old list that has the slug and
    another id, if there is one, and asks the API nothing. Online, the id
    can only come back from the API. *)
Theorem getProductBySlug_after_removeProduct
  (st : State) (id_ slug_ : string) (isOffline : bool) :
  (getProductBySlug (products (removeProduct id_ (inl tt) st)) true slug_).1
  = List.find (λ p, bool_decide (slug p = slug_)
                    && negb (bool_decide (id p = id_))) (products st)
  ∧ (getProductBySlug (products (removeProduct id_ (inl tt) st)) true slug_).2
    = []
  ∧ ∀ p,
      (getProductBySlug (products (removeProduct id_ (inl tt) st))
         isOffline slug_).1 = Some p →
      id p = id_ →
      (getProductBySlug (products (removeProduct id_ (inl tt) st))
         isOffline slug_).2 = [slug_]
      ∧ obterProdutoPorSlugAPI slug_ = inl (Some p).
Proof.
  rewrite !getProductBySlug_find. simpl. rewrite find_filter_id.
  split; [|split].
  - by destruct (List.find _ _).
  - by destruct (List.find _ _).
  - intros p. destruct (List.find _ _) as [q|] eqn:Hfind.
    + simpl. intros [= ->] Hid. apply List.find_some in Hfind as [_ Hq].
      apply andb_true_iff in Hq as [_ Hq].
      apply negb_true_iff, bool_decide_eq_false in Hq. done.
    + destruct isOffline; [done|].
      destruct (obterProdutoPorSlugAPI slug_) as [[q|]|e]; simpl;
        intros [= ->]; done.
Qed.

Lemma edit_twice (id_ : string) (u p : Product) :
  (if bool_decide
        (id (if bool_decide (id p = id_) then u else p) = id_)
   then u else (if bool_decide (id p = id_) then u else p))
  = (if bool_decide (id p = id_) then u else p).
Proof.
  destruct (bool_decide (id p = id_)) eqn:E.
  - by destruct (bool_decide (id u = id_)).
  - by rewrite E.
Qed.

(** X19. How [editProduct] composes. A successful edit replaces the products
    that have the id and keeps the length of the list; doing the same edit
    again changes nothing more; an edit for an id that no product has leaves
    the list as it is, though the toast still reports the update; and when
    the API returns the product under the same id, a removal of that id
    after the edit leaves the list that the removal alone would leave. *)
Theorem editProduct_composes
  (st : State) (id_ : string) (updatedProduct : Product) :
  length (products (editProduct id_ (inl updatedProduct) st))
  = length (products st)
  ∧ products (editProduct id_ (inl updatedProduct)
                (editProduct id_ (inl updatedProduct) st))
    = products (editProduct id_ (inl updatedProduct) st)
  ∧ (Forall (λ product, id product ≠ id_) (products st) →
     products (editProduct id_ (inl updatedProduct) st) = products st
     ∧ toasts (editProduct id_ (inl updatedProduct) st)
       = toasts st
           ++ [{| title := "Produto atualizado";
                  description :=
                    "O produto " +:+ nome updatedProduct
                    +:+ " foi atualizado com sucesso.";
                  destructive := false |}])
  ∧ (id updatedProduct = id_ →
     products (removeProduct id_ (inl tt)
                 (editProduct id_ (inl updatedProduct) st))
     = products (removeProduct id_ (inl tt) st)).
Proof.
  split; [|split; [|split]].
  - simpl. apply length_map.
  - simpl. rewrite List.map_map. apply List.map_ext. intros p.
    apply edit_twice.
  - intros Hnone. split; [|reflexivity]. simpl.
    induction Hnone as [|p l Hp _ IH]; [reflexivity|]. simpl.
    rewrite bool_decide_eq_false_2 by done. by rewrite IH.
  - intros Hid. simpl. induction (products st) as [|p l IH]; [reflexivity|].
    simpl. destruct (bool_decide (id p = id_)) eqn:E; simpl.
    + rewrite bool_decide_eq_true_2 by done. simpl. exact IH.
    + rewrite E. simpl. by rewrite IH.
Qed.

End ProductOpsFacts.

Section ProductOpsExamples.
Import ProductOps.

(** X17 and X18 on two products: the e-book is found without the API once
    it is added, and no longer found offline once it is removed. *)
Example products_added_and_removed :
  getProductBySlug emptyCatalogue
    (products (addProduct (inl ebook) {| products := [curso]; toasts := [] |}))
    true "ebook" = (Some ebook, [])
  ∧ getProductBySlug emptyCatalogue
      (products
         (removeProduct "prod_2" (inl tt)
            (addProduct (inl ebook) {| products := [curso]; toasts := [] |})))
      true "ebook" = (None, [])
  ∧ getProductBySlug emptyCatalogue
      (products
         (removeProduct "prod_2" (inl tt)
            (addProduct (inl ebook) {| products := [curso]; toasts := [] |})))
      false "ebook" = (None, ["ebook"%string]).
Proof. repeat split; reflexivity. Qed.

End ProductOpsExamples.

(** ** Order operations: orders without a payment id *)

Section OrderOpsWithoutId.
Import OrderOps.

(** The id that [addOrder] makes up at time [t] for an order without one. *)
Local Abbreviation orderIdAt t := ("order_" +:+ pretty t)%string.

Lemma orderIdAt_inj (t t' : N) : orderIdAt t = orderIdAt t' → t = t'.
Proof. simpl. intros [= H]. exact (pretty_N_inj _ _ H). Qed.

Lemma orString_missing (a : option string) (b : string) :
  a = None ∨ a = Some ""%string → orString a b = b.
Proof. by intros [-> | ->]. Qed.

(** The checks of [addOrder] on an order without a payment id. *)
Lemma addOrder_without_id o orderData st :
  paymentId orderData = None ∨ paymentId orderData = Some ""%string →
  addOrder o false orderData st
  = if decide (orderIdAt (now st) ∈ pendingOrderIds st)
    then refused o ("Pedido com ID de pagamento " +:+ orderIdAt (now st)
                      +:+ " já está em processamento") st
    else if decide (processingRef (instance o st) = Some (orderIdAt (now st)))
    then refused o ("Pedido já está em processamento ("
                      +:+ orderIdAt (now st) +:+ ")") st
    else
      {| now := now st;
         pendingOrderIds := {[orderIdAt (now st)]} ∪ pendingOrderIds st;
         instances :=
           <[o := {| pendingOrder := true;
                     processingRef := Some (orderIdAt (now st));
                     orders := orders (instance o st) |}]> (instances st);
         timers := timers st;
         awaiting := awaiting st ++ [{| taskCall := nextCall st;
                                        taskInstance := o;
                                        taskInput := orderData |}];
         nextCall := S (nextCall st);
         trace := trace st ++ [StoreCreateOrder (nextCall st) orderData] |}.
Proof.
  intros Hmissing. unfold addOrder. cbv zeta.
  cbn [now pendingOrderIds].
  rewrite (orString_missing _ _ Hmissing).
  change (instance o {| now := now st; pendingOrderIds := pendingOrderIds st;
                        instances := instances st; timers := timers st;
                        awaiting := awaiting st; nextCall := S (nextCall st);
                        trace := trace st |}) with (instance o st).
  destruct (decide (orderIdAt (now st) ∈ pendingOrderIds st)); [reflexivity|].
  destruct (decide (processingRef (instance o st) = Some (orderIdAt (now st))));
    reflexivity.
Qed.

(** X20. Orders without a payment id are told apart by the clock only.
    [addOrder] gives an order without [paymentId] the id "order_" followed by
    the time in milliseconds. A second call with the same data in the same
    millisecond is turned away as a duplicate; a millisecond or more later
    it passes every check, from any instance whose closure sees no pending
    order, and the store is asked a second time for the same data. *)
Theorem orders_without_payment_id_are_guarded_by_time_only
  (st : State) (o o' : nat) (orderData : CreateOrderInput) (dt : N) :
  paymentId orderData = None ∨ paymentId orderData = Some ""%string →
  orderIdAt (now st) ∉ pendingOrderIds st →
  processingRef (instance o st) ≠ Some (orderIdAt (now st)) →
  orderIdAt (now st + dt) ∉ pendingOrderIds st →
  processingRef (instance o' st) ≠ Some (orderIdAt (now st + dt)) →
  0 < dt →
  trace (addOrder o' false orderData (addOrder o false orderData st))
  = trace st
      ++ [StoreCreateOrder (nextCall st) orderData;
          Toast "Erro" "Falha ao adicionar pedido";
          Threw (S (nextCall st))
            ("Pedido com ID de pagamento " +:+ orderIdAt (now st)
               +:+ " já está em processamento")]
  ∧ trace (addOrder o' false orderData
             (tick dt (addOrder o false orderData st)))
    = trace st
        ++ [StoreCreateOrder (nextCall st) orderData;
            StoreCreateOrder (S (nextCall st)) orderData].
Proof.
  intros Hmissing Hfresh Href Hfresh' Href' Hdt.
  rewrite (addOrder_without_id o orderData st Hmissing).
  rewrite decide_False by exact Hfresh.
  rewrite decide_False by exact Href.
  split.
  - rewrite (addOrder_without_id o' orderData _ Hmissing).
    cbn [now pendingOrderIds].
    rewrite decide_True by (apply elem_of_union_l, elem_of_singleton; reflexivity).
    cbn [refused addOrder_fails observe setTimers trace nextCall].
    by rewrite <- app_assoc.
  - rewrite (addOrder_without_id o' orderData _ Hmissing).
    cbn [tick now pendingOrderIds].
    rewrite decide_False.
    2:{ intros [Hin|Hin]%elem_of_union; [|by apply Hfresh'].
        apply elem_of_singleton, orderIdAt_inj in Hin. lia. }
    rewrite decide_False.
    2:{ unfold instance, tick. cbn [instances].
        destruct (decide (o = o')) as [->|Hne].
        - rewrite lookup_insert_eq. cbn [default processingRef].
          intros [= Hin]. apply pretty_N_inj in Hin. lia.
        - rewrite lookup_insert_ne by done. exact Href'. }
    cbn [trace nextCall tick]. by rewrite <- app_assoc.
Qed.

(** X20 from the initial state: the same order, without a payment id, sent
    twice with one millisecond in between. *)
Lemma orders_without_payment_id_are_guarded_by_time_only_witness :
  trace
    (addOrder 0 false
       {| paymentId := None; productId := "prod_1"; productName := "Curso" |}
       (tick 1
          (addOrder 0 false
             {| paymentId := None; productId := "prod_1";
                productName := "Curso" |} initial)))
  = [StoreCreateOrder 0
       {| paymentId := None; productId := "prod_1"; productName := "Curso" |};
     StoreCreateOrder 1
       {| paymentId := None; productId := "prod_1"; productName := "Curso" |}].
Proof.
  destruct (orders_without_payment_id_are_guarded_by_time_only initial
              0%nat 0%nat
              {| paymentId := None; productId := "prod_1";
                 productName := "Curso" |} 1) as [_ Htwice].
  - by left.
  - apply not_elem_of_empty.
  - discriminate.
  - apply not_elem_of_empty.
  - discriminate.
  - lia.
  - exact Htwice.
Defined.

End OrderOpsWithoutId.

(** ** Slugs *)

Section SlugFacts.
Import SlugUtils.

Variable normalizeNFD : jsstring → jsstring.
Variable toLowerCase : jsstring → jsstring.

Local Abbreviation slugify := (slugify normalizeNFD toLowerCase).

Lemma startsWithHyphen_replaceHyphenRuns (s : jsstring) :
  startsWithHyphen (replaceHyphenRuns s) = startsWithHyphen s.
Proof.
  induction s as [|c rest IH]; [reflexivity|]. simpl.
  destruct ((c =? 45) && startsWithHyphen rest) eqn:E; [|reflexivity].
  apply andb_true_iff in E as [-> E]. by rewrite IH.
Qed.

Lemma replaceHyphenRuns_no_double (s : jsstring) :
  hasDoubleHyphen (replaceHyphenRuns s) = false.
Proof.
  induction s as [|c rest IH]; [reflexivity|]. simpl.
  destruct ((c =? 45) && startsWithHyphen rest) eqn:E; [exact IH|].
  simpl. by rewrite startsWithHyphen_replaceHyphenRuns, E, IH.
Qed.

Lemma replaceHyphenRuns_fixed (s : jsstring) :
  hasDoubleHyphen s = false → replaceHyphenRuns s = s.
Proof.
  induction s as [|c rest IH]; [reflexivity|]. simpl.
  intros [-> H]%orb_false_iff. by rewrite IH.
Qed.

(** What the stages of [slugify] keep: a property of the code units that
    the hyphen has. *)
Lemma trimStart_Forall (P : N → Prop) (s : jsstring) :
  Forall P s → Forall P (trimStart s).
Proof.
  induction 1 as [|c rest Hc Hrest IH]; [constructor|]. simpl.
  destruct (isWhiteSpace c); [exact IH | by constructor].
Qed.

Lemma trim_Forall (P : N → Prop) (s : jsstring) :
  Forall P s → Forall P (trim s).
Proof.
  intros H. unfold trim.
  apply Forall_rev, trimStart_Forall, Forall_rev, trimStart_Forall, H.
Qed.

Lemma replaceWhiteSpaceRuns_Forall (P : N → Prop) (inRun : bool) (s : jsstring) :
  P 45 → Forall P s → Forall P (replaceWhiteSpaceRuns inRun s).
Proof.
  intros Hhyphen H. revert inRun.
  induction H as [|c rest Hc Hrest IH]; intros inRun; [constructor|]. simpl.
  destruct (isWhiteSpace c); [destruct inRun|]; auto.
Qed.

Lemma removeNonSlugChars_Forall (P : N → Prop) (s : jsstring) :
  Forall P s → Forall (λ c, P c ∧ isSlugChar c = true) (removeNonSlugChars s).
Proof.
  induction 1 as [|c rest Hc Hrest IH]; [constructor|].
  unfold removeNonSlugChars. simpl.
  destruct (isSlugChar c) eqn:E; [by constructor | exact IH].
Qed.

Lemma replaceHyphenRuns_Forall (P : N → Prop) (s : jsstring) :
  Forall P s → Forall P (replaceHyphenRuns s).
Proof.
  induction 1 as [|c rest Hc Hrest IH]; [constructor|]. simpl.
  destruct ((c =? 45) && startsWithHyphen rest); [exact IH | by constructor].
Qed.

Lemma slugify_Forall (P : N → Prop) (text : jsstring) :
  P 45 →
  (∀ s, Forall P (toLowerCase s)) →
  Forall (λ c, P c ∧ isSlugChar c = true) (slugify text).
Proof.
  intros Hhyphen Hlower. unfold SlugUtils.slugify. cbv zeta.
  apply replaceHyphenRuns_Forall, removeNonSlugChars_Forall,
    replaceWhiteSpaceRuns_Forall, trim_Forall, Hlower.
  exact Hhyphen.
Qed.

Lemma isSlugChar_ascii (c : N) :
  isSlugChar c = true → isWhiteSpace c = false ∧ c < 128.
Proof.
  intros Hc.
  unfold isSlugChar, isWordChar, isDigit, isUpperCase, isLowerCase in Hc.
  assert (c < 128) as Hlt.
  { repeat (apply orb_true_iff in Hc as [Hc|Hc]);
      try (apply andb_true_iff in Hc as [_ Hc]; apply N.leb_le in Hc; lia);
      apply N.eqb_eq in Hc; lia. }
  split; [|exact Hlt].
  assert (c ≠ 9 ∧ c ≠ 10 ∧ c ≠ 11 ∧ c ≠ 12 ∧ c ≠ 13 ∧ c ≠ 32) as Hne.
  { repeat (apply orb_true_iff in Hc as [Hc|Hc]);
      try (apply andb_true_iff in Hc as [Hc1 Hc2];
           apply N.leb_le in Hc1, Hc2; lia);
      apply N.eqb_eq in Hc; lia. }
  unfold isWhiteSpace.
  destruct c as [|q]; [reflexivity|].
  do 8 (try destruct q as [q|q|]); try reflexivity; try lia.
Qed.

(** X21. The alphabet of a slug. Whatever the text, [slugify] returns a
    string of ASCII letters, digits, underscores and hyphens only, in which
    no two hyphens stand in a row; white space, punctuation and every code
    unit outside ASCII are gone. *)
Theorem slugify_alphabet (text : jsstring) :
  Forall (λ c, isSlugChar c = true) (slugify text)
  ∧ hasDoubleHyphen (slugify text) = false
  ∧ Forall (λ c, isWhiteSpace c = false ∧ c < 128) (slugify text).
Proof.
  assert (Forall (λ c, isSlugChar c = true) (slugify text)) as Hslug.
  { eapply Forall_impl.
    - apply (slugify_Forall (λ _, True)); [exact I|].
      intros s. by apply Forall_forall.
    - by intros c [_ Hc]. }
  split; [exact Hslug|]. split.
  - apply replaceHyphenRuns_no_double.
  - eapply Forall_impl; [exact Hslug|]. intros c Hc.
    by apply isSlugChar_ascii.
Qed.

Lemma filter_fixed (f : N → bool) (s : jsstring) :
  Forall (λ c, f c = true) s → List.filter f s = s.
Proof.
  induction 1 as [|c rest Hc Hrest IH]; [reflexivity|].
  simpl. by rewrite Hc, IH.
Qed.

Lemma trimStart_fixed (s : jsstring) :
  Forall (λ c, isWhiteSpace c = false) s → trimStart s = s.
Proof. destruct 1 as [|c rest Hc Hrest]; [reflexivity|]. simpl. by rewrite Hc. Qed.

Lemma trim_fixed (s : jsstring) :
  Forall (λ c, isWhiteSpace c = false) s → trim s = s.
Proof.
  intros H. unfold trim. rewrite (trimStart_fixed s H).
  rewrite trimStart_fixed by (by apply Forall_rev).
  apply rev_involutive.
Qed.

Lemma replaceWhiteSpaceRuns_fixed (inRun : bool) (s : jsstring) :
  Forall (λ c, isWhiteSpace c = false) s → replaceWhiteSpaceRuns inRun s = s.
Proof.
  intros H. revert inRun.
  induction H as [|c rest Hc Hrest IH]; intros inRun; [reflexivity|].
  simpl. by rewrite Hc, IH.
Qed.

(** X22. [slugify] changes no slug: applied to one of its own results it
    returns it as it is. This rests on three facts of the two functions of
    the engine: [normalize] and [toLowerCase] leave a text of lower-case
    ASCII letters, digits, underscores and hyphens as it is, and
    [toLowerCase] returns no letter from A to Z. *)
Theorem slugify_idempotent (text : jsstring) :
  (∀ s, Forall (λ c, isUpperCase c = false ∧ isSlugChar c = true) s →
        normalizeNFD s = s) →
  (∀ s, Forall (λ c, isUpperCase c = false ∧ isSlugChar c = true) s →
        toLowerCase s = s) →
  (∀ s, Forall (λ c, isUpperCase c = false) (toLowerCase s)) →
  slugify (slugify text) = slugify text.
Proof.
  intros Hnfd Hlower Hnoupper.
  assert (Forall (λ c, isUpperCase c = false ∧ isSlugChar c = true)
            (slugify text)) as Hslug
    by (by apply (slugify_Forall (λ c, isUpperCase c = false))).
  assert (hasDoubleHyphen (slugify text) = false) as Hdouble
    by apply replaceHyphenRuns_no_double.
  assert (Forall (λ c, isWhiteSpace c = false) (slugify text)) as Hspace.
  { eapply Forall_impl; [exact Hslug|]. intros c [_ Hc].
    by apply isSlugChar_ascii. }
  assert (Forall (λ c, negb (isCombiningMark c) = true) (slugify text)) as Hmark.
  { eapply Forall_impl; [exact Hslug|]. intros c [_ Hc].
    apply isSlugChar_ascii in Hc as [_ Hc]. unfold isCombiningMark.
    apply negb_true_iff, andb_false_iff. left. apply N.leb_gt. lia. }
  generalize dependent (slugify text). intros t Hslug Hdouble Hspace Hmark.
  unfold SlugUtils.slugify. cbv zeta.
  rewrite (Hnfd t Hslug), (filter_fixed _ t Hmark), (Hlower t Hslug).
  rewrite (trim_fixed t Hspace), (replaceWhiteSpaceRuns_fixed false t Hspace).
  unfold removeNonSlugChars. rewrite filter_fixed.
  - by apply replaceHyphenRuns_fixed.
  - eapply Forall_impl; [exact Hslug|]. by intros c [_ Hc].
Qed.

(** ** Unique slugs *)

Variable slugExists : jsstring → bool.

Local Abbreviation generateSlug :=
  (generateSlug normalizeNFD toLowerCase slugExists).
Local Abbreviation generateSlug_loop := (generateSlug_loop slugExists).

Lemma js_inj (a b : string) : js a = js b → a = b.
Proof.
  unfold js. intros H.
  rewrite <- (string_of_list_ascii_of_string a),
    <- (string_of_list_ascii_of_string b).
  f_equal. revert H.
  generalize (list_ascii_of_string a) (list_ascii_of_string b).
  intros l. induction l as [|x l IH]; intros [|y l']; simpl; try done.
  intros [= Hxy Hl]. f_equal; [|by apply IH].
  rewrite <- (ascii_N_embedding x), <- (ascii_N_embedding y). by rewrite Hxy.
Qed.

Lemma candidate_inj (baseSlug : jsstring) (i j : N) :
  candidate baseSlug i = candidate baseSlug j → i = j.
Proof.
  unfold candidate.
  destruct (i =? 0) eqn:Ei; destruct (j =? 0) eqn:Ej;
    try apply N.eqb_eq in Ei; try apply N.eqb_eq in Ej.
  - congruence.
  - intros H. apply (f_equal length) in H. rewrite !length_app in H.
    simpl in H. lia.
  - intros H. apply (f_equal length) in H. rewrite !length_app in H.
    simpl in H. lia.
  - intros H. apply app_inv_head in H. apply app_inv_head in H.
    apply js_inj in H. by apply pretty_N_inj.
Qed.

(** The loop goes through the candidates up to the first that the table
    does not have. *)
Lemma generateSlug_loop_first_free (baseSlug : jsstring) (j : nat) :
  ∀ (fuel : nat) (k : N),
    (j < fuel)%nat →
    k + N.of_nat j < 9007199254740992 →
    (∀ i, (i < j)%nat → slugExists (candidate baseSlug (k + N.of_nat i)) = true) →
    slugExists (candidate baseSlug (k + N.of_nat j)) = false →
    generateSlug_loop fuel baseSlug (candidate baseSlug k) (k + 1)
    = Some (candidate baseSlug (k + N.of_nat j)).
Proof.
  induction j as [|j IH]; intros fuel k Hfuel Hbound Htaken Hfree.
  - destruct fuel as [|fuel]; [lia|].
    replace (k + N.of_nat 0) with k in * by lia.
    cbn [SlugUtils.generateSlug_loop]. by rewrite Hfree.
  - destruct fuel as [|fuel]; [lia|].
    assert (slugExists (candidate baseSlug k) = true) as Hk.
    { specialize (Htaken 0%nat ltac:(lia)).
      by replace (k + N.of_nat 0) with k in Htaken by lia. }
    cbn [SlugUtils.generateSlug_loop]. rewrite Hk. cbn [negb].
    replace (baseSlug ++ js "-" ++ js (pretty (k + 1)))
      with (candidate baseSlug (k + 1)).
    2:{ unfold candidate. by replace (k + 1 =? 0) with false
          by (symmetry; apply N.eqb_neq; lia). }
    replace (increment (k + 1)) with (k + 1 + 1).
    2:{ unfold increment. by replace (k + 1 <? 9007199254740992) with true
          by (symmetry; apply N.ltb_lt; lia). }
    replace (k + N.of_nat (S j)) with (k + 1 + N.of_nat j) by lia.
    apply IH; [lia | lia | |].
    + intros i Hi. specialize (Htaken (S i) ltac:(lia)).
      by replace (k + 1 + N.of_nat i) with (k + N.of_nat (S i)) by lia.
    + by replace (k + 1 + N.of_nat j) with (k + N.of_nat (S j)) by lia.
Qed.

(** Among the first candidates, one more than the table has slugs, one is
    not in the table. *)
Lemma first_free_candidate (baseSlug : jsstring) (taken : list jsstring) :
  (∀ slug, slugExists slug = true → slug ∈ taken) →
  ∃ j, (j ≤ length taken)%nat
       ∧ slugExists (candidate baseSlug (N.of_nat j)) = false
       ∧ ∀ i, (i < j)%nat → slugExists (candidate baseSlug (N.of_nat i)) = true.
Proof.
  intros Htaken.
  assert (∀ m,
            (∃ j, (j < m)%nat
                  ∧ slugExists (candidate baseSlug (N.of_nat j)) = false
                  ∧ ∀ i, (i < j)%nat →
                         slugExists (candidate baseSlug (N.of_nat i)) = true)
            ∨ ∀ i, (i < m)%nat →
                   slugExists (candidate baseSlug (N.of_nat i)) = true) as Hsearch.
  { induction m as [|m [IH|IH]].
    - right. intros i Hi. lia.
    - left. destruct IH as (j & Hj & Hfree & Hbefore).
      exists j. split; [lia|]. by split.
    - destruct (slugExists (candidate baseSlug (N.of_nat m))) eqn:E.
      + right. intros i Hi. destruct (decide (i = m)) as [->|]; [exact E|].
        apply IH. lia.
      + left. exists m. split; [lia|]. by split. }
  destruct (Hsearch (S (length taken))) as [(j & Hj & Hfree & Hbefore)|Hall].
  { exists j. split; [lia|]. by split. }
  exfalso.
  assert (NoDup ((λ i, candidate baseSlug (N.of_nat i))
                   <$> seq 0 (S (length taken)))) as Hnodup.
  { apply NoDup_fmap_2; [|apply NoDup_seq].
    intros i j Hij. apply candidate_inj in Hij. lia. }
  assert ((λ i, candidate baseSlug (N.of_nat i)) <$> seq 0 (S (length taken))
          ⊆+ taken) as Hsub.
  { apply NoDup_submseteq; [exact Hnodup|].
    intros slug (i & -> & Hi)%list_elem_of_fmap.
    apply Htaken, Hall. apply elem_of_seq in Hi. lia. }
  apply submseteq_length in Hsub.
  rewrite length_fmap, length_seq in Hsub. lia.
Qed.

(** X23. [generateSlug] finds a free slug. When the table has finitely many
    slugs (fewer than 2^53), the loop ends after at most one query more than
    the table has slugs, and it returns the first of the candidates, the
    base slug, then the base slug with "-1", "-2" and so on, that the table
    does not have. *)
Theorem generateSlug_returns_first_free_slug
  (name : jsstring) (taken : list jsstring) (fuel : nat) :
  (∀ slug, slugExists slug = true → slug ∈ taken) →
  N.of_nat (length taken) < 9007199254740992 →
  (length taken < fuel)%nat →
  ∃ j, (j ≤ length taken)%nat
       ∧ generateSlug fuel name
         = Some (candidate (slugify name) (N.of_nat j))
       ∧ slugExists (candidate (slugify name) (N.of_nat j)) = false
       ∧ ∀ i, (i < j)%nat →
              slugExists (candidate (slugify name) (N.of_nat i)) = true.
Proof.
  intros Htaken Hbound Hfuel.
  destruct (first_free_candidate (slugify name) taken Htaken)
    as (j & Hj & Hfree & Hbefore).
  exists j. split; [exact Hj|]. split; [|by split].
  unfold SlugUtils.generateSlug. cbv zeta.
  change (slugify name) with (candidate (slugify name) 0) at 2.
  change 1 with (0 + 1).
  rewrite (generateSlug_loop_first_free (slugify name) j fuel 0);
    [reflexivity | lia | lia | exact Hbefore | exact Hfree].
Qed.

End SlugFacts.

Section SlugExamples.
Import SlugUtils.

Lemma asciiLowerCase_no_upper (s : jsstring) :
  Forall (λ c, isUpperCase c = false) (asciiLowerCase s).
Proof.
  unfold asciiLowerCase. apply Forall_fmap, Forall_forall. intros c _. simpl.
  destruct (isUpperCase c) eqn:E; [|exact E].
  unfold isUpperCase in *. apply andb_true_iff in E as [E1 E2].
  apply N.leb_le in E1, E2. apply andb_false_iff. right. apply N.leb_gt. lia.
Qed.

Lemma asciiLowerCase_fixed (s : jsstring) :
  Forall (λ c, isUpperCase c = false ∧ isSlugChar c = true) s →
  asciiLowerCase s = s.
Proof.
  induction 1 as [|c rest [Hc _] Hrest IH]; [reflexivity|].
  unfold asciiLowerCase in *. simpl. by rewrite Hc, IH.
Qed.

(** X22 for the name "Curso  de--Rocq!". *)
Lemma slugify_idempotent_witness :
  slugify asciiNFD asciiLowerCase (js "Curso  de--Rocq!") = js "curso-de-rocq"
  ∧ slugify asciiNFD asciiLowerCase
      (slugify asciiNFD asciiLowerCase (js "Curso  de--Rocq!"))
    = slugify asciiNFD asciiLowerCase (js "Curso  de--Rocq!").
Proof.
  split; [vm_compute; reflexivity|].
  apply (slugify_idempotent asciiNFD asciiLowerCase (js "Curso  de--Rocq!")).
  - reflexivity.
  - apply asciiLowerCase_fixed.
  - apply asciiLowerCase_no_upper.
Defined.

(** X23 for the name "Curso" and a table that has "curso" and "curso-1". *)
Lemma generateSlug_returns_first_free_slug_witness :
  generateSlug asciiNFD asciiLowerCase twoSlugs 3 (js "Curso")
  = Some (js "curso-2").
Proof.
  destruct (generateSlug_returns_first_free_slug asciiNFD asciiLowerCase
              twoSlugs (js "Curso") [js "curso"; js "curso-1"] 3)
    as (j & Hj & Hresult & Hfree & Hbefore).
  - intros slug H. by apply bool_decide_eq_true in H.
  - simpl. lia.
  - simpl. lia.
  - rewrite Hresult. simpl in Hj.
    destruct j as [|[|[|j]]]; [| | |lia].
    + vm_compute in Hfree. discriminate.
    + vm_compute in Hfree. discriminate.
    + vm_compute. reflexivity.
Defined.

End SlugExamples.
